(** * zvfs: a single-file virtual filesystem (src/zvfs.py)

    A shallow embedding of the container codec (struct formats, [Header],
    [FileEntry]) and of the [FileSystem] operations, followed by the
    properties of the on-disk format and of the operations. *)

From Stdlib Require Import ZArith Lia List.
From Stdlib Require Import Strings.Byte Strings.Ascii Strings.String.
From stdpp Require Import base option list gmap pretty.

Local Open Scope Z_scope.

(** ** Bytes and Python values *)

(** A Python [bytes] object. *)
Abbreviation bytes := (list byte).

(** A Python [str]: the sequence of its Unicode code points. *)
Abbreviation pystr := (list N).

#[global] Instance byte_eq_decision : EqDecision byte := Byte.byte_eq_dec.

Definition byte_to_Z (b : byte) : Z := Z.of_N (Byte.to_N b).

Definition byte_of_Z (z : Z) : byte :=
  match Byte.of_N (Z.to_N (z mod 256)) with
  | Some b => b
  | None => x00
  end.

(** [b"\x00" * k]: a negative or zero multiplier gives the empty bytes. *)
Definition zeros (k : Z) : bytes := replicate (Z.to_nat k) x00.

(** An ASCII literal of the source as a [str]. *)
Definition str (s : string) : pystr :=
  map (fun a => N.of_nat (nat_of_ascii a)) (list_ascii_of_string s).

(** An ASCII literal of the source as [bytes]. *)
Definition blit (s : string) : bytes := list_byte_of_string s.

(** ** The [struct] module: [pack] and [unpack] with a little-endian format *)

(** The format characters that the two formats use; [Fs n] is [ns]. *)
Inductive fmt_code :=
| Fs (n : nat)
| FB
| FH
| FI
| FQ.

Inductive value :=
| VBytes (b : bytes)
| VInt (z : Z).

Definition int_width (c : fmt_code) : nat :=
  match c with
  | Fs n => n
  | FB => 1
  | FH => 2
  | FI => 4
  | FQ => 8
  end.

Definition calcsize (fmt : list fmt_code) : nat :=
  foldr (fun c acc => (int_width c + acc)%nat) 0%nat fmt.

(** Little-endian encoding of [v] on [w] bytes, and decoding. *)
Fixpoint le_bytes (w : nat) (v : Z) : bytes :=
  match w with
  | O => []
  | S w' => byte_of_Z v :: le_bytes w' (v / 256)
  end.

Fixpoint le_int (bs : bytes) : Z :=
  match bs with
  | [] => 0
  | b :: bs' => byte_to_Z b + 256 * le_int bs'
  end.

(** [ns]: longer values are truncated, shorter ones NUL-padded. *)
Definition pack_s (n : nat) (b : bytes) : bytes :=
  take n b ++ replicate (n - length b) x00.

(** One field; [None] is [struct.error] (wrong type or out of range). *)
Definition pack_field (c : fmt_code) (v : value) : option bytes :=
  match c, v with
  | Fs n, VBytes b => Some (pack_s n b)
  | Fs _, VInt _ => None
  | _, VInt z =>
      if bool_decide (0 <= z < 2 ^ (8 * Z.of_nat (int_width c)))
      then Some (le_bytes (int_width c) z)
      else None
  | _, VBytes _ => None
  end.

Fixpoint struct_pack (fmt : list fmt_code) (vs : list value) : option bytes :=
  match fmt, vs with
  | [], [] => Some []
  | c :: fmt', v :: vs' =>
      match pack_field c v, struct_pack fmt' vs' with
      | Some b, Some bs => Some (b ++ bs)
      | _, _ => None
      end
  | _, _ => None
  end.

Definition unpack_field (c : fmt_code) (raw : bytes) : value :=
  match c with
  | Fs _ => VBytes raw
  | _ => VInt (le_int raw)
  end.

Fixpoint unpack_fields (fmt : list fmt_code) (data : bytes) : list value :=
  match fmt with
  | [] => []
  | c :: fmt' =>
      unpack_field c (take (int_width c) data)
        :: unpack_fields fmt' (drop (int_width c) data)
  end.

(** [struct.unpack] requires a buffer of exactly [calcsize fmt] bytes. *)
Definition struct_unpack (fmt : list fmt_code) (data : bytes) : option (list value) :=
  if bool_decide (length data = calcsize fmt)
  then Some (unpack_fields fmt data)
  else None.

(** ** Global constants for sizes *)

Definition HEADER_SIZE : Z := 64.
Definition ENTRY_SIZE : Z := 64.
Definition DATA_ALIGNMENT : Z := 64.
Definition MAX_FILES : Z := 32.
Definition FILE_TABLE_OFFSET : Z := HEADER_SIZE.
Definition DATA_START_OFFSET : Z := HEADER_SIZE + MAX_FILES * ENTRY_SIZE.

(** ["<8s B B H H H H H I I I I H 26s"] *)
Definition HEADER_FORMAT : list fmt_code :=
  [Fs 8; FB; FB; FH; FH; FH; FH; FH; FI; FI; FI; FI; FH; Fs 26].

(** ["<32s I I B B H Q 12s"] *)
Definition FILE_ENTRY_FORMAT : list fmt_code :=
  [Fs 32; FI; FI; FB; FB; FH; FQ; Fs 12].

(** ** Header and FileEntry *)

Record Header := mkHeader {
  magic : bytes;
  version : Z;
  flags : Z;
  h_reserved0 : Z;
  file_count : Z;
  file_capacity : Z;
  file_entry_size : Z;
  h_reserved1 : Z;
  file_table_offset : Z;
  data_start_offset : Z;
  next_free_offset : Z;
  free_entry_offset : Z;
  deleted_files : Z;
  h_reserved2 : bytes
}.

(** [Header()] with the defaults of [__init__]. *)
Definition Header_default : Header :=
  {| magic := blit "ZVFSDSK1";
     version := 1;
     flags := 0;
     h_reserved0 := 0;
     file_count := 0;
     file_capacity := MAX_FILES;
     file_entry_size := ENTRY_SIZE;
     h_reserved1 := 0;
     file_table_offset := FILE_TABLE_OFFSET;
     data_start_offset := DATA_START_OFFSET;
     next_free_offset := DATA_START_OFFSET;
     free_entry_offset := FILE_TABLE_OFFSET;
     deleted_files := 0;
     h_reserved2 := zeros 26 |}.

Definition Header_values (h : Header) : list value :=
  [VBytes (magic h); VInt (version h); VInt (flags h); VInt (h_reserved0 h);
   VInt (file_count h); VInt (file_capacity h); VInt (file_entry_size h);
   VInt (h_reserved1 h); VInt (file_table_offset h);
   VInt (data_start_offset h); VInt (next_free_offset h);
   VInt (free_entry_offset h); VInt (deleted_files h);
   VBytes (h_reserved2 h)].

Definition Header_pack (h : Header) : option bytes :=
  struct_pack HEADER_FORMAT (Header_values h).

(** [cls( *unpacked )]: the tuple of [struct.unpack] as constructor arguments. *)
Definition Header_of_values (vs : list value) : option Header :=
  match vs with
  | [VBytes m; VInt v; VInt fl; VInt r0; VInt fc; VInt cap; VInt es; VInt r1;
     VInt fto; VInt dso; VInt nfo; VInt feo; VInt del; VBytes r2] =>
      Some (mkHeader m v fl r0 fc cap es r1 fto dso nfo feo del r2)
  | _ => None
  end.

Definition Header_unpack (data : bytes) : option Header :=
  struct_unpack HEADER_FORMAT data ≫= Header_of_values.

Record FileEntry := mkFileEntry {
  name : bytes;
  start : Z;
  length_ : Z;
  type_ : Z;
  flag : Z;
  e_reserved0 : Z;
  created : Z;
  e_reserved1 : bytes
}.

(** [FileEntry()] with the defaults of [__init__]. *)
Definition FileEntry_default : FileEntry :=
  {| name := zeros 32;
     start := 0;
     length_ := 0;
     type_ := 0;
     flag := 0;
     e_reserved0 := 0;
     created := 0;
     e_reserved1 := zeros 12 |}.

Definition FileEntry_values (e : FileEntry) : list value :=
  [VBytes (name e); VInt (start e); VInt (length_ e); VInt (type_ e);
   VInt (flag e); VInt (e_reserved0 e); VInt (created e);
   VBytes (e_reserved1 e)].

Definition FileEntry_pack (e : FileEntry) : option bytes :=
  struct_pack FILE_ENTRY_FORMAT (FileEntry_values e).

Definition FileEntry_of_values (vs : list value) : option FileEntry :=
  match vs with
  | [VBytes n; VInt s; VInt l; VInt t; VInt f; VInt r0; VInt c; VBytes r1] =>
      Some (mkFileEntry n s l t f r0 c r1)
  | _ => None
  end.

Definition FileEntry_unpack (raw : bytes) : option FileEntry :=
  struct_unpack FILE_ENTRY_FORMAT raw ≫= FileEntry_of_values.

(** [is_empty]: the name is 32 zero bytes. *)
Definition is_empty (e : FileEntry) : bool :=
  bool_decide (name e = zeros 32).

(** ** UTF-8, as [str.encode("utf-8")] and [bytes.decode("utf-8")] *)

(** One code point; [None] is [UnicodeEncodeError] (a surrogate). *)
Definition utf8_char (c : N) : option bytes :=
  let b (n : N) := byte_of_Z (Z.of_N n) in
  if (c <? 0x80)%N then Some [b c]
  else if (c <? 0x800)%N then
    Some [b (0xC0 + c / 0x40)%N; b (0x80 + c mod 0x40)%N]
  else if (c <? 0x10000)%N then
    if ((0xD800 <=? c) && (c <=? 0xDFFF))%N then None
    else Some [b (0xE0 + c / 0x1000)%N; b (0x80 + (c / 0x40) mod 0x40)%N;
               b (0x80 + c mod 0x40)%N]
  else if (c <? 0x110000)%N then
    Some [b (0xF0 + c / 0x40000)%N; b (0x80 + (c / 0x1000) mod 0x40)%N;
          b (0x80 + (c / 0x40) mod 0x40)%N; b (0x80 + c mod 0x40)%N]
  else None.

Fixpoint str_encode (s : pystr) : option bytes :=
  match s with
  | [] => Some []
  | c :: s' =>
      match utf8_char c, str_encode s' with
      | Some b, Some bs => Some (b ++ bs)
      | _, _ => None
      end
  end.

Definition in_range (lo hi : N) (b : byte) : bool :=
  ((lo <=? Byte.to_N b) && (Byte.to_N b <=? hi))%N.

Definition low6 (b : byte) : N := (Byte.to_N b mod 0x40)%N.

(** The strict decoder; [None] is [UnicodeDecodeError]. *)
Fixpoint bytes_decode (bs : bytes) : option pystr :=
  match bs with
  | [] => Some []
  | b0 :: r0 =>
      let n0 := Byte.to_N b0 in
      if (n0 <? 0x80)%N then cons n0 <$> bytes_decode r0
      else if (n0 <? 0xC2)%N then None
      else if (n0 <? 0xE0)%N then
        match r0 with
        | b1 :: r1 =>
            if in_range 0x80 0xBF b1
            then cons ((n0 - 0xC0) * 0x40 + low6 b1)%N <$> bytes_decode r1
            else None
        | _ => None
        end
      else if (n0 <? 0xF0)%N then
        match r0 with
        | b1 :: b2 :: r2 =>
            let lo := if (n0 =? 0xE0)%N then 0xA0%N else 0x80%N in
            let hi := if (n0 =? 0xED)%N then 0x9F%N else 0xBF%N in
            if in_range lo hi b1 && in_range 0x80 0xBF b2
            then cons ((n0 - 0xE0) * 0x1000 + low6 b1 * 0x40 + low6 b2)%N
                   <$> bytes_decode r2
            else None
        | _ => None
        end
      else if (n0 <? 0xF5)%N then
        match r0 with
        | b1 :: b2 :: b3 :: r3 =>
            let lo := if (n0 =? 0xF0)%N then 0x90%N else 0x80%N in
            let hi := if (n0 =? 0xF4)%N then 0x8F%N else 0xBF%N in
            if in_range lo hi b1 && in_range 0x80 0xBF b2
               && in_range 0x80 0xBF b3
            then cons ((n0 - 0xF0) * 0x40000 + low6 b1 * 0x1000
                       + low6 b2 * 0x40 + low6 b3)%N <$> bytes_decode r3
            else None
        | _ => None
        end
      else None
  end.

(** ** Exceptions *)

(** The [assert] statements of the source, by what they check. *)
Inductive assertion :=
| fs_does_not_exist       (* "File system ... does not exist" *)
| file_does_not_exist     (* "The file ... does not exist." *)
| not_in_filesystem       (* compare_filenames: no entry has the name *)
| name_too_long           (* addfs: more than 31 encoded bytes *)
| bad_response            (* mkfs: neither OVERWRITE nor ABORT *)
| no_files.               (* lsfs *)

Inductive exit_reason :=
| mkfs_aborted
| already_in_filesystem.

Inductive exn :=
| AssertionError (a : assertion)
| ValueError                     (* encode_filename: more than 31 characters *)
| SystemExit (r : exit_reason)
| TypeError                      (* None * ENTRY_SIZE *)
| struct_error
| UnicodeEncodeError
| UnicodeDecodeError
| FileNotFoundError
| IndexError
| OSError
| EOFError.

Inductive outcome (A : Type) :=
| Ret (a : A)
| Raise (e : exn).
Arguments Ret {A} a.
Arguments Raise {A} e.

(** ** The host: files, the open container handle, console, clock *)

Record world := mkWorld {
  files : gmap pystr bytes;   (* host files by path *)
  cursor : nat;               (* position of the open container handle *)
  stdin : list pystr;         (* lines that input() will return *)
  stdout : list pystr;        (* what was written to standard output *)
  clock : Z                   (* int(time.time()) *)
}.

Definition set_files (fs : gmap pystr bytes) (w : world) : world :=
  mkWorld fs (cursor w) (stdin w) (stdout w) (clock w).
Definition set_cursor (p : nat) (w : world) : world :=
  mkWorld (files w) p (stdin w) (stdout w) (clock w).
Definition set_stdin (l : list pystr) (w : world) : world :=
  mkWorld (files w) (cursor w) l (stdout w) (clock w).
Definition set_stdout (l : list pystr) (w : world) : world :=
  mkWorld (files w) (cursor w) (stdin w) l (clock w).

(** Effectful code: the world is threaded through, and what was written
    before an exception stays written. *)
Definition M (A : Type) : Type := world -> outcome A * world.

#[global] Instance M_ret : MRet M := fun A a w => (Ret a, w).
#[global] Instance M_bind : MBind M := fun A B f m w =>
  match m w with
  | (Ret a, w') => f a w'
  | (Raise e, w') => (Raise e, w')
  end.

Definition raise {A} (e : exn) : M A := fun w => (Raise e, w).

Definition lift {A} (o : outcome A) : M A := fun w => (o, w).

(** A [None] of the codec or of a decoder, raised as the given exception. *)
Definition lift_opt {A} (e : exn) (o : option A) : M A :=
  match o with
  | Some a => mret a
  | None => raise e
  end.

Definition assert_ (b : bool) (a : assertion) : M unit :=
  if b then mret tt else raise (AssertionError a).

(** [try: body except AssertionError: handler] *)
Definition except_AssertionError {A} (body handler : M A) : M A := fun w =>
  match body w with
  | (Raise (AssertionError _), w') => handler w'
  | r => r
  end.

(** Bytes of a file: [n] bytes from [pos], fewer at the end of the file;
    a negative [n] reads to the end. *)
Definition read_at (c : bytes) (pos : nat) (n : Z) : bytes :=
  if n <? 0 then drop pos c else take (Z.to_nat n) (drop pos c).

(** Writing [bs] at [pos]: overwrites, extends, and fills a gap after the
    end of the file with zero bytes; an empty write changes nothing. *)
Definition write_at (c : bytes) (pos : nat) (bs : bytes) : bytes :=
  match bs with
  | [] => c
  | _ => take pos c ++ replicate (pos - length c) x00 ++ bs
           ++ drop (pos + length bs) c
  end.

(** [Path(p).exists()] *)
Definition path_exists (p : pystr) : M bool := fun w =>
  (Ret (bool_decide (is_Some (files w !! p))), w).

(** [os.path.getsize(p)] *)
Definition getsize (p : pystr) : M Z := fun w =>
  match files w !! p with
  | Some c => (Ret (Z.of_nat (length c)), w)
  | None => (Raise FileNotFoundError, w)
  end.

(** [os.remove(p)] *)
Definition os_remove (p : pystr) : M unit := fun w =>
  match files w !! p with
  | Some _ => (Ret tt, set_files (delete p (files w)) w)
  | None => (Raise FileNotFoundError, w)
  end.

(** [f.seek(pos)] *)
Definition seek (pos : Z) : M unit := fun w =>
  if pos <? 0 then (Raise OSError, w)
  else (Ret tt, set_cursor (Z.to_nat pos) w).

(** [f.read(n)] on the handle of [f] *)
Definition fread (f : pystr) (n : Z) : M bytes := fun w =>
  match files w !! f with
  | Some c =>
      let data := read_at c (cursor w) n in
      (Ret data, set_cursor (cursor w + length data) w)
  | None => (Raise FileNotFoundError, w)
  end.

(** [f.write(bs)] on the handle of [f] *)
Definition fwrite (f : pystr) (bs : bytes) : M unit := fun w =>
  match files w !! f with
  | Some c =>
      (Ret tt, set_cursor (cursor w + length bs)
                 (set_files (<[f := write_at c (cursor w) bs]> (files w)) w))
  | None => (Raise FileNotFoundError, w)
  end.

(** [open(f, "rb")] and [open(f, "r+b")]: the file must exist. *)
Definition open_existing (f : pystr) : M unit := fun w =>
  match files w !! f with
  | Some _ => (Ret tt, set_cursor 0 w)
  | None => (Raise FileNotFoundError, w)
  end.

(** [open(f, "wb")]: created, or truncated to nothing. *)
Definition open_truncate (f : pystr) : M unit := fun w =>
  (Ret tt, set_cursor 0 (set_files (<[f := []]> (files w)) w)).

(** [with open(p, "rb") as file: file.read()]: the whole content, through
    a handle of its own. *)
Definition read_all (p : pystr) : M bytes := fun w =>
  match files w !! p with
  | Some c => (Ret c, w)
  | None => (Raise FileNotFoundError, w)
  end.

(** [with open(p, "wb") as out: ... out.write(data)]: the first write of a
    handle of its own, opened by [create_file]. *)
Definition create_file (p : pystr) : M unit := fun w =>
  (Ret tt, set_files (<[p := []]> (files w)) w).

Definition write_first (p : pystr) (data : bytes) : M unit := fun w =>
  match files w !! p with
  | Some c => (Ret tt, set_files (<[p := write_at c 0 data]> (files w)) w)
  | None => (Raise FileNotFoundError, w)
  end.

(** [print(s)] *)
Definition print (s : pystr) : M unit := fun w =>
  (Ret tt, set_stdout (stdout w ++ [s ++ [10%N]]) w).

(** [input(prompt)] *)
Definition input (prompt : pystr) : M pystr := fun w =>
  let w' := set_stdout (stdout w ++ [prompt]) w in
  match stdin w' with
  | l :: rest => (Ret l, set_stdin rest w')
  | [] => (Raise EOFError, w')
  end.

(** [int(time.time())] *)
Definition time_now : M Z := fun w => (Ret (clock w), w).

(** [str(n)] for an [int]. *)
Definition str_of_int (z : Z) : pystr := str (pretty z).

(** ** Reading and writing the header and the entries *)

(** [Header.read_header(file)] *)
Definition read_header (f : pystr) : M Header :=
  seek 0;;
  raw ← fread f HEADER_SIZE;
  lift_opt struct_error (Header_unpack raw).

(** [Header.write_header(header_instance, file)] *)
Definition write_header (h : Header) (f : pystr) : M unit :=
  seek 0;;
  packed ← lift_opt struct_error (Header_pack h);
  fwrite f packed.

(** The loop of [read_entries]: [n] more entries from the cursor. *)
Fixpoint read_entries_loop (f : pystr) (n : nat) : M (list FileEntry) :=
  match n with
  | O => mret []
  | S n' =>
      raw ← fread f ENTRY_SIZE;
      entry ← lift_opt struct_error (FileEntry_unpack raw);
      entries ← read_entries_loop f n';
      mret (entry :: entries)
  end.

(** [FileEntry.read_entries(file)] *)
Definition read_entries (f : pystr) : M (list FileEntry) :=
  seek FILE_TABLE_OFFSET;;
  read_entries_loop f (Z.to_nat MAX_FILES).

(** [FileEntry.write_entry(entry_instance, file, position)] *)
Definition write_entry (e : FileEntry) (f : pystr) (position : Z) : M unit :=
  seek position;;
  packed ← lift_opt struct_error (FileEntry_pack e);
  fwrite f packed.

(** ** FileSystem *)

(** [FileSystem.encode_filename(file)]: the check is on the number of
    characters; a longer encoding is returned without padding. *)
Definition encode_filename (file : pystr) : outcome bytes :=
  if bool_decide (31 < Z.of_nat (length file)) then Raise ValueError
  else
    match str_encode file with
    | None => Raise UnicodeEncodeError
    | Some encoded_file =>
        Ret (encoded_file ++ zeros (32 - Z.of_nat (length encoded_file)))
    end.

(** [FileSystem.compare_filenames(file_entries, filename)]: the index of the
    first entry with that name. *)
Definition compare_filenames (file_entries : list FileEntry) (filename : bytes)
  : outcome Z :=
  match list_find (fun entry => name entry = filename) file_entries with
  | Some (idx, _) => Ret (Z.of_nat idx)
  | None => Raise (AssertionError not_in_filesystem)
  end.

(** [entries[i]] *)
Definition index (entries : list FileEntry) (i : Z) : outcome FileEntry :=
  match entries !! Z.to_nat i with
  | Some e => Ret e
  | None => Raise IndexError
  end.

(** [n] times [f.write(b)] *)
Fixpoint write_times (f : pystr) (n : nat) (b : bytes) : M unit :=
  match n with
  | O => mret tt
  | S n' => fwrite f b;; write_times f n' b
  end.

Definition OVERWRITE : pystr := str "OVERWRITE".
Definition ABORT : pystr := str "ABORT".

(** [mkfs]; the path is printed as it was given. *)
Definition mkfs (fs_path : pystr) : M unit :=
  ex ← path_exists fs_path;
  (if ex : bool then
     next_step ← input (str "The file system " ++ fs_path
       ++ str " already exists, do you wish to abort the action or overwrite the file system. Please write 'OVERWRITE' or 'ABORT': ");
     assert_ (bool_decide (next_step ∈ [OVERWRITE; ABORT])) bad_response;;
     if bool_decide (next_step = ABORT)
     then raise (SystemExit mkfs_aborted)
     else os_remove fs_path
   else mret tt);;
  open_truncate fs_path;;
  packed ← lift_opt struct_error (Header_pack Header_default);
  fwrite fs_path packed;;
  entry ← lift_opt struct_error (FileEntry_pack FileEntry_default);
  write_times fs_path (Z.to_nat MAX_FILES) entry;;
  print (str "File system " ++ fs_path ++ str " was created").

(** [gifs] *)
Definition gifs (fs_path : pystr) : M unit :=
  ex ← path_exists fs_path;
  assert_ ex fs_does_not_exist;;
  open_existing fs_path;;
  header_fs ← read_header fs_path;
  let files_ := file_count header_fs in
  let deleted_files_ := deleted_files header_fs in
  let free_entries := file_capacity header_fs - files_ - deleted_files_ in
  fs_size ← getsize fs_path;
  print (str "File System: " ++ fs_path
         ++ [44%N; 10%N] ++ str "Non-deleted files: " ++ str_of_int files_
         ++ [44%N; 10%N] ++ str "Free entries: " ++ str_of_int free_entries
         ++ [44%N; 10%N] ++ str "Deleted files:" ++ str_of_int deleted_files_
         ++ [44%N; 10%N] ++ str "Total system size: " ++ str_of_int fs_size
         ++ str " bytes").

(** The padded size of a payload of [n] bytes. *)
Definition padded_size (n : Z) : Z :=
  (n + (DATA_ALIGNMENT - 1)) / DATA_ALIGNMENT * DATA_ALIGNMENT.

(** [addfs] *)
Definition addfs (fs_path new_file : pystr) : M unit :=
  ex ← path_exists fs_path;
  assert_ ex fs_does_not_exist;;
  ex' ← path_exists new_file;
  assert_ ex' file_does_not_exist;;
  open_existing fs_path;;
  header_fs ← read_header fs_path;
  entries ← read_entries fs_path;
  let free_position := fst <$> list_find (fun entry => is_empty entry) entries in
  filename ← lift (encode_filename new_file);
  except_AssertionError
    (_ ← lift (compare_filenames entries filename);
     raise (SystemExit already_in_filesystem))
    (mret tt);;
  file_content ← read_all new_file;
  let file_size := Z.of_nat (length file_content) in
  name_encoded ← lift_opt UnicodeEncodeError (str_encode new_file);
  assert_ (bool_decide (Z.of_nat (length name_encoded) <= 31)) name_too_long;;
  let name_encoded :=
    name_encoded ++ zeros (32 - Z.of_nat (length name_encoded)) in
  let current_data_offset := next_free_offset header_fs in
  let padded := padded_size file_size in
  let padding_size := if padded >? file_size then padded - file_size else 0 in
  seek current_data_offset;;
  fwrite fs_path file_content;;
  fwrite fs_path (zeros padding_size);;
  now ← time_now;
  let new_entry :=
    {| name := name_encoded;
       start := current_data_offset;
       length_ := file_size;
       type_ := 0;
       flag := 0;
       e_reserved0 := 0;
       created := now;
       e_reserved1 := zeros 12 |} in
  free_position ← lift_opt TypeError free_position;
  let entry_offset := FILE_TABLE_OFFSET + Z.of_nat free_position * ENTRY_SIZE in
  write_entry new_entry fs_path entry_offset;;
  let header_fs' :=
    mkHeader (magic header_fs) (version header_fs) (flags header_fs)
      (h_reserved0 header_fs) (file_count header_fs + 1)
      (file_capacity header_fs) (file_entry_size header_fs)
      (h_reserved1 header_fs) (file_table_offset header_fs)
      (data_start_offset header_fs) (current_data_offset + padded)
      (free_entry_offset header_fs) (deleted_files header_fs)
      (h_reserved2 header_fs) in
  write_header header_fs' fs_path;;
  print (str "File " ++ new_file ++ str " was added to the file system "
         ++ fs_path).

(** [getfs] *)
Definition getfs (fs_path extraction_file : pystr) : M unit :=
  ex ← path_exists fs_path;
  assert_ ex fs_does_not_exist;;
  filename ← lift (encode_filename extraction_file);
  open_existing fs_path;;
  entries ← read_entries fs_path;
  file_index ← lift (compare_filenames entries filename);
  entry ← lift (index entries file_index);
  ex' ← path_exists extraction_file;
  extraction_file' ←
    (if ex' : bool then
       next_step ← input (str "The file " ++ extraction_file
         ++ str " is already/still on your disk. If you wish to overwrite, then write 'OVERWRITE' or if you want to save it under a different name, then write the new filename with the correct file appendix (e.g. .txt). Write your answer here: ");
       mret (if bool_decide (next_step ≠ OVERWRITE) then next_step
             else extraction_file)
     else mret extraction_file);
  create_file extraction_file';;
  seek (start entry);;
  data ← fread fs_path (length_ entry);
  write_first extraction_file' data;;
  print (str "File " ++ extraction_file'
         ++ str " was retrieved from the file system " ++ fs_path
         ++ str " to the disk").

Definition set_flag (v : Z) (e : FileEntry) : FileEntry :=
  mkFileEntry (name e) (start e) (length_ e) (type_ e) v (e_reserved0 e)
    (created e) (e_reserved1 e).

Definition set_start (v : Z) (e : FileEntry) : FileEntry :=
  mkFileEntry (name e) v (length_ e) (type_ e) (flag e) (e_reserved0 e)
    (created e) (e_reserved1 e).

(** [rmfs] *)
Definition rmfs (fs_path remove_file : pystr) : M unit :=
  ex ← path_exists fs_path;
  assert_ ex fs_does_not_exist;;
  ex' ← path_exists remove_file;
  assert_ ex' file_does_not_exist;;
  filename ← lift (encode_filename remove_file);
  open_existing fs_path;;
  fs_header ← read_header fs_path;
  fs_entries ← read_entries fs_path;
  file_index ← lift (compare_filenames fs_entries filename);
  entry ← lift (index fs_entries file_index);
  let entry := set_flag 1 entry in
  let fs_header' :=
    mkHeader (magic fs_header) (version fs_header) (flags fs_header)
      (h_reserved0 fs_header) (file_count fs_header - 1)
      (file_capacity fs_header) (file_entry_size fs_header)
      (h_reserved1 fs_header) (file_table_offset fs_header)
      (data_start_offset fs_header) (next_free_offset fs_header)
      (free_entry_offset fs_header) (deleted_files fs_header + 1)
      (h_reserved2 fs_header) in
  let entry_start_position := FILE_TABLE_OFFSET + file_index * ENTRY_SIZE in
  write_entry entry fs_path entry_start_position;;
  write_header fs_header' fs_path;;
  print (str "File " ++ remove_file
         ++ str " was removed from the file system " ++ fs_path).

(** [catfs] *)
Definition catfs (fs_path file : pystr) : M unit :=
  ex ← path_exists fs_path;
  assert_ ex fs_does_not_exist;;
  filename ← lift (encode_filename file);
  open_existing fs_path;;
  fs_entries ← read_entries fs_path;
  file_index ← lift (compare_filenames fs_entries filename);
  entry ← lift (index fs_entries file_index);
  seek (start entry);;
  data ← fread fs_path (length_ entry);
  text ← lift_opt UnicodeDecodeError (bytes_decode data);
  print (str "Content of file " ++ file ++ str ": " ++ text).

(** The compaction loop of [dfrgfs] over [files_to_keep]: the entries with
    their new [start], and the final offset. *)
Fixpoint compact (f : pystr) (files_to_keep : list FileEntry)
    (current_data_offset : Z) : M (list FileEntry * Z) :=
  match files_to_keep with
  | [] => mret ([], current_data_offset)
  | entry :: rest =>
      seek (start entry);;
      data ← fread f (length_ entry);
      seek current_data_offset;;
      fwrite f data;;
      let padded := padded_size (length_ entry) in
      (if padded >? length_ entry
       then fwrite f (zeros (padded - length_ entry))
       else mret tt);;
      let entry' := set_start current_data_offset entry in
      r ← compact f rest (current_data_offset + padded);
      mret (entry' :: r.1, r.2)
  end.

(** [for entry in files_to_keep: f.write(entry.pack())] *)
Fixpoint write_entries (f : pystr) (es : list FileEntry) : M unit :=
  match es with
  | [] => mret tt
  | entry :: rest =>
      packed ← lift_opt struct_error (FileEntry_pack entry);
      fwrite f packed;;
      write_entries f rest
  end.

(** [dfrgfs] *)
Definition dfrgfs (fs_path : pystr) : M unit :=
  ex ← path_exists fs_path;
  assert_ ex fs_does_not_exist;;
  open_existing fs_path;;
  fs_header ← read_header fs_path;
  fs_entries ← read_entries fs_path;
  let files_to_keep :=
    filter (fun entry => is_empty entry = false ∧ flag entry = 0) fs_entries in
  let files_to_remove :=
    filter (fun entry => is_empty entry = false ∧ flag entry ≠ 0) fs_entries in
  let removed_count := Z.of_nat (length files_to_remove) in
  let removed_bytes := foldl (fun acc entry => acc + length_ entry) 0
                         files_to_remove in
  r ← compact fs_path files_to_keep DATA_START_OFFSET;
  let files_to_keep := r.1 in
  let current_data_offset := r.2 in
  seek FILE_TABLE_OFFSET;;
  write_entries fs_path files_to_keep;;
  empty ← lift_opt struct_error (FileEntry_pack FileEntry_default);
  write_times fs_path
    (Z.to_nat (MAX_FILES - Z.of_nat (length files_to_keep))) empty;;
  let fs_header' :=
    mkHeader (magic fs_header) (version fs_header) (flags fs_header)
      (h_reserved0 fs_header) (Z.of_nat (length files_to_keep))
      (file_capacity fs_header) (file_entry_size fs_header)
      (h_reserved1 fs_header) (file_table_offset fs_header)
      (data_start_offset fs_header) current_data_offset
      (FILE_TABLE_OFFSET + Z.of_nat (length files_to_keep) * ENTRY_SIZE)
      0 (h_reserved2 fs_header) in
  write_header fs_header' fs_path;;
  print (str "Defragmented file system: " ++ fs_path
         ++ [44%N; 10%N] ++ str "Removed file count: "
         ++ str_of_int removed_count
         ++ [44%N; 10%N] ++ str "Freed bytes: " ++ str_of_int removed_bytes).

(** ** Well-formed values of the two records *)

(** A value that [pack] stores without change: a byte string of the
    field's width, an integer of the field's unsigned range. *)
Definition fits (c : fmt_code) (v : value) : Prop :=
  match c, v with
  | Fs n, VBytes b => length b = n
  | Fs _, VInt _ => False
  | _, VInt z => 0 <= z < 2 ^ (8 * Z.of_nat (int_width c))
  | _, VBytes _ => False
  end.

Definition Header_fits (h : Header) : Prop :=
  Forall2 fits HEADER_FORMAT (Header_values h).

Definition FileEntry_fits (e : FileEntry) : Prop :=
  Forall2 fits FILE_ENTRY_FORMAT (FileEntry_values e).

(** ** The container as the operations see it *)

(** The header that [read_header] returns on a file with bytes [c]. *)
Definition header_of (c : bytes) : option Header :=
  Header_unpack (take 64 c).

(** The entries that the loop of [read_entries] returns from offset [pos]. *)
Fixpoint entries_from (c : bytes) (pos n : nat) : option (list FileEntry) :=
  match n with
  | O => Some []
  | S n' =>
      match FileEntry_unpack (take 64 (drop pos c)),
            entries_from c (pos + 64) n' with
      | Some e, Some es => Some (e :: es)
      | _, _ => None
      end
  end.

Definition entries_of (c : bytes) : option (list FileEntry) :=
  entries_from c 64 32.

(** ** A host and some containers to run the operations on *)

Definition img : pystr := str "img.zvfs".

(** A name of 31 characters and 31 bytes, and a name of 16 characters
    (U+00E9, two bytes each) and 32 bytes. *)
Definition name31 : pystr := str "abcdefghijklmnopqrstuvwxyz01234".
Definition name16 : pystr := replicate 16 233%N.

(** A host with six files and no container yet. *)
Definition host : world :=
  mkWorld (list_to_map [(str "a.txt", blit "hello");
                        (str "b.txt", replicate 70 "A"%byte);
                        (str "x", []);
                        (str "raw.bin", [xff; xfe]);
                        (name31, blit "31 bytes");
                        (name16, blit "32 bytes")])
          0 [] [] 1700000000.

(** The world after running the operations [ops] one after the other. *)
Definition after (ops : list (M unit)) (w : world) : world :=
  foldl (fun w op => (op w).2) w ops.

(** [True] when every operation of [ops], run in order, returns. *)
Fixpoint all_return (ops : list (M unit)) (w : world) : bool :=
  match ops with
  | [] => true
  | op :: ops' =>
      match op w with
      | (Ret _, w') => all_return ops' w'
      | (Raise _, _) => false
      end
  end.

(** The bytes of the container [img]. *)
Definition image (w : world) : bytes := default [] (files w !! img).

(** The header that [rmfs] builds from a header whose [file_count] is 0,
    and a header whose magic is shorter than its field. *)
Definition header_minus_one : Header :=
  mkHeader (blit "ZVFSDSK1") 1 0 0 (-1) 32 64 0 64 2112 2112 64 1 (zeros 26).

Definition header_short_magic : Header :=
  mkHeader (blit "ZV") 1 0 0 0 32 64 0 64 2112 2112 64 0 (zeros 26).

(** A container of 2112 bytes whose header has another magic and version. *)
Definition foreign_image : bytes :=
  blit "NOTAZVFS" ++ [x09] ++ zeros 2103.

Definition foreign_host : world :=
  mkWorld {[ img := foreign_image ]} 0 [] [] 1700000000.

(** A container that stores [a.txt] on a host that no longer has it. *)
Definition lost_host : world :=
  Eval vm_compute in
    let w := after [mkfs img; addfs img (str "a.txt")] host in
    set_files (delete (str "a.txt") (files w)) w.

(** A container that stores the empty file [x]. *)
Definition empty_file_host : world :=
  Eval vm_compute in after [mkfs img; addfs img (str "x")] host.

(** A fresh container on the host. *)
Definition fresh_host : world := Eval vm_compute in after [mkfs img] host.

(** ** What the claims speak of *)

(** The errors that stand for the kind [NameTooLong]: the [ValueError] of
    [encode_filename] and the assertion of [addfs]. *)
Definition is_NameTooLong (e : exn) : bool :=
  match e with
  | ValueError => true
  | AssertionError name_too_long => true
  | _ => false
  end.

(** The name field of a file name whose encoding is [b]. *)
Definition padded_name (b : bytes) : bytes :=
  b ++ zeros (32 - Z.of_nat (length b)).

(** The zero bytes that follow a payload of [n] bytes. *)
Definition padding_of (n : Z) : bytes :=
  zeros (if padded_size n >? n then padded_size n - n else 0).

(** The entry that [addfs] builds, and the header that it writes back. *)
Definition added_entry (h : Header) (b p : bytes) (now : Z) : FileEntry :=
  mkFileEntry (padded_name b) (next_free_offset h) (Z.of_nat (length p))
    0 0 0 now (zeros 12).

Definition added_header (h : Header) (p : bytes) : Header :=
  mkHeader (magic h) (version h) (flags h) (h_reserved0 h) (file_count h + 1)
    (file_capacity h) (file_entry_size h) (h_reserved1 h)
    (file_table_offset h) (data_start_offset h)
    (next_free_offset h + padded_size (Z.of_nat (length p)))
    (free_entry_offset h) (deleted_files h) (h_reserved2 h).

(** The bytes of the container after the two writes of the payload. *)
Definition with_payload (c : bytes) (h : Header) (p : bytes) : bytes :=
  write_at (write_at c (Z.to_nat (next_free_offset h)) p)
    (Z.to_nat (next_free_offset h) + length p)
    (padding_of (Z.of_nat (length p))).

(** What [addfs] needs beyond the name: the updated fields must fit. *)
Definition addfs_fits (h : Header) (p : bytes) (now : Z) : Prop :=
  file_count h + 1 < 2 ^ 16
  /\ next_free_offset h + padded_size (Z.of_nat (length p)) < 2 ^ 32
  /\ Z.of_nat (length p) < 2 ^ 32
  /\ 0 <= now < 2 ^ 64.

(** The header that [rmfs] writes back. *)
Definition removed_header (h : Header) : Header :=
  mkHeader (magic h) (version h) (flags h) (h_reserved0 h) (file_count h - 1)
    (file_capacity h) (file_entry_size h) (h_reserved1 h)
    (file_table_offset h) (data_start_offset h) (next_free_offset h)
    (free_entry_offset h) (deleted_files h + 1) (h_reserved2 h).

(** Live and flagged entries, as [lsfs] and the spec count them. *)
Definition live (e : FileEntry) : bool :=
  negb (is_empty e) && bool_decide (flag e = 0).

Definition flagged (e : FileEntry) : bool :=
  negb (is_empty e) && bool_decide (flag e = 1).

Definition count (P : FileEntry -> bool) (es : list FileEntry) : Z :=
  Z.of_nat (length (filter (fun e => P e = true) es)).

(** The names [f0] .. [f32], each a host file of one byte, and a container
    whose 32 slots hold [f0] .. [f31]. *)
Definition many_names : list pystr :=
  map (fun k => str "f" ++ str_of_int (Z.of_nat k)) (seq 0 33).

Definition full_host : world :=
  Eval vm_compute in
    after (mkfs img :: map (addfs img) (take 32 many_names))
      (mkWorld (list_to_map (map (fun n => (n, ["A"%byte])) many_names))
         0 [] [] 1700000000).

(** A container in which [a.txt] is soft-deleted and [b.txt] is live. *)
Definition removed_host : world :=
  Eval vm_compute in
    after [mkfs img; addfs img (str "a.txt"); addfs img (str "b.txt");
           rmfs img (str "a.txt")] host.

(** The bytes that [getfs] and [catfs] read for the entry [e]. *)
Definition payload (c : bytes) (e : FileEntry) : bytes :=
  read_at c (Z.to_nat (start e)) (length_ e).

(** Where [getfs] writes: the name itself, or the answer to the prompt when
    a host file of that name exists and the answer is not [OVERWRITE]. *)
Definition destination (extraction_file answer : pystr) : pystr :=
  if bool_decide (answer ≠ OVERWRITE) then answer else extraction_file.

Definition getfs_prompt (extraction_file : pystr) : pystr :=
  str "The file " ++ extraction_file
  ++ str " is already/still on your disk. If you wish to overwrite, then write 'OVERWRITE' or if you want to save it under a different name, then write the new filename with the correct file appendix (e.g. .txt). Write your answer here: ".

Definition getfs_message (fs_path dest : pystr) : pystr :=
  (str "File " ++ dest ++ str " was retrieved from the file system "
   ++ fs_path ++ str " to the disk") ++ [10%N].

(** ** Defragment, on the bytes *)

(** The entries that [dfrgfs] keeps: not empty, flag 0, in table order. *)
Definition kept (es : list FileEntry) : list FileEntry :=
  filter (fun entry => is_empty entry = false ∧ flag entry = 0) es.

(** The bytes, the moved entries and the final offset after the compaction
    loop of [dfrgfs] over [keep], from the bytes [c] and the offset [cur]. *)
Fixpoint compact_bytes (c : bytes) (keep : list FileEntry) (cur : Z)
  : bytes * list FileEntry * Z :=
  match keep with
  | [] => (c, [], cur)
  | entry :: rest =>
      let data := read_at c (Z.to_nat (start entry)) (length_ entry) in
      let c1 := write_at c (Z.to_nat cur) data in
      let padded := padded_size (length_ entry) in
      let c2 := if padded >? length_ entry
                then write_at c1 (Z.to_nat cur + length data)
                       (zeros (padded - length_ entry))
                else c1 in
      let r := compact_bytes c2 rest (cur + padded) in
      (r.1.1, set_start cur entry :: r.1.2, r.2)
  end.

(** The header that [dfrgfs] writes back. *)
Definition defragmented_header (h : Header) (n : nat) (cur : Z) : Header :=
  mkHeader (magic h) (version h) (flags h) (h_reserved0 h) (Z.of_nat n)
    (file_capacity h) (file_entry_size h) (h_reserved1 h)
    (file_table_offset h) (data_start_offset h) cur
    (FILE_TABLE_OFFSET + Z.of_nat n * ENTRY_SIZE) 0 (h_reserved2 h).

(** The payloads of [keep] lie in this order from [cur] on, each with room
    for its padding, and end at or before [limit]. *)
Fixpoint laid_out (cur : Z) (keep : list FileEntry) (limit : Z) : Prop :=
  match keep with
  | [] => cur <= limit
  | entry :: rest =>
      cur <= start entry
      /\ laid_out (start entry + padded_size (length_ entry)) rest limit
  end.

(** A container on which [dfrgfs] is safe: the live payloads lie in table
    order between the start of the data region and [next_free_offset], the
    file reaches [next_free_offset], and no two non-empty entries share a
    name. *)
Definition well_formed (c : bytes) (h : Header) (es : list FileEntry) : Prop :=
  laid_out DATA_START_OFFSET (kept es) (next_free_offset h)
  /\ next_free_offset h <= Z.of_nat (length c)
  /\ NoDup (name <$> filter (fun entry => is_empty entry = false) es).

(** What [getfs] finds and reads for a 32-byte name. *)
Definition extract (c : bytes) (filename : bytes) : option bytes :=
  match entries_of c with
  | Some es =>
      match list_find (fun entry => name entry = filename) es with
      | Some (_, e) => Some (payload c e)
      | None => None
      end
  | None => None
  end.

(** The bytes that [write_entries] writes for the entries [es]. *)
Fixpoint pack_entries (es : list FileEntry) : option bytes :=
  match es with
  | [] => Some []
  | entry :: rest =>
      match FileEntry_pack entry, pack_entries rest with
      | Some a, Some b => Some (a ++ b)
      | _, _ => None
      end
  end.

(** The bytes of the container after [dfrgfs]: the compacted data, the
    table [tb] followed by [n] empty frames [eb0], and the header [hb]. *)
Definition defragmented (c : bytes) (es : list FileEntry)
    (tb eb0 hb : bytes) : bytes :=
  let r := compact_bytes c (kept es) DATA_START_OFFSET in
  write_at
    (write_at r.1.1 64
       (tb ++ concat (replicate (32 - length r.1.2) eb0)))
    0 hb.

Definition dfrgfs_message (fs_path : pystr) (es : list FileEntry) : pystr :=
  let files_to_remove :=
    filter (fun entry => is_empty entry = false ∧ flag entry ≠ 0) es in
  (str "Defragmented file system: " ++ fs_path
   ++ [44%N; 10%N] ++ str "Removed file count: "
   ++ str_of_int (Z.of_nat (length files_to_remove))
   ++ [44%N; 10%N] ++ str "Freed bytes: "
   ++ str_of_int (foldl (fun acc entry => acc + length_ entry) 0
                    files_to_remove)) ++ [10%N].

(** The bytes of a container that [mkfs] has just written. *)
Definition fresh_image : bytes :=
  default [] (Header_pack Header_default)
  ++ concat (replicate 32 (default [] (FileEntry_pack FileEntry_default))).

(** ** The containers that the operations produce *)

(** The table is a run [L] of non-empty entries followed by a run [R] of
    empty ones; the payloads of [L] lie in table order from the start of
    the data region to [next_free_offset], each with room for its padding;
    the names of [L] are distinct; the file reaches [next_free_offset]. *)
Definition consistent (c : bytes) : Prop :=
  exists h L R,
    header_of c = Some h /\ entries_of c = Some (L ++ R)
    /\ Forall (fun e => is_empty e = false) L
    /\ Forall (fun e => is_empty e = true) R
    /\ laid_out DATA_START_OFFSET L (next_free_offset h)
    /\ NoDup (name <$> L)
    /\ next_free_offset h <= Z.of_nat (length c).

(** The worlds in which the container [fs_path] was made by [mkfs] and then
    changed only by runs of [addfs], [rmfs] and [dfrgfs] that returned;
    between them the rest of the host may change in any way. *)
Inductive reachable (fs_path : pystr) : world -> Prop :=
| reachable_mkfs w w' :
    mkfs fs_path w = (Ret tt, w') -> reachable fs_path w'
| reachable_addfs w new_file w' :
    reachable fs_path w -> addfs fs_path new_file w = (Ret tt, w') ->
    reachable fs_path w'
| reachable_rmfs w remove_file w' :
    reachable fs_path w -> rmfs fs_path remove_file w = (Ret tt, w') ->
    reachable fs_path w'
| reachable_dfrgfs w w' :
    reachable fs_path w -> dfrgfs fs_path w = (Ret tt, w') ->
    reachable fs_path w'
| reachable_host w w' :
    reachable fs_path w -> files w' !! fs_path = files w !! fs_path ->
    reachable fs_path w'.

(** ** Listing, and the command line *)

(** What [mkfs] asks when the container exists, and what it prints at the
    end. *)
Definition mkfs_prompt (fs_path : pystr) : pystr :=
  str "The file system " ++ fs_path
  ++ str " already exists, do you wish to abort the action or overwrite the file system. Please write 'OVERWRITE' or 'ABORT': ".

Definition mkfs_message (fs_path : pystr) : pystr :=
  (str "File system " ++ fs_path ++ str " was created") ++ [10%N].

(** [b.split(b"\x00", 1)[0]]: the bytes before the first NUL byte, all of
    them when there is none. *)
Fixpoint before_nul (b : bytes) : bytes :=
  match b with
  | [] => []
  | x :: rest => if bool_decide (x = x00) then [] else x :: before_nul rest
  end.

(** [FileEntry.filename]; [None] is [UnicodeDecodeError]. *)
Definition FileEntry_filename (e : FileEntry) : option pystr :=
  bytes_decode (before_nul (name e)).

(** The block that [lsfs] prints for one entry. *)
Definition lsfs_block (file_name : pystr) (size : Z) (timestamp : pystr)
  : pystr :=
  str "File Name: " ++ file_name
  ++ [44%N; 10%N] ++ str "File Size: " ++ str_of_int size ++ str " bytes"
  ++ [44%N; 10%N] ++ str "Created: " ++ timestamp ++ [10%N].

(** The entries that [lsfs] lists: not empty, flag not 1, in table
    order. *)
Definition listed (es : list FileEntry) : list FileEntry :=
  filter (fun entry => is_empty entry = false /\ flag entry <> 1) es.

(** The bound methods that [main] collects, by the number of arguments
    they take besides [self]. *)
Inductive method :=
| no_argument (m : M unit)
| one_argument (m : pystr -> M unit).

(** How [main] ends: the command ran, and returned or raised; or [main]
    failed before any command ran: the assertion on the number of
    arguments, the [KeyError] of an unknown command, the [TypeError] of a
    method called with an argument too many or too few. *)
Inductive main_outcome :=
| ran (o : outcome unit)
| usage_AssertionError
| KeyError
| arity_TypeError.

Section listing.
(** [time.strftime("%Y-%m-%d %H:%M:%S", time.localtime(t))]: the text
    depends on the time zone of the host, and a time stamp outside the
    range of the platform raises. *)
Variable strftime_localtime : Z -> outcome pystr.

(** The loop of [lsfs] over the entries, with [found_entry]. *)
Fixpoint lsfs_loop (fs_entries : list FileEntry) (found_entry : bool)
  : M bool :=
  match fs_entries with
  | [] => mret found_entry
  | entry :: rest =>
      if is_empty entry || bool_decide (flag entry = 1)
      then lsfs_loop rest found_entry
      else
        file_name ← lift_opt UnicodeDecodeError (FileEntry_filename entry);
        let size := length_ entry in
        timestamp ← lift (strftime_localtime (created entry));
        print (lsfs_block file_name size timestamp);;
        lsfs_loop rest true
  end.

(** [lsfs] *)
Definition lsfs (fs_path : pystr) : M unit :=
  ex ← path_exists fs_path;
  assert_ ex fs_does_not_exist;;
  open_existing fs_path;;
  fs_entries ← read_entries fs_path;
  found_entry ← lsfs_loop fs_entries false;
  assert_ found_entry no_files.

(** The line that [lsfs] prints for one entry, when its name decodes and
    its time stamp can be formatted. *)
Definition lsfs_line (entry : FileEntry) : option pystr :=
  match FileEntry_filename entry, strftime_localtime (created entry) with
  | Some file_name, Ret timestamp =>
      Some (lsfs_block file_name (length_ entry) timestamp ++ [10%N])
  | _, _ => None
  end.

(** The dictionary of [main]. *)
Definition file_system_commands (fs_path : pystr) : gmap pystr method :=
  list_to_map
    [(str "mkfs", no_argument (mkfs fs_path));
     (str "gifs", no_argument (gifs fs_path));
     (str "addfs", one_argument (addfs fs_path));
     (str "getfs", one_argument (getfs fs_path));
     (str "rmfs", one_argument (rmfs fs_path));
     (str "lsfs", no_argument (lsfs fs_path));
     (str "dfrgfs", no_argument (dfrgfs fs_path));
     (str "catfs", one_argument (catfs fs_path))].

(** [main], on [sys.argv]. *)
Definition main (argv : list pystr) (w : world) : main_outcome * world :=
  if negb ((3 <=? length argv)%nat && (length argv <=? 4)%nat)
  then (usage_AssertionError, w)
  else
    match argv !! 1%nat, argv !! 2%nat with
    | Some command, Some fs_path =>
        match file_system_commands fs_path !! command with
        | None => (KeyError, w)
        | Some meth =>
            match drop 3 argv, meth with
            | [], no_argument m => let r := m w in (ran r.1, r.2)
            | file :: _, one_argument m => let r := m file w in (ran r.1, r.2)
            | _, _ => (arity_TypeError, w)
            end
        end
    | _, _ => (ran (Raise IndexError), w)
    end.
End listing.
(** ** What an action leaves alone *)

(** An action that changes neither the host files nor the pending input,
    whatever it returns or raises. *)
Definition quiet {A} (m : M A) : Prop :=
  forall w, files (m w).2 = files w /\ stdin (m w).2 = stdin w.

(** An action that changes no host file outside [paths], whatever it
    returns or raises. *)
Definition writes_only {A} (paths : list pystr) (m : M A) : Prop :=
  forall w p, p ∉ paths -> files (m w).2 !! p = files w !! p.
(** What [rmfs] and [catfs] print. *)
Definition rmfs_message (fs_path remove_file : pystr) : pystr :=
  (str "File " ++ remove_file ++ str " was removed from the file system "
   ++ fs_path) ++ [10%N].

Definition catfs_message (file text : pystr) : pystr :=
  (str "Content of file " ++ file ++ str ": " ++ text) ++ [10%N].
(** What [gifs] prints for the counts of a header and the size of the
    file. *)
Definition gifs_message (fs_path : pystr)
    (files_ free_entries deleted_files_ fs_size : Z) : pystr :=
  (str "File System: " ++ fs_path
   ++ [44%N; 10%N] ++ str "Non-deleted files: " ++ str_of_int files_
   ++ [44%N; 10%N] ++ str "Free entries: " ++ str_of_int free_entries
   ++ [44%N; 10%N] ++ str "Deleted files:" ++ str_of_int deleted_files_
   ++ [44%N; 10%N] ++ str "Total system size: " ++ str_of_int fs_size
   ++ str " bytes") ++ [10%N].

(** The fields of the header that [mkfs] sets and no operation changes. *)
Definition fixed_fields (h : Header) : Prop :=
  magic h = blit "ZVFSDSK1" /\ version h = 1
  /\ file_capacity h = MAX_FILES /\ file_entry_size h = ENTRY_SIZE
  /\ file_table_offset h = FILE_TABLE_OFFSET
  /\ data_start_offset h = DATA_START_OFFSET.

(** The header counts what the table holds: live and deleted files
    together are the non-empty entries. *)
Definition accounted (h : Header) (es : list FileEntry) : Prop :=
  file_count h + deleted_files h = count (fun e => negb (is_empty e)) es.

(** Every payload starts in the data region at a multiple of the
    alignment, and so does the free space. *)
Definition aligned (h : Header) (es : list FileEntry) : Prop :=
  next_free_offset h mod DATA_ALIGNMENT = 0
  /\ Forall (fun e => is_empty e = false ->
                      DATA_START_OFFSET <= start e
                      /\ start e mod DATA_ALIGNMENT = 0) es.

(** A container whose header has the fixed fields, counts what the table
    holds, and whose payloads are aligned. *)
Definition tidy (c : bytes) : Prop :=
  exists h es,
    header_of c = Some h /\ entries_of c = Some es
    /\ fixed_fields h /\ accounted h es /\ aligned h es.
(** What [addfs] prints. *)
Definition addfs_message (fs_path new_file : pystr) : pystr :=
  (str "File " ++ new_file ++ str " was added to the file system "
   ++ fs_path) ++ [10%N].
(** An operation that fails with [e] and leaves the files, the pending
    input and the output of [w] as they are. *)
Definition refused_with (e : exn) (w : world) (r : outcome unit * world)
  : Prop :=
  r.1 = Raise e /\ files r.2 = files w /\ stdin r.2 = stdin w
  /\ stdout r.2 = stdout w.
(** The entries [moved] lie without gaps from [cur] on: each starts where
    the one before ends with its padding, lies whole in the file, and is
    followed by zero bytes up to its padded size. *)
Fixpoint packed_tight (c : bytes) (cur : Z) (moved : list FileEntry) : Prop :=
  match moved with
  | [] => True
  | x :: rest =>
      start x = cur /\ 0 <= length_ x
      /\ cur + padded_size (length_ x) <= Z.of_nat (length c)
      /\ take (Z.to_nat (padded_size (length_ x) - length_ x))
           (drop (Z.to_nat (cur + length_ x)) c)
         = zeros (padded_size (length_ x) - length_ x)
      /\ packed_tight c (cur + padded_size (length_ x)) rest
  end.
(** ** More sample containers *)

(** A container with the live file [a.txt], and one with the live files
    [a.txt] and [b.txt]. *)
Definition one_file_host : world :=
  Eval vm_compute in after [mkfs img; addfs img (str "a.txt")] host.

Definition stored_host : world :=
  Eval vm_compute in
    after [mkfs img; addfs img (str "a.txt"); addfs img (str "b.txt")] host.

(** A name of 17 characters (U+00E9, two bytes each) and 34 bytes. *)
Definition name17 : pystr := replicate 17 233%N.

(** A formatter of time stamps that prints the seconds. *)
Definition seconds (t : Z) : outcome pystr := Ret (str_of_int t).

(** A container whose table order is not the order on disk: slot 0 holds
    [a.txt], 64 bytes at offset 2176, and slot 1 holds [b.txt], 64 bytes
    at offset 2112; the header counts two live files and the free offset
    is the end of the file. *)
Definition unordered_image : bytes :=
  Eval vm_compute in
    default []
      (Header_pack
         (mkHeader (blit "ZVFSDSK1") 1 0 0 2 32 64 0 64 2112 2240 64 0
            (zeros 26)))
    ++ default []
         (FileEntry_pack
            (mkFileEntry (padded_name (blit "a.txt")) 2176 64 0 0 0
               1700000000 (zeros 12)))
    ++ default []
         (FileEntry_pack
            (mkFileEntry (padded_name (blit "b.txt")) 2112 64 0 0 0
               1700000000 (zeros 12)))
    ++ concat (replicate 30 (default [] (FileEntry_pack FileEntry_default)))
    ++ replicate 64 "B"%byte ++ replicate 64 "A"%byte.

Definition unordered_host : world :=
  mkWorld {[ img := unordered_image ]} 0 [] [] 1700000000.

(** * Properties *)

(** ** The codec *)

Lemma byte_to_Z_range b : 0 <= byte_to_Z b < 256.
Proof.
  unfold byte_to_Z. pose proof (Byte.to_N_bounded b). lia.
Qed.

Lemma byte_of_to_Z b k : byte_of_Z (byte_to_Z b + 256 * k) = b.
Proof.
  unfold byte_of_Z.
  replace ((byte_to_Z b + 256 * k) mod 256) with (byte_to_Z b).
  - unfold byte_to_Z. rewrite N2Z.id, Byte.of_to_N. reflexivity.
  - pose proof (byte_to_Z_range b).
    symmetry. rewrite (Z.mul_comm 256 k), Z_mod_plus_full.
    apply Z.mod_small. lia.
Qed.

Lemma byte_to_of_Z z : byte_to_Z (byte_of_Z z) = z mod 256.
Proof.
  unfold byte_of_Z, byte_to_Z.
  pose proof (Z.mod_pos_bound z 256 ltac:(lia)) as Hm.
  destruct (Byte.of_N (Z.to_N (z mod 256))) as [b|] eqn:E.
  - apply Byte.to_of_N in E. rewrite E. lia.
  - apply Byte.of_N_None_iff in E. lia.
Qed.

Lemma length_le_bytes w v : length (le_bytes w v) = w.
Proof. revert v. induction w as [|w IH]; intros v; simpl; [done|]. by rewrite IH. Qed.

Lemma le_int_range bs : 0 <= le_int bs < 2 ^ (8 * Z.of_nat (length bs)).
Proof.
  induction bs as [|b bs IH]; simpl length; simpl le_int.
  - simpl. lia.
  - pose proof (byte_to_Z_range b).
    replace (8 * Z.of_nat (S (length bs))) with (8 + 8 * Z.of_nat (length bs)) by lia.
    rewrite Z.pow_add_r by lia. change (2 ^ 8) with 256. lia.
Qed.

Lemma le_bytes_le_int bs : le_bytes (length bs) (le_int bs) = bs.
Proof.
  induction bs as [|b bs IH]; simpl; [done|].
  rewrite byte_of_to_Z. f_equal.
  pose proof (byte_to_Z_range b).
  replace ((byte_to_Z b + 256 * le_int bs) / 256) with (le_int bs); [done|].
  rewrite (Z.mul_comm 256), Z.div_add by lia.
  rewrite Z.div_small; lia.
Qed.

Lemma le_int_le_bytes w v :
  0 <= v < 2 ^ (8 * Z.of_nat w) -> le_int (le_bytes w v) = v.
Proof.
  revert v. induction w as [|w IH]; intros v Hv.
  - simpl in *. lia.
  - cbn [le_bytes le_int]. rewrite byte_to_of_Z, IH.
    + pose proof (Z.div_mod v 256 ltac:(lia)). lia.
    + replace (8 * Z.of_nat (S w)) with (8 + 8 * Z.of_nat w) in Hv by lia.
      rewrite Z.pow_add_r in Hv by lia. change (2 ^ 8) with 256 in Hv.
      split; [apply Z.div_pos; lia|].
      apply Z.div_lt_upper_bound; lia.
Qed.

Lemma pack_s_exact n b : length b = n -> pack_s n b = b.
Proof.
  intros <-. unfold pack_s.
  rewrite firstn_all, Nat.sub_diag. simpl. by rewrite app_nil_r.
Qed.

Lemma length_pack_s n b : length (pack_s n b) = n.
Proof.
  unfold pack_s. rewrite length_app, length_take, length_replicate. lia.
Qed.

(** A field that was unpacked from [int_width c] bytes packs to them. *)
Lemma pack_unpack_field c raw :
  length raw = int_width c -> pack_field c (unpack_field c raw) = Some raw.
Proof.
  intros Hlen.
  pose proof (le_int_range raw) as Hr. rewrite Hlen in Hr.
  pose proof (le_bytes_le_int raw) as E. rewrite Hlen in E.
  destruct c; cbn [pack_field unpack_field int_width] in *;
    [by rewrite pack_s_exact|..];
    rewrite bool_decide_true by done; by rewrite E.
Qed.

Lemma unpack_fields_fits fmt data :
  length data = calcsize fmt -> Forall2 fits fmt (unpack_fields fmt data).
Proof.
  revert data. induction fmt as [|c fmt IH]; intros data Hlen; simpl.
  - constructor.
  - simpl in Hlen. constructor.
    + assert (length (take (int_width c) data) = int_width c) as Hl
        by (rewrite length_take; lia).
      pose proof (le_int_range (take (int_width c) data)) as Hr.
      rewrite Hl in Hr. destruct c; simpl in *; done.
    + apply IH. rewrite length_drop. lia.
Qed.

Lemma struct_pack_unpack_fields fmt data :
  length data = calcsize fmt ->
  struct_pack fmt (unpack_fields fmt data) = Some data.
Proof.
  revert data. induction fmt as [|c fmt IH]; intros data Hlen; simpl in *.
  - by destruct data.
  - rewrite pack_unpack_field by (rewrite length_take; lia).
    rewrite IH by (rewrite length_drop; lia).
    by rewrite take_drop.
Qed.

(** [pack(unpack(b)) = b] at the level of the [struct] module. *)
Lemma struct_pack_unpack fmt data vs :
  struct_unpack fmt data = Some vs -> struct_pack fmt vs = Some data.
Proof.
  unfold struct_unpack. case_bool_decide; [|done].
  intros [= <-]. by apply struct_pack_unpack_fields.
Qed.

Lemma pack_field_fits c v :
  fits c v ->
  exists b, pack_field c v = Some b /\ length b = int_width c
            /\ unpack_field c b = v.
Proof.
  destruct c, v; cbn [fits pack_field unpack_field int_width];
    intros H; try (by destruct H).
  { exists b. by rewrite pack_s_exact. }
  all: rewrite bool_decide_true by done; eexists; split; [done|];
    (split; [apply length_le_bytes|]); f_equal;
    by apply le_int_le_bytes.
Qed.

(** [unpack(pack(vs)) = vs] for values that fit the format. *)
Lemma struct_unpack_pack fmt vs :
  Forall2 fits fmt vs ->
  exists data, struct_pack fmt vs = Some data
               /\ length data = calcsize fmt
               /\ unpack_fields fmt data = vs.
Proof.
  induction 1 as [|c v fmt vs Hcv _ (data & Hp & Hl & Hu)]; simpl.
  - by exists [].
  - destruct (pack_field_fits c v Hcv) as (b & Hb & Hbl & Hbu).
    exists (b ++ data). rewrite Hb, Hp. split; [done|].
    rewrite length_app, take_app_length', drop_app_length' by done.
    by rewrite Hbu, Hu, Hbl, Hl.
Qed.

Lemma struct_pack_length fmt vs data :
  struct_pack fmt vs = Some data -> length data = calcsize fmt.
Proof.
  revert vs data. induction fmt as [|c fmt IH]; intros [|v vs] data; simpl; try done.
  - by intros [= <-].
  - destruct (pack_field c v) as [b|] eqn:Hb; [|done].
    destruct (struct_pack fmt vs) as [bs|] eqn:Hbs; [|done].
    intros [= <-]. rewrite length_app, (IH _ _ Hbs). f_equal.
    destruct c, v; cbn [pack_field] in Hb; try done.
    all: try (injection Hb as <-; apply length_pack_s).
    all: case_bool_decide; [|done]; injection Hb as <-;
      first [apply length_le_bytes | reflexivity].
Qed.

Lemma Header_of_unpack_fields data :
  exists h, Header_of_values (unpack_fields HEADER_FORMAT data) = Some h
            /\ Header_values h = unpack_fields HEADER_FORMAT data.
Proof. eexists. split; reflexivity. Qed.

Lemma FileEntry_of_unpack_fields raw :
  exists e, FileEntry_of_values (unpack_fields FILE_ENTRY_FORMAT raw) = Some e
            /\ FileEntry_values e = unpack_fields FILE_ENTRY_FORMAT raw.
Proof. eexists. split; reflexivity. Qed.

Lemma Header_of_values_values h : Header_of_values (Header_values h) = Some h.
Proof. by destruct h. Qed.

Lemma FileEntry_of_values_values e :
  FileEntry_of_values (FileEntry_values e) = Some e.
Proof. by destruct e. Qed.

(** Every 64-byte frame unpacks, to a header whose fields fit the format. *)
Lemma Header_unpack_total data :
  length data = 64%nat ->
  exists h, Header_unpack data = Some h /\ Header_fits h.
Proof.
  intros Hlen. destruct (Header_of_unpack_fields data) as (h & Hh & Hv).
  exists h. unfold Header_unpack, struct_unpack, Header_fits.
  rewrite bool_decide_true by done. split; [exact Hh|].
  rewrite Hv. by apply unpack_fields_fits.
Qed.

Lemma FileEntry_unpack_total raw :
  length raw = 64%nat ->
  exists e, FileEntry_unpack raw = Some e /\ FileEntry_fits e.
Proof.
  intros Hlen. destruct (FileEntry_of_unpack_fields raw) as (e & He & Hv).
  exists e. unfold FileEntry_unpack, struct_unpack, FileEntry_fits.
  rewrite bool_decide_true by done. split; [exact He|].
  rewrite Hv. by apply unpack_fields_fits.
Qed.

Lemma Header_unpack_length data h :
  Header_unpack data = Some h -> length data = 64%nat.
Proof.
  unfold Header_unpack, struct_unpack. by case_bool_decide.
Qed.

Lemma FileEntry_unpack_length raw e :
  FileEntry_unpack raw = Some e -> length raw = 64%nat.
Proof.
  unfold FileEntry_unpack, struct_unpack. by case_bool_decide.
Qed.

Lemma Header_pack_unpack data h :
  Header_unpack data = Some h -> Header_pack h = Some data.
Proof.
  intros Hu. pose proof (Header_unpack_length _ _ Hu) as Hlen.
  destruct (Header_of_unpack_fields data) as (h' & Hh & Hv).
  unfold Header_unpack, struct_unpack in Hu.
  rewrite bool_decide_true in Hu by done.
  change (Header_of_values (unpack_fields HEADER_FORMAT data) = Some h) in Hu.
  rewrite Hh in Hu. injection Hu as <-.
  unfold Header_pack. rewrite Hv. by apply struct_pack_unpack_fields.
Qed.

Lemma FileEntry_pack_unpack raw e :
  FileEntry_unpack raw = Some e -> FileEntry_pack e = Some raw.
Proof.
  intros Hu. pose proof (FileEntry_unpack_length _ _ Hu) as Hlen.
  destruct (FileEntry_of_unpack_fields raw) as (e' & He & Hv).
  unfold FileEntry_unpack, struct_unpack in Hu.
  rewrite bool_decide_true in Hu by done.
  change (FileEntry_of_values (unpack_fields FILE_ENTRY_FORMAT raw) = Some e)
    in Hu.
  rewrite He in Hu. injection Hu as <-.
  unfold FileEntry_pack. rewrite Hv. by apply struct_pack_unpack_fields.
Qed.

Lemma Header_unpack_pack h :
  Header_fits h ->
  exists data, Header_pack h = Some data /\ length data = 64%nat
               /\ Header_unpack data = Some h.
Proof.
  intros Hf. destruct (struct_unpack_pack _ _ Hf) as (data & Hp & Hl & Hu).
  exists data. split; [exact Hp|]. split; [exact Hl|].
  unfold Header_unpack, struct_unpack. rewrite bool_decide_true by done.
  change (Header_of_values (unpack_fields HEADER_FORMAT data) = Some h).
  rewrite Hu. apply Header_of_values_values.
Qed.

Lemma FileEntry_unpack_pack e :
  FileEntry_fits e ->
  exists raw, FileEntry_pack e = Some raw /\ length raw = 64%nat
              /\ FileEntry_unpack raw = Some e.
Proof.
  intros Hf. destruct (struct_unpack_pack _ _ Hf) as (raw & Hp & Hl & Hu).
  exists raw. split; [exact Hp|]. split; [exact Hl|].
  unfold FileEntry_unpack, struct_unpack. rewrite bool_decide_true by done.
  change (FileEntry_of_values (unpack_fields FILE_ENTRY_FORMAT raw) = Some e).
  rewrite Hu. apply FileEntry_of_values_values.
Qed.

Lemma Header_pack_length h data :
  Header_pack h = Some data -> length data = 64%nat.
Proof. apply struct_pack_length. Qed.

Lemma FileEntry_pack_length e raw :
  FileEntry_pack e = Some raw -> length raw = 64%nat.
Proof. apply struct_pack_length. Qed.

(** ** Bytes of a file under [write_at] *)

Section file_bytes.
Local Open Scope nat_scope.
Implicit Types (c bs : bytes) (pos p k i : nat).

Lemma write_at_nil c pos : write_at c pos [] = c.
Proof. done. Qed.

Lemma lookup_write_at c pos bs i :
  bs ≠ [] ->
  write_at c pos bs !! i =
    if decide (i < pos)
    then (if decide (i < length c) then c !! i else Some x00)
    else if decide (i < pos + length bs) then bs !! (i - pos) else c !! i.
Proof.
  intros Hne. unfold write_at. destruct bs as [|b bs']; [done|].
  set (bs := b :: bs') in *. clearbody bs.
  assert (length (take pos c) = min pos (length c)) as Ht by apply length_take.
  destruct (decide (i < pos)) as [Hi|Hi].
  - destruct (decide (i < length c)) as [Hc|Hc].
    + rewrite lookup_app_l by lia. by rewrite lookup_take_lt.
    + rewrite lookup_app_r by lia.
      rewrite lookup_app_l by (rewrite length_replicate; lia).
      apply lookup_replicate_2. lia.
  - rewrite lookup_app_r by lia.
    rewrite lookup_app_r by (rewrite length_replicate; lia).
    rewrite length_replicate.
    replace (i - length (take pos c) - (pos - length c)) with (i - pos) by lia.
    destruct (decide (i < pos + length bs)) as [Hb|Hb].
    + rewrite lookup_app_l by lia. done.
    + rewrite lookup_app_r by lia. rewrite lookup_drop. f_equal. lia.
Qed.

Lemma length_write_at c pos bs :
  bs ≠ [] -> length (write_at c pos bs) = max (length c) (pos + length bs).
Proof.
  intros Hne. unfold write_at. destruct bs as [|b bs']; [done|].
  rewrite !length_app, length_take, length_replicate, length_drop. lia.
Qed.

Lemma length_write_at_le c pos bs : length c ≤ length (write_at c pos bs).
Proof.
  destruct bs as [|b bs']; [done|]. rewrite length_write_at by done. lia.
Qed.

Lemma length_write_at_inside c pos bs :
  pos + length bs ≤ length c -> length (write_at c pos bs) = length c.
Proof.
  intros H. destruct bs as [|b bs']; [done|]. rewrite length_write_at by done. lia.
Qed.

(** What is read back where it was written. *)
Lemma slice_write_at_same c pos bs :
  take (length bs) (drop pos (write_at c pos bs)) = bs.
Proof.
  destruct bs as [|b bs']; [done|]. set (bs := b :: bs').
  apply list_eq. intros i.
  destruct (decide (i < length bs)) as [Hi|Hi].
  - rewrite lookup_take_lt, lookup_drop, lookup_write_at by done.
    rewrite decide_False, decide_True by lia. f_equal. lia.
  - rewrite lookup_take_ge by lia. symmetry. apply lookup_ge_None. lia.
Qed.

(** A write leaves what lies before it, within the file, as it was. *)
Lemma slice_write_at_before c pos bs p k :
  p + k ≤ pos -> p + k ≤ length c ->
  take k (drop p (write_at c pos bs)) = take k (drop p c).
Proof.
  intros H1 H2. destruct bs as [|b bs']; [done|]. set (bs := b :: bs').
  apply list_eq. intros i.
  destruct (decide (i < k)) as [Hi|Hi].
  - rewrite !lookup_take_lt, !lookup_drop, lookup_write_at by done.
    by rewrite !decide_True by lia.
  - by rewrite !lookup_take_ge by lia.
Qed.

(** A write leaves what lies after it as it was. *)
Lemma drop_write_at_after c pos bs p :
  pos + length bs ≤ p -> drop p (write_at c pos bs) = drop p c.
Proof.
  intros H1. destruct bs as [|b bs']; [done|]. set (bs := b :: bs') in *.
  apply list_eq. intros i.
  rewrite !lookup_drop, lookup_write_at by done.
  by rewrite !decide_False by lia.
Qed.

Lemma slice_write_at_after c pos bs p k :
  pos + length bs ≤ p ->
  take k (drop p (write_at c pos bs)) = take k (drop p c).
Proof. intros H. by rewrite drop_write_at_after. Qed.

Lemma take_write_at_before c pos bs k :
  k ≤ pos -> k ≤ length c -> take k (write_at c pos bs) = take k c.
Proof.
  intros. rewrite <- (drop_0 (write_at c pos bs)), <- (drop_0 c) at 1.
  rewrite <- (drop_0 c). by apply slice_write_at_before.
Qed.

(** Writing back what is there changes nothing. *)
Lemma write_at_same c pos bs :
  take (length bs) (drop pos c) = bs -> write_at c pos bs = c.
Proof.
  intros H. destruct bs as [|b bs']; [done|]. set (bs := b :: bs') in *.
  assert (pos + length bs ≤ length c) as Hle.
  { apply (f_equal length) in H. rewrite length_take, length_drop in H.
    assert (0 < length bs) by (subst bs; simpl; lia). lia. }
  apply list_eq. intros i. rewrite lookup_write_at by done.
  destruct (decide (i < pos)); [by rewrite decide_True by lia|].
  destruct (decide (i < pos + length bs)); [|done].
  rewrite <- H. rewrite lookup_take_lt, lookup_drop by lia. f_equal. lia.
Qed.
End file_bytes.

(** ** Running the operations *)

Lemma bind_ret {A B} (m : M A) (f : A -> M B) w a w' :
  m w = (Ret a, w') -> (m ≫= f) w = f a w'.
Proof. intros H. unfold mbind, M_bind. by rewrite H. Qed.

Lemma bind_raise {A B} (m : M A) (f : A -> M B) w e w' :
  m w = (Raise e, w') -> (m ≫= f) w = (Raise e, w').
Proof. intros H. unfold mbind, M_bind. by rewrite H. Qed.

(** One step of a run: the first action of the goal returns, by [lem]. *)
Ltac mstep lem :=
  lazymatch goal with
  | |- mbind ?f ?m ?w = _ =>
      erewrite (bind_ret m f w);
      [ | eapply lem; first [eassumption | apply lookup_insert_eq | eauto]];
      cbv beta iota
  end.

(** One step of a run: the first action of the goal raises, by [lem]. *)
Ltac mraise lem :=
  lazymatch goal with
  | |- mbind ?f ?m ?w = _ =>
      erewrite (bind_raise m f w);
      [ | eapply lem; first [eassumption | apply lookup_insert_eq | eauto]]
  end.

Section run.
Context (F : gmap pystr bytes) (C : nat) (I O : list pystr) (K : Z).
Local Abbreviation W := (mkWorld F C I O K).

Lemma path_exists_run p :
  path_exists p W = (Ret (bool_decide (is_Some (F !! p))), W).
Proof. done. Qed.

Lemma path_exists_true p c :
  F !! p = Some c -> path_exists p W = (Ret true, W).
Proof. intros H. unfold path_exists. simpl. by rewrite H, bool_decide_true. Qed.

Lemma path_exists_false p :
  F !! p = None -> path_exists p W = (Ret false, W).
Proof.
  intros H. unfold path_exists. simpl. rewrite H, bool_decide_false; [done|].
  by intros [? ?].
Qed.

Lemma assert_true a : assert_ true a W = (Ret tt, W).
Proof. done. Qed.

Lemma assert_false a : assert_ false a W = (Raise (AssertionError a), W).
Proof. done. Qed.

Lemma open_existing_run f c :
  F !! f = Some c -> open_existing f W = (Ret tt, mkWorld F 0 I O K).
Proof. intros H. unfold open_existing. simpl. by rewrite H. Qed.

Lemma seek_run pos :
  0 <= pos -> seek pos W = (Ret tt, mkWorld F (Z.to_nat pos) I O K).
Proof.
  intros H. unfold seek. by rewrite (proj2 (Z.ltb_ge pos 0) H).
Qed.

Lemma fread_run f n c :
  F !! f = Some c ->
  fread f n W = (Ret (read_at c C n),
                 mkWorld F (C + length (read_at c C n)) I O K).
Proof. intros H. unfold fread. simpl. by rewrite H. Qed.

Lemma fwrite_run f bs c :
  F !! f = Some c ->
  fwrite f bs W = (Ret tt, mkWorld (<[f := write_at c C bs]> F)
                             (C + length bs) I O K).
Proof. intros H. unfold fwrite. simpl. by rewrite H. Qed.

Lemma read_all_run p c :
  F !! p = Some c -> read_all p W = (Ret c, W).
Proof. intros H. unfold read_all. simpl. by rewrite H. Qed.

Lemma lift_run {A} (o : outcome A) : lift o W = (o, W).
Proof. done. Qed.

Lemma lift_opt_some {A} e (o : option A) a :
  o = Some a -> lift_opt e o W = (Ret a, W).
Proof. by intros ->. Qed.

Lemma lift_opt_none {A} e (o : option A) :
  o = None -> lift_opt e o W = (Raise e, W).
Proof. by intros ->. Qed.

Lemma print_run s :
  print s W = (Ret tt, mkWorld F C I (O ++ [s ++ [10%N]]) K).
Proof. done. Qed.

Lemma time_now_run : time_now W = (Ret K, W).
Proof. done. Qed.

Lemma mret_run {A} (a : A) : (mret a : M A) W = (Ret a, W).
Proof. done. Qed.

Lemma raise_run {A} e : @raise A e W = (Raise e, W).
Proof. done. Qed.
End run.

Section run_container.
Context (F : gmap pystr bytes) (I O : list pystr) (K : Z).
Context (f : pystr) (c : bytes) (Hf : F !! f = Some c).

Lemma read_header_ok C h :
  header_of c = Some h ->
  read_header f (mkWorld F C I O K) = (Ret h, mkWorld F 64 I O K).
Proof.
  intros Hh. unfold read_header.
  mstep seek_run; [|done]. mstep fread_run.
  change (read_at c (Z.to_nat 0) HEADER_SIZE) with (take 64 c).
  unfold header_of in Hh. rewrite Hh.
  rewrite (Header_unpack_length _ _ Hh). done.
Qed.

Lemma read_header_short C :
  header_of c = None ->
  read_header f (mkWorld F C I O K)
  = (Raise struct_error, mkWorld F (length (take 64 c)) I O K).
Proof.
  intros Hh. unfold read_header.
  mstep seek_run; [|done]. mstep fread_run.
  change (read_at c (Z.to_nat 0) HEADER_SIZE) with (take 64 c).
  unfold header_of in Hh. rewrite Hh. done.
Qed.

Lemma read_entries_loop_ok n : forall C es,
  entries_from c C n = Some es ->
  read_entries_loop f n (mkWorld F C I O K)
  = (Ret es, mkWorld F (C + 64 * n) I O K).
Proof.
  induction n as [|n IH]; intros C es Hes; simpl in Hes.
  - injection Hes as <-. cbn [read_entries_loop].
    by rewrite Nat.mul_0_r, Nat.add_0_r.
  - destruct (FileEntry_unpack (take 64 (drop C c))) as [e|] eqn:He; [|done].
    destruct (entries_from c (C + 64) n) as [es'|] eqn:Hes'; [|done].
    injection Hes as <-. cbn [read_entries_loop].
    mstep fread_run.
    change (read_at c C ENTRY_SIZE) with (take 64 (drop C c)).
    rewrite He, (FileEntry_unpack_length _ _ He).
    mstep lift_opt_some. mstep IH.
    rewrite mret_run. do 2 f_equal. lia.
Qed.

Lemma read_entries_ok C es :
  entries_of c = Some es ->
  read_entries f (mkWorld F C I O K) = (Ret es, mkWorld F 2112 I O K).
Proof.
  intros Hes. unfold read_entries. mstep seek_run; [|done].
  change (Z.to_nat MAX_FILES) with 32%nat.
  change (Z.to_nat FILE_TABLE_OFFSET) with 64%nat.
  by rewrite (read_entries_loop_ok _ _ _ Hes).
Qed.

Lemma write_header_ok C h packed :
  Header_pack h = Some packed ->
  write_header h f (mkWorld F C I O K)
  = (Ret tt, mkWorld (<[f := write_at c 0 packed]> F) 64 I O K).
Proof.
  intros Hp. unfold write_header. mstep seek_run; [|done].
  mstep lift_opt_some. rewrite (fwrite_run _ _ _ _ _ _ _ c) by done.
  by rewrite (Header_pack_length _ _ Hp).
Qed.

Lemma write_header_fail C h :
  Header_pack h = None ->
  write_header h f (mkWorld F C I O K)
  = (Raise struct_error, mkWorld F 0 I O K).
Proof.
  intros Hp. unfold write_header. mstep seek_run; [|done].
  by mraise lift_opt_none.
Qed.

Lemma write_entry_ok C e position packed :
  0 <= position ->
  FileEntry_pack e = Some packed ->
  write_entry e f position (mkWorld F C I O K)
  = (Ret tt, mkWorld (<[f := write_at c (Z.to_nat position) packed]> F)
               (Z.to_nat position + 64) I O K).
Proof.
  intros Hpos Hp. unfold write_entry. mstep seek_run.
  mstep lift_opt_some. rewrite (fwrite_run _ _ _ _ _ _ _ c) by done.
  by rewrite (FileEntry_pack_length _ _ Hp).
Qed.
End run_container.

(** ** The header and the entry table of a container *)

Section views.
Local Open Scope nat_scope.

Lemma header_of_total c :
  64 ≤ length c -> exists h, header_of c = Some h /\ Header_fits h.
Proof.
  intros H. apply Header_unpack_total. rewrite length_take. lia.
Qed.

Lemma header_of_short c : length c < 64 -> header_of c = None.
Proof.
  intros H. unfold header_of, Header_unpack, struct_unpack.
  rewrite bool_decide_false; [done|].
  rewrite length_take. change (calcsize HEADER_FORMAT) with 64. lia.
Qed.

Lemma header_of_length c h : header_of c = Some h -> 64 ≤ length c.
Proof.
  intros H%Header_unpack_length. rewrite length_take in H. lia.
Qed.

Lemma header_of_fits c h : header_of c = Some h -> Header_fits h.
Proof.
  intros H. pose proof (header_of_length _ _ H) as Hl.
  destruct (header_of_total c Hl) as (h' & Hh' & Hfit). congruence.
Qed.

Lemma header_of_pack c h : header_of c = Some h -> Header_pack h = Some (take 64 c).
Proof. apply Header_pack_unpack. Qed.

Lemma entries_from_length c pos n es :
  entries_from c pos n = Some es -> length es = n.
Proof.
  revert pos es. induction n as [|n IH]; intros pos es; simpl.
  - by intros [= <-].
  - destruct (FileEntry_unpack _) as [e|]; [|done].
    destruct (entries_from c (pos + 64) n) as [es'|] eqn:E; [|done].
    intros [= <-]. simpl. f_equal. eauto.
Qed.

Lemma entries_from_lookup c pos n es i e :
  entries_from c pos n = Some es -> es !! i = Some e ->
  FileEntry_unpack (take 64 (drop (pos + 64 * i) c)) = Some e.
Proof.
  revert pos es i. induction n as [|n IH]; intros pos es i; simpl.
  - by intros [= <-].
  - destruct (FileEntry_unpack _) as [e0|] eqn:E0; [|done].
    destruct (entries_from c (pos + 64) n) as [es'|] eqn:E; [|done].
    intros [= <-]. destruct i as [|i]; simpl.
    + intros [= <-]. by rewrite Nat.add_0_r.
    + intros Hi. rewrite <- (IH _ _ _ E Hi). do 3 f_equal. lia.
Qed.

Lemma entries_from_intro c pos n es :
  length es = n ->
  (forall i e, es !! i = Some e ->
               FileEntry_unpack (take 64 (drop (pos + 64 * i) c)) = Some e) ->
  entries_from c pos n = Some es.
Proof.
  revert pos es. induction n as [|n IH]; intros pos es Hlen Hall; simpl.
  - by destruct es.
  - destruct es as [|e es]; [done|]. simpl in Hlen.
    pose proof (Hall 0 e eq_refl) as H0. rewrite Nat.add_0_r in H0.
    rewrite H0, (IH (pos + 64) es); [done|lia|].
    intros i e' Hi. rewrite <- (Hall (S i) e' Hi). do 3 f_equal. lia.
Qed.

Lemma entries_from_total c pos n :
  pos + 64 * n ≤ length c ->
  exists es, entries_from c pos n = Some es.
Proof.
  revert pos. induction n as [|n IH]; intros pos H; simpl; [by eexists|].
  destruct (FileEntry_unpack_total (take 64 (drop pos c))) as (e & He & _).
  { rewrite length_take, length_drop. lia. }
  destruct (IH (pos + 64)) as (es & Hes); [lia|].
  rewrite He, Hes. by eexists.
Qed.

Lemma entries_of_total c :
  2112 ≤ length c -> exists es, entries_of c = Some es.
Proof. intros H. apply entries_from_total. lia. Qed.

Lemma entries_of_length c es : entries_of c = Some es -> length es = 32.
Proof. apply entries_from_length. Qed.

Lemma entries_of_lookup c es i e :
  entries_of c = Some es -> es !! i = Some e ->
  FileEntry_unpack (take 64 (drop (64 + 64 * i) c)) = Some e.
Proof. apply entries_from_lookup. Qed.

Lemma entries_of_fits c es i e :
  entries_of c = Some es -> es !! i = Some e -> FileEntry_fits e.
Proof.
  intros Hes Hi. pose proof (entries_of_lookup _ _ _ _ Hes Hi) as Hu.
  destruct (FileEntry_unpack_total _ (FileEntry_unpack_length _ _ Hu))
    as (e' & He' & Hfit). congruence.
Qed.

(** The table is read from the bytes 64..2111 only. *)
Lemma entries_of_ext c c' :
  take 2048 (drop 64 c') = take 2048 (drop 64 c) ->
  entries_of c' = entries_of c.
Proof.
  intros Heq.
  assert (forall i, i < 32 ->
            take 64 (drop (64 + 64 * i) c') = take 64 (drop (64 + 64 * i) c))
    as Hslot.
  { intros i Hi.
    assert (forall d : bytes, take 64 (drop (64 + 64 * i) d)
              = take 64 (drop (64 * i) (take 2048 (drop 64 d)))) as E.
    { intros d. apply list_eq. intros j.
      destruct (decide (j < 64)).
      - rewrite !lookup_take_lt, !lookup_drop by lia.
        rewrite lookup_take_lt, lookup_drop by lia. f_equal; lia.
      - by rewrite !lookup_take_ge by lia. }
    by rewrite !E, Heq. }
  unfold entries_of.
  destruct (entries_from c 64 32) as [es|] eqn:Hes.
  - apply entries_from_intro; [by apply entries_from_length in Hes|].
    intros i e Hi.
    assert (i < 32).
    { apply lookup_lt_Some in Hi. apply entries_from_length in Hes. lia. }
    rewrite Hslot by done. by eapply entries_from_lookup.
  - destruct (entries_from c' 64 32) as [es'|] eqn:Hes'; [|done].
    rewrite <- Hes. symmetry. apply entries_from_intro;
      [by apply entries_from_length in Hes'|].
    intros i e Hi.
    assert (i < 32).
    { apply lookup_lt_Some in Hi. apply entries_from_length in Hes'. lia. }
    rewrite <- Hslot by done. by eapply entries_from_lookup.
Qed.
End views.

Lemma FileEntry_fits_inv e :
  FileEntry_fits e ->
  length (name e) = 32%nat /\ 0 <= start e < 2 ^ 32 /\ 0 <= length_ e < 2 ^ 32
  /\ 0 <= type_ e < 2 ^ 8 /\ 0 <= flag e < 2 ^ 8
  /\ 0 <= e_reserved0 e < 2 ^ 16 /\ 0 <= created e < 2 ^ 64
  /\ length (e_reserved1 e) = 12%nat.
Proof.
  unfold FileEntry_fits, FileEntry_values, FILE_ENTRY_FORMAT. intros H.
  repeat match goal with
         | H : Forall2 _ (_ :: _) (_ :: _) |- _ =>
             apply Forall2_cons_1 in H; destruct H as [? H]
         end.
  cbn [fits int_width] in *. repeat split; try done; lia.
Qed.

Lemma FileEntry_fits_intro e :
  length (name e) = 32%nat -> 0 <= start e < 2 ^ 32 ->
  0 <= length_ e < 2 ^ 32 -> 0 <= type_ e < 2 ^ 8 -> 0 <= flag e < 2 ^ 8 ->
  0 <= e_reserved0 e < 2 ^ 16 -> 0 <= created e < 2 ^ 64 ->
  length (e_reserved1 e) = 12%nat ->
  FileEntry_fits e.
Proof.
  intros. unfold FileEntry_fits, FileEntry_values, FILE_ENTRY_FORMAT.
  repeat (constructor; [cbn [fits int_width]; done|]).
  constructor.
Qed.

Lemma Header_fits_inv h :
  Header_fits h ->
  length (magic h) = 8%nat /\ 0 <= version h < 2 ^ 8 /\ 0 <= flags h < 2 ^ 8
  /\ 0 <= h_reserved0 h < 2 ^ 16 /\ 0 <= file_count h < 2 ^ 16
  /\ 0 <= file_capacity h < 2 ^ 16 /\ 0 <= file_entry_size h < 2 ^ 16
  /\ 0 <= h_reserved1 h < 2 ^ 16 /\ 0 <= file_table_offset h < 2 ^ 32
  /\ 0 <= data_start_offset h < 2 ^ 32 /\ 0 <= next_free_offset h < 2 ^ 32
  /\ 0 <= free_entry_offset h < 2 ^ 32 /\ 0 <= deleted_files h < 2 ^ 16
  /\ length (h_reserved2 h) = 26%nat.
Proof.
  unfold Header_fits, Header_values, HEADER_FORMAT. intros H.
  repeat match goal with
         | H : Forall2 _ (_ :: _) (_ :: _) |- _ =>
             apply Forall2_cons_1 in H; destruct H as [? H]
         end.
  cbn [fits int_width] in *. repeat split; try done; lia.
Qed.

Lemma Header_fits_intro h :
  length (magic h) = 8%nat -> 0 <= version h < 2 ^ 8 -> 0 <= flags h < 2 ^ 8 ->
  0 <= h_reserved0 h < 2 ^ 16 -> 0 <= file_count h < 2 ^ 16 ->
  0 <= file_capacity h < 2 ^ 16 -> 0 <= file_entry_size h < 2 ^ 16 ->
  0 <= h_reserved1 h < 2 ^ 16 -> 0 <= file_table_offset h < 2 ^ 32 ->
  0 <= data_start_offset h < 2 ^ 32 -> 0 <= next_free_offset h < 2 ^ 32 ->
  0 <= free_entry_offset h < 2 ^ 32 -> 0 <= deleted_files h < 2 ^ 16 ->
  length (h_reserved2 h) = 26%nat ->
  Header_fits h.
Proof.
  intros. unfold Header_fits, Header_values, HEADER_FORMAT.
  repeat (constructor; [cbn [fits int_width]; done|]).
  constructor.
Qed.

Lemma list_find_index (es : list FileEntry) (filename : bytes) i e :
  list_find (fun entry => name entry = filename) es = Some (i, e) ->
  compare_filenames es filename = Ret (Z.of_nat i)
  /\ index es (Z.of_nat i) = Ret e /\ name e = filename.
Proof.
  intros H. unfold compare_filenames, index. rewrite H, Nat2Z.id.
  apply list_find_Some in H as (Hi & Hn & _). by rewrite Hi.
Qed.

(** * The codec round trip *)

(** C6, as amended: the round trip is exact in both directions for both
    records on everything that conforms to the schema.  Every 64-byte frame
    [b] unpacks to a header and to an entry that pack back to [b], reserved
    fields included; and a header [h] and an entry [e] whose byte-string
    fields have exactly the width of their field and whose integers lie in
    the unsigned range of their field pack to a frame that unpacks to
    them. *)
Theorem codec_round_trip (b : bytes) (h : Header) (e : FileEntry) :
  length b = 64%nat -> Header_fits h -> FileEntry_fits e ->
  (exists h', Header_unpack b = Some h' /\ Header_pack h' = Some b)
  /\ (exists e', FileEntry_unpack b = Some e' /\ FileEntry_pack e' = Some b)
  /\ (exists d, Header_pack h = Some d /\ Header_unpack d = Some h)
  /\ (exists d, FileEntry_pack e = Some d /\ FileEntry_unpack d = Some e).
Proof.
  intros Hb Hh He. repeat split.
  - destruct (Header_unpack_total b Hb) as (h' & Hu & _).
    exists h'. split; [done|]. by apply Header_pack_unpack.
  - destruct (FileEntry_unpack_total b Hb) as (e' & Hu & _).
    exists e'. split; [done|]. by apply FileEntry_pack_unpack.
  - destruct (Header_unpack_pack h Hh) as (d & Hp & _ & Hu). by exists d.
  - destruct (FileEntry_unpack_pack e He) as (d & Hp & _ & Hu). by exists d.
Qed.

Lemma Header_default_fits : Header_fits Header_default.
Proof. apply Header_fits_intro; by vm_compute. Qed.

Lemma FileEntry_default_fits : FileEntry_fits FileEntry_default.
Proof. apply FileEntry_fits_intro; by vm_compute. Qed.

Lemma codec_round_trip_witness :
  length (zeros 64) = 64%nat
  /\ (exists d, Header_pack Header_default = Some d
                /\ Header_unpack d = Some Header_default)
  /\ (exists d, FileEntry_pack FileEntry_default = Some d
                /\ FileEntry_unpack d = Some FileEntry_default).
Proof.
  split; [reflexivity|].
  apply (codec_round_trip (zeros 64) Header_default FileEntry_default).
  - reflexivity.
  - exact Header_default_fits.
  - exact FileEntry_default_fits.
Defined.

(** C6, the claim as stated fails: a header value outside the schema does
    not survive the round trip.  A [file_count] of -1 (what [rmfs] computes
    from a count of 0) is refused by [pack], and a magic shorter than 8
    bytes comes back NUL-padded. *)
Lemma codec_round_trip_outside_schema :
  Header_pack header_minus_one = None
  /\ (Header_pack header_short_magic ≫= Header_unpack)
     = Some (mkHeader (blit "ZV" ++ zeros 6) 1 0 0 0 32 64 0 64 2112 2112 64
               0 (zeros 26))
  /\ ~ (forall h : Header, Header_pack h ≫= Header_unpack = Some h).
Proof.
  split; [by vm_compute|]. split; [by vm_compute|].
  intros H. specialize (H header_minus_one). by vm_compute in H.
Qed.

(** The first two fields of the header are the bytes 0..7 and the byte 8. *)
Lemma header_of_magic c h :
  header_of c = Some h ->
  magic h = take 8 c /\ version h = le_int (take 1 (drop 8 c)).
Proof.
  intros Hh. pose proof (header_of_length _ _ Hh) as Hlen.
  unfold header_of, Header_unpack, struct_unpack in Hh.
  rewrite bool_decide_true in Hh by (rewrite length_take;
    change (calcsize HEADER_FORMAT) with 64%nat; lia).
  injection Hh as <-. cbn [magic version int_width].
  rewrite take_take. split; [done|].
  f_equal. apply list_eq. intros i. destruct i as [|i].
  - rewrite !lookup_take_lt, !lookup_drop by lia.
    rewrite lookup_take_lt by lia. done.
  - by rewrite !lookup_take_ge by lia.
Qed.

(** * Reading the header *)

(** C5, as amended: reading the header checks neither the magic nor the
    version.  On every container of at least 64 bytes [read_header]
    returns the header whose fields are those of the first 64 bytes,
    whatever magic and version they hold; it fails, with the error of
    [struct.unpack], exactly when the container has fewer than 64 bytes. *)
Theorem read_header_checks_length_only
    (F : gmap pystr bytes) (C : nat) (I O : list pystr) (K : Z)
    (f : pystr) (c : bytes) :
  F !! f = Some c ->
  ((64 <= length c)%nat ->
   exists h, read_header f (mkWorld F C I O K)
             = (Ret h, mkWorld F 64 I O K)
             /\ magic h = take 8 c
             /\ version h = le_int (take 1 (drop 8 c))
             /\ Header_pack h = Some (take 64 c))
  /\ ((length c < 64)%nat ->
      (read_header f (mkWorld F C I O K)).1 = Raise struct_error).
Proof.
  intros Hf. split.
  - intros Hlen. destruct (header_of_total c Hlen) as (h & Hh & _).
    exists h. split; [by eapply read_header_ok|].
    destruct (header_of_magic _ _ Hh) as [Hm Hv].
    split; [done|]. split; [done|]. by apply header_of_pack.
  - intros Hlen. by erewrite read_header_short by eauto using header_of_short.
Qed.

Lemma read_header_checks_length_only_witness :
  files foreign_host !! img = Some foreign_image
  /\ exists h, read_header img foreign_host
               = (Ret h, mkWorld (files foreign_host) 64 [] [] 1700000000)
               /\ magic h = take 8 foreign_image
               /\ version h = le_int (take 1 (drop 8 foreign_image))
               /\ Header_pack h = Some (take 64 foreign_image).
Proof.
  split; [reflexivity|].
  apply (read_header_checks_length_only (files foreign_host) 0 [] []
           1700000000 img foreign_image); [reflexivity|].
  vm_compute. lia.
Defined.

(** C5, the claim as stated fails: on a container whose magic is
    [NOTAZVFS] and whose version byte is 9, [read_header] returns a header
    and [gifs], which reads the header, runs to its end. *)
Lemma read_header_accepts_foreign_magic :
  (exists h, (read_header img foreign_host).1 = Ret h
             /\ magic h = blit "NOTAZVFS" /\ magic h <> blit "ZVFSDSK1"
             /\ version h = 9)
  /\ (gifs img foreign_host).1 = Ret tt.
Proof.
  split; [|by vm_compute].
  eexists. split; [by vm_compute|]. cbn [magic version].
  split; [done|]. split; [|done]. by vm_compute.
Qed.

(** * Remove needs the host file *)

(** C10: [rmfs] first asserts that the container exists and then that a
    host file of the given name exists.  When no host file has that name
    the second assertion fails, before the container is opened: nothing is
    read or written, whatever the entry table holds. *)
Theorem rmfs_requires_host_file
    (F : gmap pystr bytes) (C : nat) (I O : list pystr) (K : Z)
    (fs_path remove_file : pystr) (c : bytes) :
  F !! fs_path = Some c ->
  F !! remove_file = None ->
  rmfs fs_path remove_file (mkWorld F C I O K)
  = (Raise (AssertionError file_does_not_exist), mkWorld F C I O K).
Proof.
  intros Hfs Hfile. unfold rmfs.
  mstep path_exists_true. mstep assert_true.
  mstep path_exists_false. by mraise assert_false.
Qed.

Lemma rmfs_requires_host_file_witness :
  files lost_host !! img = Some (image lost_host)
  /\ files lost_host !! str "a.txt" = None
  /\ (exists e, (entries_of (image lost_host) ≫= (.!! 0%nat)) = Some e
                /\ encode_filename (str "a.txt") = Ret (name e)
                /\ flag e = 0)
  /\ rmfs img (str "a.txt") lost_host
     = (Raise (AssertionError file_does_not_exist), lost_host).
Proof.
  split; [by vm_compute|]. split; [by vm_compute|].
  split; [eexists; split; [by vm_compute|]; split; by vm_compute|].
  apply (rmfs_requires_host_file (files lost_host) (cursor lost_host)
           (stdin lost_host) (stdout lost_host) (clock lost_host)
           img (str "a.txt") (image lost_host)); by vm_compute.
Defined.

(** * Read to standard output *)

Lemma lift_ret (F : gmap pystr bytes) C I O K {A} (o : outcome A) a :
  o = Ret a -> lift o (mkWorld F C I O K) = (Ret a, mkWorld F C I O K).
Proof. by intros ->. Qed.

Lemma lift_raise (F : gmap pystr bytes) C I O K {A} (o : outcome A) e :
  o = Raise e -> lift o (mkWorld F C I O K) = (Raise e, mkWorld F C I O K).
Proof. by intros ->. Qed.

(** C1, as amended: [catfs] looks the name up like [getfs], reads
    [entry.length] bytes from [entry.start] (fewer only where the container
    ends), decodes them as UTF-8 and prints one line: the text
    [Content of file <file>: ], the decoded payload and a newline.  Bytes
    that are not valid UTF-8 make it fail with a decoding error, with
    nothing printed.  The container is not written. *)
Theorem catfs_prints_decoded_line
    (F : gmap pystr bytes) (C : nat) (I O : list pystr) (K : Z)
    (fs_path file : pystr) (c filename : bytes) (es : list FileEntry)
    (i : nat) (e : FileEntry) :
  F !! fs_path = Some c ->
  encode_filename file = Ret filename ->
  entries_of c = Some es ->
  list_find (fun entry => name entry = filename) es = Some (i, e) ->
  let data := read_at c (Z.to_nat (start e)) (length_ e) in
  let C' := (Z.to_nat (start e) + length data)%nat in
  catfs fs_path file (mkWorld F C I O K)
  = match bytes_decode data with
    | Some text =>
        (Ret tt,
         mkWorld F C' I
           (O ++ [(str "Content of file " ++ file ++ str ": " ++ text)
                  ++ [10%N]]) K)
    | None => (Raise UnicodeDecodeError, mkWorld F C' I O K)
    end.
Proof.
  intros Hfs Hname Hes Hfind data C'.
  destruct (list_find_index _ _ _ _ Hfind) as (Hcmp & Hidx & _).
  assert (0 <= start e) as Hstart.
  { apply list_find_Some in Hfind as (Hi & _).
    pose proof (entries_of_fits _ _ _ _ Hes Hi) as Hfit.
    apply FileEntry_fits_inv in Hfit. lia. }
  unfold catfs.
  mstep path_exists_true. mstep assert_true. mstep lift_ret.
  mstep open_existing_run. mstep read_entries_ok.
  mstep lift_ret. mstep lift_ret. mstep seek_run. mstep fread_run.
  fold data C'. destruct (bytes_decode data) as [text|] eqn:Hdec.
  - mstep lift_opt_some. by rewrite print_run.
  - by mraise lift_opt_none.
Qed.

Lemma catfs_prints_decoded_line_witness :
  exists (es : list FileEntry) (e : FileEntry),
    files empty_file_host !! img = Some (image empty_file_host)
    /\ encode_filename (str "x") = Ret ("x"%byte :: zeros 31)
    /\ entries_of (image empty_file_host) = Some es
    /\ list_find (fun entry => name entry = "x"%byte :: zeros 31) es
       = Some (0%nat, e)
    /\ catfs img (str "x") empty_file_host
       = (Ret tt,
          mkWorld (files empty_file_host) 2112 []
            (stdout empty_file_host ++ [str "Content of file x: " ++ [10%N]])
            1700000000).
Proof.
  eexists _, _.
  split; [by vm_compute|]. split; [by vm_compute|].
  split; [vm_compute; reflexivity|]. split; [vm_compute; reflexivity|].
  eapply eq_trans.
  - eapply (catfs_prints_decoded_line (files empty_file_host)
             (cursor empty_file_host) (stdin empty_file_host)
             (stdout empty_file_host) (clock empty_file_host)
             img (str "x") (image empty_file_host));
      vm_compute; reflexivity.
  - vm_compute. reflexivity.
Defined.

(** C1, the claim as stated fails: for the stored file [x] of length 0,
    standard output receives the line [Content of file x: ] and not 0
    bytes; and for a stored payload that is not UTF-8, [catfs] fails where
    a verbatim copy would emit the two bytes. *)
Lemma catfs_empty_file_not_verbatim :
  (exists e w',
     (entries_of (image empty_file_host) ≫= (.!! 0%nat)) = Some e
     /\ name e = "x"%byte :: zeros 31
     /\ length_ e = 0
     /\ catfs img (str "x") empty_file_host = (Ret tt, w')
     /\ stdout w' = stdout empty_file_host
                    ++ [str "Content of file x: " ++ [10%N]]
     /\ stdout w' <> stdout empty_file_host)
  /\ (let w := after [mkfs img; addfs img (str "raw.bin")] host in
      files w !! str "raw.bin" = Some [xff; xfe]
      /\ (catfs img (str "raw.bin") w).1 = Raise UnicodeDecodeError
      /\ stdout (catfs img (str "raw.bin") w).2 = stdout w).
Proof.
  split.
  - eexists _, _. split; [vm_compute; reflexivity|].
    split; [by vm_compute|]. split; [by vm_compute|].
    split; [vm_compute; reflexivity|]. split; by vm_compute.
  - by vm_compute.
Qed.

(** * Add *)

Lemma utf8_char_length c b : utf8_char c = Some b -> (1 <= length b)%nat.
Proof.
  unfold utf8_char. repeat case_match; intros [= <-]; simpl; lia.
Qed.

(** An encoding has at least as many bytes as the string has characters. *)
Lemma str_encode_length s b :
  str_encode s = Some b -> (length s <= length b)%nat.
Proof.
  revert b. induction s as [|c s IH]; intros b; simpl.
  - intros [= <-]. done.
  - destruct (utf8_char c) as [bc|] eqn:Hc; [|done].
    destruct (str_encode s) as [bs|] eqn:Hs; [|done].
    intros [= <-]. rewrite length_app.
    pose proof (utf8_char_length _ _ Hc). pose proof (IH _ eq_refl). lia.
Qed.

Lemma encode_filename_ok n b :
  str_encode n = Some b -> (length n <= 31)%nat ->
  encode_filename n = Ret (padded_name b).
Proof.
  intros Hb Hlen. unfold encode_filename.
  rewrite bool_decide_false by lia. by rewrite Hb.
Qed.

Lemma encode_filename_long n :
  (31 < length n)%nat -> encode_filename n = Raise ValueError.
Proof.
  intros Hlen. unfold encode_filename. by rewrite bool_decide_true by lia.
Qed.

Lemma length_padded_name b :
  (length b <= 32)%nat -> length (padded_name b) = 32%nat.
Proof.
  intros H. unfold padded_name, zeros.
  rewrite length_app, length_replicate. lia.
Qed.

Lemma compare_filenames_none es filename :
  list_find (fun entry => name entry = filename) es = None ->
  compare_filenames es filename = Raise (AssertionError not_in_filesystem).
Proof. intros H. unfold compare_filenames. by rewrite H. Qed.

Lemma padded_size_bounds n :
  0 <= n -> n <= padded_size n < n + 64 /\ padded_size n mod 64 = 0.
Proof.
  intros Hn. unfold padded_size, DATA_ALIGNMENT.
  pose proof (Z.div_mod (n + (64 - 1)) 64 ltac:(lia)) as Hd.
  pose proof (Z.mod_pos_bound (n + (64 - 1)) 64 ltac:(lia)) as Hm.
  split; [lia|]. by rewrite Z_mod_mult.
Qed.

Lemma length_padding_of n :
  0 <= n -> Z.of_nat (length (padding_of n)) = padded_size n - n.
Proof.
  intros Hn. pose proof (padded_size_bounds n Hn) as [Hb _].
  unfold padding_of, zeros. rewrite length_replicate.
  destruct (padded_size n >? n) eqn:E; lia.
Qed.

Section run_addfs.
Context (F : gmap pystr bytes) (C : nat) (I O : list pystr) (K : Z).
Context (fs_path new_file : pystr) (c p : bytes).
Context (h : Header) (es : list FileEntry).
Context (Hfs : F !! fs_path = Some c) (Hfile : F !! new_file = Some p).
Context (Hh : header_of c = Some h) (Hes : entries_of c = Some es).

(** The duplicate check: a match exits, no match goes on. *)
Lemma duplicate_check_passes filename C' :
  list_find (fun entry => name entry = filename) es = None ->
  except_AssertionError
    (_ ← lift (compare_filenames es filename);
     raise (SystemExit already_in_filesystem))
    (mret tt) (mkWorld F C' I O K)
  = (Ret tt, mkWorld F C' I O K).
Proof.
  intros Hnone. unfold except_AssertionError.
  erewrite bind_raise
    by (apply lift_raise; by apply compare_filenames_none).
  done.
Qed.

Lemma duplicate_check_exits filename C' i e :
  list_find (fun entry => name entry = filename) es = Some (i, e) ->
  except_AssertionError
    (_ ← lift (compare_filenames es filename);
     raise (SystemExit already_in_filesystem))
    (mret tt) (mkWorld F C' I O K)
  = (Raise (SystemExit already_in_filesystem), mkWorld F C' I O K).
Proof.
  intros Hsome. unfold except_AssertionError.
  destruct (list_find_index _ _ _ _ Hsome) as (Hcmp & _).
  erewrite bind_ret by (apply lift_ret; exact Hcmp). done.
Qed.

(** [addfs] up to the name checks, for a name that is not in the table. *)
Lemma addfs_name_too_long b :
  str_encode new_file = Some b ->
  (31 < length b)%nat ->
  list_find (fun entry => name entry = padded_name b) es = None ->
  exists e, addfs fs_path new_file (mkWorld F C I O K)
            = (Raise e, mkWorld F 2112 I O K)
            /\ is_NameTooLong e = true.
Proof.
  intros Hb Hlen Hnodup.
  destruct (decide (31 < length new_file)%nat) as [Hchars|Hchars];
    [exists ValueError|exists (AssertionError name_too_long)];
    (split; [|done]); unfold addfs;
    mstep path_exists_true; mstep assert_true;
    mstep path_exists_true; mstep assert_true;
    mstep open_existing_run; mstep read_header_ok; mstep read_entries_ok.
  - by mraise lift_raise; [|by apply encode_filename_long].
  - mstep lift_ret; [|apply encode_filename_ok; [done|lia]].
    mstep duplicate_check_passes. mstep read_all_run.
    mstep lift_opt_some. rewrite bool_decide_false by lia.
    by mraise assert_false.
Qed.
Lemma added_entry_fits b now :
  (length b <= 31)%nat -> addfs_fits h p now ->
  FileEntry_fits (added_entry h b p now).
Proof.
  intros Hb (_ & _ & Hp & Hnow).
  pose proof (header_of_fits _ _ Hh) as Hf. apply Header_fits_inv in Hf.
  apply FileEntry_fits_intro; cbn [name start length_ type_ flag e_reserved0
    created e_reserved1 added_entry]; try done; try lia.
  apply length_padded_name. lia.
Qed.

Lemma added_header_fits now :
  addfs_fits h p now -> Header_fits (added_header h p).
Proof.
  intros (Hc & Hn & Hp & _).
  pose proof (header_of_fits _ _ Hh) as Hf. apply Header_fits_inv in Hf.
  pose proof (padded_size_bounds (Z.of_nat (length p)) ltac:(lia)).
  apply Header_fits_intro; cbn [magic version flags h_reserved0 file_count
    file_capacity file_entry_size h_reserved1 file_table_offset
    data_start_offset next_free_offset free_entry_offset deleted_files
    h_reserved2 added_header]; try done; lia.
Qed.

(** [addfs] from its first line to its last, when every check passes. *)
Lemma addfs_ok b i e0 eb hb :
  str_encode new_file = Some b ->
  (length b <= 31)%nat ->
  list_find (fun entry => name entry = padded_name b) es = None ->
  list_find (fun entry => is_empty entry) es = Some (i, e0) ->
  FileEntry_pack (added_entry h b p K) = Some eb ->
  Header_pack (added_header h p) = Some hb ->
  addfs fs_path new_file (mkWorld F C I O K)
  = (Ret tt,
     mkWorld
       (<[fs_path := write_at (write_at (with_payload c h p)
                                 (64 + 64 * i) eb) 0 hb]> F)
       64 I
       (O ++ [(str "File " ++ new_file
               ++ str " was added to the file system " ++ fs_path)
              ++ [10%N]]) K).
Proof.
  intros Hb Hlen Hnodup Hfree Heb Hhb.
  pose proof (str_encode_length _ _ Hb) as Hchars.
  pose proof (header_of_fits _ _ Hh) as Hf. apply Header_fits_inv in Hf.
  unfold addfs.
  mstep path_exists_true. mstep assert_true.
  mstep path_exists_true. mstep assert_true.
  mstep open_existing_run. mstep read_header_ok. mstep read_entries_ok.
  mstep lift_ret; [|apply encode_filename_ok; [done|lia]].
  mstep duplicate_check_passes. mstep read_all_run.
  mstep lift_opt_some. rewrite bool_decide_true by lia.
  mstep assert_true. mstep seek_run; [|lia].
  mstep fwrite_run. mstep fwrite_run. mstep time_now_run.
  rewrite Hfree. mstep lift_opt_some. cbn [fst].
  mstep write_entry_ok; [| unfold FILE_TABLE_OFFSET, HEADER_SIZE, ENTRY_SIZE; lia].
  mstep write_header_ok. rewrite print_run.
  rewrite !insert_insert_eq. do 3 f_equal.
  unfold with_payload. do 3 f_equal.
  unfold FILE_TABLE_OFFSET, HEADER_SIZE, ENTRY_SIZE. lia.
Qed.
End run_addfs.

(** C9: in [addfs] the limit on the file name is on its UTF-8 encoding.
    With the container and the host file in place and no entry of that
    name, a name whose encoding has at most 31 bytes passes the name checks,
    and [addfs] returns whenever a slot is free and the updated fields fit
    their widths; a name whose encoding has more than 31 bytes makes
    [addfs] fail with the error for a name that is too long, before
    anything is written, also when it has at most 31 characters. *)
Theorem addfs_name_limit
    (F : gmap pystr bytes) (C : nat) (I O : list pystr) (K : Z)
    (fs_path new_file : pystr) (c p b : bytes)
    (h : Header) (es : list FileEntry) :
  F !! fs_path = Some c -> F !! new_file = Some p ->
  header_of c = Some h -> entries_of c = Some es ->
  str_encode new_file = Some b ->
  list_find (fun entry => name entry = padded_name b) es = None ->
  ((length b <= 31)%nat ->
   forall i e0,
     list_find (fun entry => is_empty entry) es = Some (i, e0) ->
     addfs_fits h p K ->
     (addfs fs_path new_file (mkWorld F C I O K)).1 = Ret tt)
  /\ ((31 < length b)%nat ->
      exists e, addfs fs_path new_file (mkWorld F C I O K)
                = (Raise e, mkWorld F 2112 I O K)
                /\ is_NameTooLong e = true).
Proof.
  intros Hfs Hfile Hh Hes Hb Hnodup. split.
  - intros Hlen i e0 Hfree Hfits.
    destruct (FileEntry_unpack_pack _
                (added_entry_fits c p h Hh b K Hlen Hfits)) as (eb & Heb & _).
    destruct (Header_unpack_pack _ (added_header_fits c p h Hh K Hfits))
      as (hb & Hhb & _).
    by erewrite addfs_ok.
  - intros Hlen. by eapply addfs_name_too_long.
Qed.

Lemma addfs_name_limit_witness :
  (exists h es e0,
      header_of (image fresh_host) = Some h
      /\ entries_of (image fresh_host) = Some es
      /\ str_encode name31 = Some (blit "abcdefghijklmnopqrstuvwxyz01234")
      /\ length (blit "abcdefghijklmnopqrstuvwxyz01234") = 31%nat
      /\ list_find (fun entry => is_empty entry) es = Some (0%nat, e0)
      /\ (addfs img name31 fresh_host).1 = Ret tt)
  /\ (exists b e,
        length name16 = 16%nat
        /\ str_encode name16 = Some b /\ length b = 32%nat
        /\ addfs img name16 fresh_host
           = (Raise e, set_cursor 2112 fresh_host)
        /\ is_NameTooLong e = true).
Proof.
  pose (w := fresh_host).
  assert (files w !! img = Some (image w)) as Hfs by (vm_compute; reflexivity).
  eassert (header_of (image w) = Some _) as Hh by (vm_compute; reflexivity).
  eassert (entries_of (image w) = Some _) as Hes by (vm_compute; reflexivity).
  split.
  - eassert (files w !! name31 = Some _) as Hfile by (vm_compute; reflexivity).
    eassert (str_encode name31 = Some _) as Hb by (vm_compute; reflexivity).
    lazymatch type of Hes with
    | _ = Some ?es =>
        eassert (list_find (fun entry => is_empty entry) es = Some (0%nat, _))
          as Hfree by (vm_compute; reflexivity)
    end.
    eexists _, _, _. split; [exact Hh|]. split; [exact Hes|].
    split; [exact Hb|]. split; [reflexivity|]. split; [exact Hfree|].
    refine (proj1 (addfs_name_limit (files w) (cursor w) (stdin w) (stdout w)
                     (clock w) img name31 _ _ _ _ _ Hfs Hfile Hh Hes Hb _)
              _ _ _ Hfree _).
    + vm_compute. reflexivity.
    + vm_compute. lia.
    + vm_compute. repeat split; done.
  - eassert (files w !! name16 = Some _) as Hfile by (vm_compute; reflexivity).
    eassert (str_encode name16 = Some _) as Hb by (vm_compute; reflexivity).
    edestruct (proj2 (addfs_name_limit (files w) (cursor w) (stdin w)
                        (stdout w) (clock w) img name16 _ _ _ _ _
                        Hfs Hfile Hh Hes Hb ltac:(vm_compute; reflexivity)))
      as (e & Hrun & He); [vm_compute; lia|].
    eexists _, e. split; [reflexivity|]. split; [exact Hb|].
    split; [reflexivity|]. split; [exact Hrun|exact He].
Defined.

(** C2, at a container whose 32 slots are taken: [addfs] of a new name
    fails, with the [TypeError] of [None * ENTRY_SIZE], only after it has
    written the payload and its padding at [next_free_offset]; the
    container has 64 bytes more than before. *)
Theorem addfs_full_container_writes_payload :
  exists h es,
    header_of (image full_host) = Some h
    /\ entries_of (image full_host) = Some es
    /\ file_count h + deleted_files h = 32
    /\ forallb (fun e => negb (is_empty e)) es = true
    /\ files full_host !! (str "f32") = Some ["A"%byte]
    /\ (addfs img (str "f32") full_host).1 = Raise TypeError
    /\ length (image full_host) = 4160%nat
    /\ image (addfs img (str "f32") full_host).2
       = image full_host ++ ["A"%byte] ++ zeros 63
    /\ image (addfs img (str "f32") full_host).2 <> image full_host.
Proof.
  eexists _, _.
  split; [vm_compute; reflexivity|]. split; [vm_compute; reflexivity|].
  split; [vm_compute; reflexivity|]. split; [vm_compute; reflexivity|].
  split; [vm_compute; reflexivity|]. split; [vm_compute; reflexivity|].
  split; [vm_compute; reflexivity|]. split; [vm_compute; reflexivity|].
  intros H. apply (f_equal length) in H. vm_compute in H. discriminate.
Qed.

(** C4, at the operations [mkfs], [addfs a.txt], [addfs b.txt],
    [rmfs a.txt], [rmfs a.txt]: all five return, and the header then
    counts 0 live and 2 deleted files where the table has one live and one
    flagged entry. *)
Theorem counters_after_double_remove :
  let ops := [mkfs img; addfs img (str "a.txt"); addfs img (str "b.txt");
              rmfs img (str "a.txt"); rmfs img (str "a.txt")] in
  all_return ops host = true
  /\ exists h es,
       header_of (image (after ops host)) = Some h
       /\ entries_of (image (after ops host)) = Some es
       /\ file_count h = 0 /\ count live es = 1
       /\ deleted_files h = 2 /\ count flagged es = 1.
Proof.
  split; [vm_compute; reflexivity|]. eexists _, _.
  split; [vm_compute; reflexivity|]. split; [vm_compute; reflexivity|].
  repeat split; vm_compute; reflexivity.
Qed.

(** * Remove *)

Lemma slot_offset (i : nat) :
  Z.to_nat (FILE_TABLE_OFFSET + Z.of_nat i * ENTRY_SIZE) = (64 + 64 * i)%nat.
Proof. unfold FILE_TABLE_OFFSET, HEADER_SIZE, ENTRY_SIZE. lia. Qed.

Section run_rmfs.
Context (F : gmap pystr bytes) (C : nat) (I O : list pystr) (K : Z).
Context (fs_path remove_file : pystr) (c q filename : bytes).
Context (h : Header) (es : list FileEntry) (i : nat) (e : FileEntry).
Context (Hfs : F !! fs_path = Some c) (Hfile : F !! remove_file = Some q).
Context (Hname : encode_filename remove_file = Ret filename).
Context (Hh : header_of c = Some h) (Hes : entries_of c = Some es).
Context (Hfind : list_find (fun entry => name entry = filename) es
                 = Some (i, e)).

Lemma set_flag_fits : FileEntry_fits (set_flag 1 e).
Proof.
  apply list_find_Some in Hfind as (Hi & _).
  pose proof (entries_of_fits _ _ _ _ Hes Hi) as Hfit.
  apply FileEntry_fits_inv in Hfit.
  apply FileEntry_fits_intro; cbn [name start length_ type_ flag e_reserved0
    created e_reserved1 set_flag]; try done; lia.
Qed.

(** [rmfs] up to the header: the entry is written back with flag 1. *)
Lemma rmfs_run eb :
  FileEntry_pack (set_flag 1 e) = Some eb ->
  rmfs fs_path remove_file (mkWorld F C I O K)
  = match Header_pack (removed_header h) with
    | Some hb =>
        (Ret tt,
         mkWorld (<[fs_path := write_at (write_at c (64 + 64 * i) eb) 0 hb]> F)
           64 I
           (O ++ [(str "File " ++ remove_file
                   ++ str " was removed from the file system " ++ fs_path)
                  ++ [10%N]]) K)
    | None =>
        (Raise struct_error,
         mkWorld (<[fs_path := write_at c (64 + 64 * i) eb]> F) 0 I O K)
    end.
Proof.
  intros Heb.
  destruct (list_find_index _ _ _ _ Hfind) as (Hcmp & Hidx & _).
  unfold rmfs.
  mstep path_exists_true. mstep assert_true.
  mstep path_exists_true. mstep assert_true.
  mstep lift_ret. mstep open_existing_run.
  mstep read_header_ok. mstep read_entries_ok.
  mstep lift_ret. mstep lift_ret.
  mstep write_entry_ok;
    [|unfold FILE_TABLE_OFFSET, HEADER_SIZE, ENTRY_SIZE; lia].
  rewrite slot_offset. fold (removed_header h).
  destruct (Header_pack (removed_header h)) as [hb|] eqn:Hhb.
  - mstep write_header_ok. rewrite print_run. by rewrite insert_insert_eq.
  - by mraise write_header_fail.
Qed.
End run_rmfs.

(** * The table and the payloads under the writes of the operations *)

Section table.
Local Open Scope nat_scope.

Lemma read_at_nat (c : bytes) pos k :
  read_at c pos (Z.of_nat k) = take k (drop pos c).
Proof.
  unfold read_at. rewrite (proj2 (Z.ltb_ge (Z.of_nat k) 0)) by lia.
  by rewrite Nat2Z.id.
Qed.

Lemma entries_of_some_length c es : entries_of c = Some es -> 2112 ≤ length c.
Proof.
  intros Hes. pose proof (entries_of_length _ _ Hes) as Hlen.
  destruct (lookup_lt_is_Some_2 es 31 ltac:(lia)) as [e He].
  pose proof (entries_of_lookup _ _ _ _ Hes He) as Hu.
  apply FileEntry_unpack_length in Hu.
  rewrite length_take, length_drop in Hu. lia.
Qed.

(** A write into the data region leaves the header and the table. *)
Lemma header_of_write_data c pos bs :
  64 ≤ pos -> 64 ≤ length c -> header_of (write_at c pos bs) = header_of c.
Proof.
  intros Hpos Hlen. unfold header_of.
  by rewrite take_write_at_before by lia.
Qed.

Lemma entries_of_write_data c pos bs :
  2112 ≤ pos -> 2112 ≤ length c ->
  entries_of (write_at c pos bs) = entries_of c.
Proof.
  intros Hpos Hlen. apply entries_of_ext.
  apply slice_write_at_before; lia.
Qed.

(** A write of the header leaves the table and the data region. *)
Lemma entries_of_write_header c hb :
  length hb = 64 -> entries_of (write_at c 0 hb) = entries_of c.
Proof.
  intros Hlen. apply entries_of_ext.
  apply slice_write_at_after. lia.
Qed.

Lemma header_of_write_header c h hb :
  Header_pack h = Some hb -> Header_fits h ->
  header_of (write_at c 0 hb) = Some h.
Proof.
  intros Hp Hfit. unfold header_of.
  destruct (Header_unpack_pack _ Hfit) as (d & Hd & Hlen & Hu).
  assert (d = hb) as -> by congruence.
  pose proof (slice_write_at_same c 0 hb) as Hs.
  rewrite drop_0, Hlen in Hs. by rewrite Hs.
Qed.

(** A write of one entry changes that entry of the table. *)
Lemma entries_of_write_entry c es i e eb :
  entries_of c = Some es -> i < 32 ->
  FileEntry_pack e = Some eb -> FileEntry_fits e ->
  entries_of (write_at c (64 + 64 * i) eb) = Some (<[i := e]> es).
Proof.
  intros Hes Hi Hp Hfit.
  pose proof (entries_of_some_length _ _ Hes) as Hlen.
  pose proof (entries_of_length _ _ Hes) as Hn.
  destruct (FileEntry_unpack_pack _ Hfit) as (d & Hd & Hdl & Hu).
  assert (d = eb) as -> by congruence.
  apply entries_from_intro; [by rewrite length_insert|].
  intros j e' Hj.
  destruct (decide (j = i)) as [->|Hne].
  - rewrite list_lookup_insert_eq in Hj by lia. injection Hj as <-.
    pose proof (slice_write_at_same c (64 + 64 * i) eb) as Hs.
    rewrite Hdl in Hs. by rewrite Hs.
  - rewrite list_lookup_insert_ne in Hj by done.
    pose proof (lookup_lt_Some _ _ _ Hj) as Hj32.
    rewrite <- (entries_of_lookup _ _ _ _ Hes Hj). f_equal.
    destruct (decide (j < i)).
    + apply slice_write_at_before; lia.
    + apply slice_write_at_after. lia.
Qed.

Lemma header_of_write_entry c i eb :
  64 ≤ length c -> header_of (write_at c (64 + 64 * i) eb) = header_of c.
Proof. intros. apply header_of_write_data; lia. Qed.

(** The data region from [pos] on is not touched by a write that ends
    before [pos]. *)
Lemma payload_write_before c pos bs p k :
  pos + length bs ≤ p ->
  take k (drop p (write_at c pos bs)) = take k (drop p c).
Proof. apply slice_write_at_after. Qed.
End table.

(** * Extract *)

Section run_getfs.
Context (F : gmap pystr bytes) (C : nat) (I O : list pystr) (K : Z).
Context (fs_path extraction_file : pystr) (c filename : bytes).
Context (es : list FileEntry) (i : nat) (e : FileEntry).
Context (Hfs : F !! fs_path = Some c).
Context (Hname : encode_filename extraction_file = Ret filename).
Context (Hes : entries_of c = Some es).
Context (Hfind : list_find (fun entry => name entry = filename) es
                 = Some (i, e)).

Lemma input_run prompt answer C' :
  input prompt (mkWorld F C' (answer :: I) O K)
  = (Ret answer, mkWorld F C' I (O ++ [prompt]) K).
Proof. done. Qed.

Lemma create_file_run (G : gmap pystr bytes) dest C' I' O' :
  create_file dest (mkWorld G C' I' O' K)
  = (Ret tt, mkWorld (<[dest := []]> G) C' I' O' K).
Proof. done. Qed.

Lemma write_first_run (G : gmap pystr bytes) dest d data C' I' O' :
  G !! dest = Some d ->
  write_first dest data (mkWorld G C' I' O' K)
  = (Ret tt, mkWorld (<[dest := write_at d 0 data]> G) C' I' O' K).
Proof. intros H. unfold write_first. simpl. by rewrite H. Qed.

Lemma write_at_empty (data : bytes) : write_at [] 0 data = data.
Proof.
  destruct data as [|b data]; [done|]. unfold write_at.
  rewrite take_nil, drop_nil. simpl. by rewrite app_nil_r.
Qed.

Lemma start_nonneg : 0 <= start e.
Proof.
  apply list_find_Some in Hfind as (Hi & _).
  pose proof (entries_of_fits _ _ _ _ Hes Hi) as Hfit.
  apply FileEntry_fits_inv in Hfit. lia.
Qed.

(** [getfs] when a host file of the name exists: the prompt is answered and
    the payload goes to the destination. *)
Lemma getfs_run_existing q answer :
  F !! extraction_file = Some q ->
  destination extraction_file answer ≠ fs_path ->
  getfs fs_path extraction_file (mkWorld F C (answer :: I) O K)
  = (Ret tt,
     mkWorld (<[destination extraction_file answer := payload c e]> F)
       (Z.to_nat (start e) + length (payload c e)) I
       (O ++ [getfs_prompt extraction_file]
          ++ [getfs_message fs_path (destination extraction_file answer)])
       K).
Proof.
  intros Hq Hdest.
  destruct (list_find_index _ _ _ _ Hfind) as (Hcmp & Hidx & _).
  pose proof start_nonneg as Hstart.
  unfold getfs.
  mstep path_exists_true. mstep assert_true. mstep lift_ret.
  mstep open_existing_run. mstep read_entries_ok.
  mstep lift_ret. mstep lift_ret. mstep path_exists_true.
  assert ((next_step ← input (getfs_prompt extraction_file);
           mret (if bool_decide (next_step ≠ OVERWRITE) then next_step
                 else extraction_file))
            (mkWorld F 2112 (answer :: I) O K)
          = (Ret (destination extraction_file answer),
             mkWorld F 2112 I (O ++ [getfs_prompt extraction_file]) K))
    as Hin by (by erewrite bind_ret by apply input_run).
  mstep Hin. mstep create_file_run. mstep seek_run.
  mstep fread_run; [|by rewrite lookup_insert_ne].
  mstep write_first_run. rewrite print_run.
  fold (payload c e). rewrite insert_insert_eq, write_at_empty.
  unfold getfs_message, getfs_prompt. by rewrite <- app_assoc.
Qed.

(** [getfs] when no host file of the name exists. *)
Lemma getfs_run_fresh :
  F !! extraction_file = None ->
  extraction_file ≠ fs_path ->
  getfs fs_path extraction_file (mkWorld F C I O K)
  = (Ret tt,
     mkWorld (<[extraction_file := payload c e]> F)
       (Z.to_nat (start e) + length (payload c e)) I
       (O ++ [getfs_message fs_path extraction_file]) K).
Proof.
  intros Hq Hdest.
  destruct (list_find_index _ _ _ _ Hfind) as (Hcmp & Hidx & _).
  pose proof start_nonneg as Hstart.
  unfold getfs.
  mstep path_exists_true. mstep assert_true. mstep lift_ret.
  mstep open_existing_run. mstep read_entries_ok.
  mstep lift_ret. mstep lift_ret. mstep path_exists_false.
  mstep mret_run. mstep create_file_run. mstep seek_run.
  mstep fread_run; [|by rewrite lookup_insert_ne].
  mstep write_first_run. rewrite print_run.
  fold (payload c e). by rewrite insert_insert_eq, write_at_empty.
Qed.
End run_getfs.

(** * Add, then extract *)

Section added.
Context (c p b eb hb : bytes) (h : Header) (es : list FileEntry).
Context (i : nat) (e0 : FileEntry) (now : Z).
Context (Hh : header_of c = Some h) (Hes : entries_of c = Some es).
Context (Hdata : DATA_START_OFFSET <= next_free_offset h).
Context (Hlen : (length b <= 31)%nat).
Context (Hnodup : list_find (fun entry => name entry = padded_name b) es
                  = None).
Context (Hfree : list_find (fun entry => is_empty entry) es = Some (i, e0)).
Context (Hfits : addfs_fits h p now).
Context (Heb : FileEntry_pack (added_entry h b p now) = Some eb).
Context (Hhb : Header_pack (added_header h p) = Some hb).

(** The bytes of the container after a successful [addfs]. *)
Let c' : bytes :=
  write_at (write_at (with_payload c h p) (64 + 64 * i) eb) 0 hb.

Lemma free_slot_lt : (i < 32)%nat.
Proof.
  apply list_find_Some in Hfree as (Hi & _).
  apply lookup_lt_Some in Hi. by rewrite (entries_of_length _ _ Hes) in Hi.
Qed.

Lemma with_payload_length : (2112 <= length (with_payload c h p))%nat.
Proof.
  pose proof (entries_of_some_length _ _ Hes).
  unfold with_payload.
  etrans; [|apply length_write_at_le]. etrans; [|apply length_write_at_le].
  done.
Qed.

Lemma with_payload_entries : entries_of (with_payload c h p) = Some es.
Proof.
  pose proof (entries_of_some_length _ _ Hes).
  unfold DATA_START_OFFSET, HEADER_SIZE, MAX_FILES, ENTRY_SIZE in Hdata.
  unfold with_payload. rewrite !entries_of_write_data; [done|lia..|].
  etrans; [|apply length_write_at_le]. lia.
Qed.

Lemma added_entries :
  entries_of c' = Some (<[i := added_entry h b p now]> es).
Proof.
  subst c'. rewrite entries_of_write_header
    by (by apply Header_pack_length in Hhb).
  apply entries_of_write_entry;
    [apply with_payload_entries|apply free_slot_lt|done|].
  by eapply added_entry_fits.
Qed.

Lemma added_header_of : header_of c' = Some (added_header h p).
Proof.
  subst c'. apply header_of_write_header; [done|].
  by eapply added_header_fits.
Qed.

Lemma added_find :
  list_find (fun entry => name entry = padded_name b)
    (<[i := added_entry h b p now]> es)
  = Some (i, added_entry h b p now).
Proof.
  pose proof free_slot_lt as Hi.
  pose proof (entries_of_length _ _ Hes) as Hn.
  apply list_find_Some. split; [|split; [done|]].
  - apply list_lookup_insert_eq. lia.
  - intros j y Hj Hlt. rewrite list_lookup_insert_ne in Hj by lia.
    apply list_find_None in Hnodup.
    rewrite Forall_forall in Hnodup. apply Hnodup.
    by eapply list_elem_of_lookup_2.
Qed.

(** The payload of the new entry is the payload that was added. *)
Lemma added_payload : payload c' (added_entry h b p now) = p.
Proof.
  pose proof free_slot_lt as Hi.
  pose proof (header_of_fits _ _ Hh) as Hf. apply Header_fits_inv in Hf.
  unfold DATA_START_OFFSET, HEADER_SIZE, MAX_FILES, ENTRY_SIZE in Hdata.
  unfold payload. cbn [start length_ added_entry]. rewrite read_at_nat.
  subst c'.
  rewrite payload_write_before
    by (apply Header_pack_length in Hhb; lia).
  rewrite payload_write_before
    by (apply FileEntry_pack_length in Heb; lia).
  unfold with_payload.
  destruct p as [|x p'] eqn:Hp; [by rewrite take_0|]. rewrite <- Hp.
  rewrite slice_write_at_before.
  - apply slice_write_at_same.
  - lia.
  - rewrite length_write_at by (by rewrite Hp). lia.
Qed.
End added.

(** C7: on a container whose data cursor lies in the data region
    ([next_free_offset >= 2112]), for a payload [p] stored in the host file
    [new_file] whose name satisfies the add preconditions (at most 31
    encoded bytes, no entry of that name, a free slot, updated fields that
    fit), [addfs] returns and [getfs] of the same name on the resulting
    container returns and writes exactly the bytes [p] to its destination
    (the name, or the answer to the prompt; not the container itself). *)
Theorem add_then_extract
    (F : gmap pystr bytes) (C : nat) (I O : list pystr) (K : Z)
    (fs_path new_file answer : pystr) (c p b : bytes)
    (h : Header) (es : list FileEntry) (i : nat) (e0 : FileEntry) :
  F !! fs_path = Some c -> F !! new_file = Some p ->
  header_of c = Some h -> entries_of c = Some es ->
  DATA_START_OFFSET <= next_free_offset h ->
  str_encode new_file = Some b -> (length b <= 31)%nat ->
  list_find (fun entry => name entry = padded_name b) es = None ->
  list_find (fun entry => is_empty entry) es = Some (i, e0) ->
  addfs_fits h p K ->
  destination new_file answer ≠ fs_path ->
  exists w1 w2,
    addfs fs_path new_file (mkWorld F C (answer :: I) O K) = (Ret tt, w1)
    /\ getfs fs_path new_file w1 = (Ret tt, w2)
    /\ files w2 !! destination new_file answer = Some p.
Proof.
  intros Hfs Hfile Hh Hes Hdata Hb Hlen Hnodup Hfree Hfits Hdest.
  destruct (FileEntry_unpack_pack _
              (added_entry_fits c p h Hh b K Hlen Hfits)) as (eb & Heb & _).
  destruct (Header_unpack_pack _ (added_header_fits c p h Hh K Hfits))
    as (hb & Hhb & _).
  pose proof (str_encode_length _ _ Hb) as Hchars.
  eexists _, _. split; [by eapply addfs_ok|].
  assert (exists q, <[fs_path := write_at (write_at (with_payload c h p)
                                  (64 + 64 * i) eb) 0 hb]> F !! new_file
                    = Some q) as [q Hq].
  { destruct (decide (fs_path = new_file)) as [->|Hne].
    - rewrite lookup_insert_eq. by eexists.
    - rewrite lookup_insert_ne by done. by eexists. }
  split.
  - eapply getfs_run_existing;
      [apply lookup_insert_eq
      |apply encode_filename_ok; [exact Hb|lia]
      |by eapply added_entries
      |by eapply added_find
      |exact Hq
      |exact Hdest].
  - cbn [files]. rewrite lookup_insert_eq. f_equal.
    by eapply added_payload.
Qed.

Lemma add_then_extract_witness :
  exists w1 w2,
    addfs img (str "a.txt")
      (mkWorld (files fresh_host) 0 [str "copy.txt"] [] 1700000000)
    = (Ret tt, w1)
    /\ getfs img (str "a.txt") w1 = (Ret tt, w2)
    /\ files w2 !! str "copy.txt" = Some (blit "hello").
Proof.
  pose (w := fresh_host).
  assert (files w !! img = Some (image w)) as Hfs by (vm_compute; reflexivity).
  eassert (files w !! str "a.txt" = Some _) as Hfile
    by (vm_compute; reflexivity).
  eassert (header_of (image w) = Some _) as Hh by (vm_compute; reflexivity).
  eassert (entries_of (image w) = Some _) as Hes by (vm_compute; reflexivity).
  eassert (str_encode (str "a.txt") = Some _) as Hb
    by (vm_compute; reflexivity).
  lazymatch type of Hes with
  | _ = Some ?es =>
      eassert (list_find (fun entry => is_empty entry) es = Some (0%nat, _))
        as Hfree by (vm_compute; reflexivity)
  end.
  refine (add_then_extract (files w) 0 [] [] 1700000000 img (str "a.txt")
            (str "copy.txt") _ _ _ _ _ _ _ Hfs Hfile Hh Hes _ Hb _ _ Hfree
            _ _).
  - vm_compute. intros [=].
  - vm_compute. lia.
  - vm_compute. reflexivity.
  - vm_compute. repeat split; first [reflexivity | intros [=]].
  - vm_compute. intros [=].
Defined.

(** * Defragment *)

Section sequential_writes.
Local Open Scope nat_scope.

(** Two writes, one after the other, are one write. *)
Lemma write_at_app (c a b : bytes) pos :
  write_at (write_at c pos a) (pos + length a) b = write_at c pos (a ++ b).
Proof.
  destruct a as [|x a']; [by rewrite Nat.add_0_r|].
  destruct b as [|y b']; [by rewrite app_nil_r|].
  set (a := x :: a'). set (b := y :: b').
  assert (a ≠ []) as Ha by done. assert (b ≠ []) as Hb by done.
  assert (a ++ b ≠ []) as Hab by done.
  apply list_eq. intros j.
  rewrite !lookup_write_at by done.
  rewrite length_write_at, length_app by done.
  repeat case_decide; try lia; try done.
  - by rewrite lookup_app_l by lia.
  - rewrite lookup_app_r by lia. f_equal. lia.
Qed.
End sequential_writes.

Section run_dfrgfs.
Context (I O : list pystr) (K : Z) (fs_path : pystr).

Lemma compact_run keep : forall c cur (F : gmap pystr bytes) C,
  F !! fs_path = Some c -> 0 <= cur ->
  Forall (fun e => 0 <= start e /\ 0 <= length_ e) keep ->
  exists C',
    compact fs_path keep cur (mkWorld F C I O K)
    = (Ret ((compact_bytes c keep cur).1.2, (compact_bytes c keep cur).2),
       mkWorld (<[fs_path := (compact_bytes c keep cur).1.1]> F) C' I O K).
Proof.
  induction keep as [|e rest IH]; intros c cur F C Hfs Hcur Hall.
  - exists C. cbn [compact compact_bytes fst snd].
    by rewrite mret_run, insert_id.
  - apply Forall_cons_1 in Hall as [[Hs Hl] Hall].
    pose proof (padded_size_bounds _ Hl) as [Hp _].
    cbn [compact compact_bytes fst snd].
    set (data := read_at c (Z.to_nat (start e)) (length_ e)).
    set (c1 := write_at c (Z.to_nat cur) data).
    set (c2 := if padded_size (length_ e) >? length_ e
               then write_at c1 (Z.to_nat cur + length data)
                      (zeros (padded_size (length_ e) - length_ e))
               else c1).
    destruct (IH c2 (cur + padded_size (length_ e))
                (<[fs_path := c2]> F)
                (Z.to_nat cur + length data
                 + (if padded_size (length_ e) >? length_ e
                    then length (zeros (padded_size (length_ e)
                                        - length_ e))
                    else 0))%nat
                (lookup_insert_eq _ _ _) ltac:(lia) Hall) as [C' HC'].
    exists C'.
    mstep seek_run. mstep fread_run. fold data. mstep seek_run.
    mstep fwrite_run. fold c1.
    destruct (padded_size (length_ e) >? length_ e) eqn:Hgt.
    + mstep fwrite_run. rewrite insert_insert_eq. fold c2.
      mstep HC'. by rewrite mret_run, insert_insert_eq.
    + mstep mret_run. rewrite Nat.add_0_r in HC'.
      mstep HC'. by rewrite mret_run, insert_insert_eq.
Qed.

Lemma write_entries_run es : forall c tb (F : gmap pystr bytes) C,
  F !! fs_path = Some c -> pack_entries es = Some tb ->
  write_entries fs_path es (mkWorld F C I O K)
  = (Ret tt,
     mkWorld (<[fs_path := write_at c C tb]> F) (C + length tb) I O K).
Proof.
  induction es as [|e rest IH]; intros c tb F C Hfs Htb;
    cbn [write_entries pack_entries] in *.
  - injection Htb as <-. rewrite mret_run, write_at_nil, insert_id by done.
    by rewrite Nat.add_0_r.
  - destruct (FileEntry_pack e) as [a|] eqn:Ha; [|done].
    destruct (pack_entries rest) as [b|] eqn:Hb; [|done].
    injection Htb as <-.
    mstep lift_opt_some. mstep fwrite_run.
    rewrite (IH (write_at c C a) b) by (done || apply lookup_insert_eq).
    by rewrite insert_insert_eq, write_at_app, length_app, Nat.add_assoc.
Qed.

Lemma write_times_run n b : forall c (F : gmap pystr bytes) C,
  F !! fs_path = Some c ->
  write_times fs_path n b (mkWorld F C I O K)
  = (Ret tt,
     mkWorld (<[fs_path := write_at c C (concat (replicate n b))]> F)
       (C + length (concat (replicate n b))) I O K).
Proof.
  induction n as [|n IH]; intros c F C Hfs; cbn [write_times replicate concat].
  - rewrite mret_run, write_at_nil, insert_id by done.
    by rewrite Nat.add_0_r.
  - mstep fwrite_run.
    rewrite (IH (write_at c C b)) by apply lookup_insert_eq.
    by rewrite insert_insert_eq, write_at_app, length_app, Nat.add_assoc.
Qed.
Lemma kept_nonneg c es :
  entries_of c = Some es ->
  Forall (fun e => 0 <= start e /\ 0 <= length_ e) (kept es).
Proof.
  intros Hes. apply Forall_forall. intros e He.
  apply list_elem_of_filter in He as [_ He].
  apply list_elem_of_lookup in He as [i Hi].
  pose proof (entries_of_fits _ _ _ _ Hes Hi) as Hfit.
  apply FileEntry_fits_inv in Hfit. lia.
Qed.

(** [dfrgfs] from its first line to its last, when the moved entries and
    the new header fit. *)
Lemma dfrgfs_run (F : gmap pystr bytes) C c h es tb eb0 hb :
  F !! fs_path = Some c -> header_of c = Some h -> entries_of c = Some es ->
  pack_entries (compact_bytes c (kept es) DATA_START_OFFSET).1.2 = Some tb ->
  FileEntry_pack FileEntry_default = Some eb0 ->
  Header_pack
    (defragmented_header h
       (length (compact_bytes c (kept es) DATA_START_OFFSET).1.2)
       (compact_bytes c (kept es) DATA_START_OFFSET).2) = Some hb ->
  dfrgfs fs_path (mkWorld F C I O K)
  = (Ret tt,
     mkWorld (<[fs_path := defragmented c es tb eb0 hb]> F) 64 I
       (O ++ [dfrgfs_message fs_path es]) K).
Proof.
  intros Hfs Hh Hes Htb Heb0 Hhb.
  destruct (compact_run (kept es) c DATA_START_OFFSET F 2112 Hfs
              ltac:(done) (kept_nonneg _ _ Hes)) as [C' Hcompact].
  unfold dfrgfs.
  mstep path_exists_true. mstep assert_true. mstep open_existing_run.
  mstep read_header_ok. mstep read_entries_ok.
  fold (kept es). mstep Hcompact. cbn [fst snd].
  mstep seek_run; [|done].
  mstep write_entries_run. mstep lift_opt_some.
  mstep write_times_run.
  mstep write_header_ok. rewrite print_run.
  rewrite !insert_insert_eq, write_at_app.
  unfold defragmented, dfrgfs_message. do 4 f_equal.
  unfold MAX_FILES. do 4 f_equal. lia.
Qed.
End run_dfrgfs.

(** ** The compaction loop moves every kept payload intact *)

Lemma read_at_nonneg (c : bytes) pos n :
  0 <= n -> read_at c pos n = take (Z.to_nat n) (drop pos c).
Proof.
  intros Hn. unfold read_at. by rewrite (proj2 (Z.ltb_ge n 0)) by lia.
Qed.

Lemma padded_size_nonneg n : 0 <= n -> 0 <= padded_size n.
Proof. intros Hn. pose proof (padded_size_bounds n Hn). lia. Qed.

Section layout.
Implicit Types (keep : list FileEntry) (cur limit : Z).

Lemma laid_out_mono keep : forall cur cur' limit,
  cur' <= cur -> laid_out cur keep limit -> laid_out cur' keep limit.
Proof.
  destruct keep as [|e rest]; intros cur cur' limit Hle; simpl; [lia|].
  intros [H1 H2]. split; [lia|done].
Qed.

Lemma laid_out_le keep : forall cur limit,
  Forall (fun e => 0 <= start e /\ 0 <= length_ e) keep ->
  laid_out cur keep limit -> cur <= limit.
Proof.
  induction keep as [|e rest IH]; intros cur limit Hall; simpl; [done|].
  apply Forall_cons_1 in Hall as [[Hs Hl] Hall]. intros [H1 H2].
  pose proof (IH _ _ Hall H2). pose proof (padded_size_nonneg _ Hl). lia.
Qed.

Lemma laid_out_starts keep : forall cur limit e,
  Forall (fun e => 0 <= start e /\ 0 <= length_ e) keep ->
  laid_out cur keep limit -> e ∈ keep ->
  cur <= start e /\ start e + padded_size (length_ e) <= limit.
Proof.
  induction keep as [|e0 rest IH]; intros cur limit e Hall Hlay He.
  - by apply elem_of_nil in He.
  - apply Forall_cons_1 in Hall as [[Hs Hl] Hall]. destruct Hlay as [H1 H2].
    pose proof (padded_size_nonneg _ Hl).
    apply elem_of_cons in He as [->|He].
    + split; [done|]. by eapply laid_out_le.
    + destruct (IH _ _ _ Hall H2 He). lia.
Qed.
End layout.

Section one_move.
Local Open Scope nat_scope.
Context (c : bytes) (e : FileEntry) (cur : Z).
Context (Hcur : (0 <= cur)%Z) (Hs : (cur <= start e)%Z).
Context (Hl : (0 <= length_ e)%Z).
Context (Hin : (start e + length_ e <= Z.of_nat (length c))%Z).

Let data : bytes := read_at c (Z.to_nat (start e)) (length_ e).
Let c1 : bytes := write_at c (Z.to_nat cur) data.
Let c2 : bytes :=
  if (padded_size (length_ e) >? length_ e)%Z
  then write_at c1 (Z.to_nat cur + length data)
         (zeros (padded_size (length_ e) - length_ e))
  else c1.

Lemma moved_data_length : length data = Z.to_nat (length_ e).
Proof.
  subst data. rewrite read_at_nonneg by done.
  rewrite length_take, length_drop. lia.
Qed.

Lemma moved_length : length c ≤ length c2.
Proof.
  subst c2 c1. destruct (_ >? _)%Z.
  - etrans; [|apply length_write_at_le]. apply length_write_at_le.
  - apply length_write_at_le.
Qed.

(** What lies before the destination is not touched. *)
Lemma moved_before p k :
  p + k ≤ Z.to_nat cur -> take k (drop p c2) = take k (drop p c).
Proof.
  intros Hpk. assert (p + k ≤ length c) by lia.
  subst c2 c1. destruct (_ >? _)%Z.
  - rewrite slice_write_at_before; [|lia|].
    + apply slice_write_at_before; lia.
    + etrans; [|apply length_write_at_le]. lia.
  - apply slice_write_at_before; lia.
Qed.

(** The payload is at the destination. *)
Lemma moved_payload :
  take (Z.to_nat (length_ e)) (drop (Z.to_nat cur) c2) = data.
Proof.
  pose proof moved_data_length as Hd.
  destruct (decide (data = [])) as [Hnil|Hne].
  { rewrite Hnil in *. simpl in Hd. rewrite <- Hd. by rewrite take_0. }
  subst c2 c1. rewrite <- Hd. destruct (_ >? _)%Z.
  - rewrite slice_write_at_before; [|lia|].
    + apply slice_write_at_same.
    + rewrite length_write_at by done. lia.
  - apply slice_write_at_same.
Qed.

(** What lies after the padded destination is not touched. *)
Lemma moved_after p :
  (cur + padded_size (length_ e) <= Z.of_nat p)%Z -> drop p c2 = drop p c.
Proof.
  intros Hp. pose proof moved_data_length as Hd.
  pose proof (padded_size_bounds _ Hl) as [Hb _].
  subst c2 c1. destruct (_ >? _)%Z eqn:Hgt.
  - rewrite drop_write_at_after.
    + apply drop_write_at_after. lia.
    + unfold zeros. rewrite length_replicate. lia.
  - apply drop_write_at_after. lia.
Qed.
End one_move.

Lemma compact_bytes_cons c e rest cur :
  compact_bytes c (e :: rest) cur
  = let c2 :=
      if padded_size (length_ e) >? length_ e
      then write_at (write_at c (Z.to_nat cur)
                       (read_at c (Z.to_nat (start e)) (length_ e)))
             (Z.to_nat cur
              + length (read_at c (Z.to_nat (start e)) (length_ e)))
             (zeros (padded_size (length_ e) - length_ e))
      else write_at c (Z.to_nat cur)
             (read_at c (Z.to_nat (start e)) (length_ e)) in
    let r := compact_bytes c2 rest (cur + padded_size (length_ e)) in
    (r.1.1, set_start cur e :: r.1.2, r.2).
Proof. reflexivity. Qed.

(** The compaction loop on a laid-out list: every kept entry comes out at
    an offset not above the one it had, with the payload it had; the bytes
    below the first destination are untouched; the final offset is within
    the limit; and the moved entries are laid out without gaps. *)
Lemma compact_bytes_spec keep : forall c cur limit,
  0 <= cur ->
  Forall (fun e => 0 <= start e /\ 0 <= length_ e) keep ->
  laid_out cur keep limit -> limit <= Z.of_nat (length c) ->
  let r := compact_bytes c keep cur in
  length r.1.2 = length keep
  /\ (forall k e, keep !! k = Some e ->
        exists s, r.1.2 !! k = Some (set_start s e)
                  /\ cur <= s <= start e
                  /\ payload r.1.1 (set_start s e) = payload c e)
  /\ (forall p k, (p + k <= Z.to_nat cur)%nat ->
        take k (drop p r.1.1) = take k (drop p c))
  /\ cur <= r.2 <= limit
  /\ (length c <= length r.1.1)%nat
  /\ laid_out cur r.1.2 r.2.
Proof.
  induction keep as [|e rest IH]; intros c cur limit Hcur Hall Hlay Hlim.
  - cbn [compact_bytes fst snd laid_out] in *.
    split; [done|]. split; [by intros k e H|]. split; [done|].
    split; [lia|]. split; [done|lia].
  - pose proof Hall as Hall'.
    apply Forall_cons_1 in Hall' as [[Hs Hl] Hrest].
    destruct Hlay as [Hcs Hlay].
    pose proof (padded_size_bounds _ Hl) as [Hpad _].
    pose proof (laid_out_le _ _ _ Hrest Hlay) as Hend.
    assert (start e + length_ e <= Z.of_nat (length c)) as Hin by lia.
    rewrite compact_bytes_cons.
    set (c2 := if padded_size (length_ e) >? length_ e then _ else _).
    assert (length c <= length c2)%nat as Hlen2 by apply moved_length.
    assert (forall p k, (p + k <= Z.to_nat cur)%nat ->
              take k (drop p c2) = take k (drop p c)) as Hbefore
      by (intros; apply moved_before; lia).
    assert (take (Z.to_nat (length_ e)) (drop (Z.to_nat cur) c2)
            = read_at c (Z.to_nat (start e)) (length_ e)) as Hpay
      by (apply moved_payload; lia).
    assert (forall p, cur + padded_size (length_ e) <= Z.of_nat p ->
              drop p c2 = drop p c) as Hafter
      by (intros; apply moved_after; lia).
    assert (laid_out (cur + padded_size (length_ e)) rest limit) as Hlay'
      by (eapply laid_out_mono; [|exact Hlay]; lia).
    destruct (IH c2 (cur + padded_size (length_ e)) limit ltac:(lia) Hrest
                Hlay' ltac:(lia))
      as (IH1 & IH2 & IH3 & IH4 & IH5 & IH6).
    cbv zeta. cbn [fst snd].
    set (r := compact_bytes c2 rest (cur + padded_size (length_ e))) in *.
    split; [simpl; by rewrite IH1|].
    split; [|split; [|split; [lia|split; [lia|]]]].
    + intros [|k] e' He'.
      * injection He' as <-. exists cur. split; [done|]. split; [lia|].
        unfold payload. cbn [start length_ set_start].
        rewrite !read_at_nonneg by done. rewrite IH3 by lia.
        rewrite Hpay. by rewrite read_at_nonneg.
      * cbn [lookup list_lookup] in He'.
        destruct (IH2 k e' He') as (s & Hk & Hsr & Hp).
        exists s. split; [done|]. split; [lia|]. rewrite Hp.
        assert (e' ∈ rest) as Hmem by (by eapply list_elem_of_lookup_2).
        destruct (laid_out_starts _ _ _ _ Hrest Hlay Hmem) as [Hge _].
        unfold payload. unfold read_at. rewrite Hafter by lia. done.
    + intros p k Hpk. rewrite IH3 by lia. by apply Hbefore.
    + cbn [laid_out start length_ set_start]. split; [lia|done].
Qed.

(** ** The table that [dfrgfs] writes *)

Section packed_table.
Local Open Scope nat_scope.

Lemma table_slot (d : bytes) i :
  i < 32 ->
  take 64 (drop (64 + 64 * i) d)
  = take 64 (drop (64 * i) (take 2048 (drop 64 d))).
Proof.
  intros Hi. apply list_eq. intros j. destruct (decide (j < 64)).
  - rewrite !lookup_take_lt, !lookup_drop by lia.
    rewrite lookup_take_lt, lookup_drop by lia. f_equal; lia.
  - by rewrite !lookup_take_ge by lia.
Qed.

Lemma pack_entries_fits es :
  Forall FileEntry_fits es -> exists T, pack_entries es = Some T.
Proof.
  induction 1 as [|e es He _ [T HT]]; simpl; [by eexists|].
  destruct (FileEntry_unpack_pack _ He) as (raw & Hraw & _).
  rewrite Hraw, HT. by eexists.
Qed.

Lemma pack_entries_length es T :
  pack_entries es = Some T -> length T = 64 * length es.
Proof.
  revert T. induction es as [|e es IH]; intros T; simpl.
  - by intros [= <-].
  - destruct (FileEntry_pack e) as [a|] eqn:Ha; [|done].
    destruct (pack_entries es) as [b|] eqn:Hb; [|done].
    intros [= <-]. rewrite length_app, (FileEntry_pack_length _ _ Ha).
    rewrite (IH _ eq_refl). lia.
Qed.

Lemma pack_entries_slot es T j e :
  pack_entries es = Some T -> es !! j = Some e ->
  FileEntry_pack e = Some (take 64 (drop (64 * j) T)).
Proof.
  revert T j. induction es as [|e0 es IH]; intros T j;
    cbn [pack_entries]; [done|].
  destruct (FileEntry_pack e0) as [a|] eqn:Ha; [|done].
  destruct (pack_entries es) as [b|] eqn:Hb; [|done].
  intros [= <-]. pose proof (FileEntry_pack_length _ _ Ha) as Hla.
  destruct j as [|j]; cbn [lookup list_lookup].
  - intros [= <-]. rewrite Nat.mul_0_r, drop_0.
    by rewrite take_app_length' by done.
  - intros Hj. rewrite (IH _ _ eq_refl Hj). do 2 f_equal.
    rewrite drop_app_ge by lia. f_equal. lia.
Qed.

Lemma pack_entries_app a b A B :
  pack_entries a = Some A -> pack_entries b = Some B ->
  pack_entries (a ++ b) = Some (A ++ B).
Proof.
  revert A. induction a as [|e a IH]; intros A; simpl.
  - by intros [= <-].
  - destruct (FileEntry_pack e) as [x|]; [|done].
    destruct (pack_entries a) as [y|]; [|done].
    intros [= <-] HB. rewrite (IH _ eq_refl HB). by rewrite app_assoc.
Qed.

Lemma pack_entries_replicate n e eb :
  FileEntry_pack e = Some eb ->
  pack_entries (replicate n e) = Some (concat (replicate n eb)).
Proof.
  intros He. induction n as [|n IH]; simpl; [done|]. by rewrite He, IH.
Qed.

(** A container whose bytes 64..2111 are the packed entries [es] has the
    table [es]. *)
Lemma entries_of_table (d : bytes) es T :
  pack_entries es = Some T -> Forall FileEntry_fits es -> length es = 32 ->
  take 2048 (drop 64 d) = T -> entries_of d = Some es.
Proof.
  intros HT Hfit Hlen Hd. apply entries_from_intro; [done|].
  intros j e Hj. pose proof (lookup_lt_Some _ _ _ Hj) as Hj32.
  rewrite table_slot, Hd by lia.
  pose proof (pack_entries_slot _ _ _ _ HT Hj) as Hp.
  rewrite Forall_forall in Hfit.
  destruct (FileEntry_unpack_pack e) as (raw & Hraw & _ & Hu).
  { apply Hfit. by eapply list_elem_of_lookup_2. }
  congruence.
Qed.

Lemma unique_by (l : list FileEntry) x y :
  NoDup (name <$> l) -> x ∈ l -> y ∈ l -> name x = name y -> x = y.
Proof.
  induction l as [|z l IH]; intros Hnd Hx Hy Hxy.
  - by apply elem_of_nil in Hx.
  - rewrite fmap_cons in Hnd. apply NoDup_cons in Hnd as [Hz Hnd].
    apply elem_of_cons in Hx as [->|Hx]; apply elem_of_cons in Hy as [->|Hy].
    + done.
    + exfalso. apply Hz. rewrite Hxy. by apply list_elem_of_fmap_2.
    + exfalso. apply Hz. rewrite <- Hxy. by apply list_elem_of_fmap_2.
    + by apply IH.
Qed.

(** Among the entries of a table with unique names, a non-empty entry is
    the only one with its name. *)
Lemma unique_by_name es x y :
  NoDup (name <$> filter (fun entry => is_empty entry = false) es) ->
  x ∈ es -> y ∈ es -> is_empty x = false -> name x = name y -> x = y.
Proof.
  intros Hnd Hx Hy Hne Hxy.
  assert (is_empty y = false) as Hne'.
  { unfold is_empty in *. by rewrite <- Hxy. }
  eapply unique_by; [exact Hnd|..|done];
    by apply list_elem_of_filter.
Qed.
End packed_table.

(** ** A well-formed container after [dfrgfs] *)

Lemma live_true e : live e = true <-> is_empty e = false /\ flag e = 0.
Proof.
  unfold live. rewrite andb_true_iff, negb_true_iff, bool_decide_eq_true.
  done.
Qed.

Section defragmented.
Context (c : bytes) (h : Header) (es : list FileEntry).
Context (Hh : header_of c = Some h) (Hes : entries_of c = Some es).
Context (Hwf : well_formed c h es).

Let r := compact_bytes c (kept es) DATA_START_OFFSET.
Let es' := r.1.2 ++ replicate (32 - length r.1.2) FileEntry_default.

Lemma compacted_spec :
  length r.1.2 = length (kept es)
  /\ (forall k e, kept es !! k = Some e ->
        exists s, r.1.2 !! k = Some (set_start s e)
                  /\ DATA_START_OFFSET <= s <= start e
                  /\ payload r.1.1 (set_start s e) = payload c e)
  /\ (forall p k, (p + k <= Z.to_nat DATA_START_OFFSET)%nat ->
        take k (drop p r.1.1) = take k (drop p c))
  /\ DATA_START_OFFSET <= r.2 <= next_free_offset h
  /\ (length c <= length r.1.1)%nat
  /\ laid_out DATA_START_OFFSET r.1.2 r.2.
Proof.
  destruct Hwf as (Hlay & Hlen & _).
  by apply compact_bytes_spec; [|eapply kept_nonneg|..].
Qed.

Lemma kept_length : (length (kept es) <= 32)%nat.
Proof.
  rewrite <- (entries_of_length _ _ Hes). apply length_filter.
Qed.

(** Every moved entry is a kept entry with a new start. *)
Lemma compacted_entry k x :
  r.1.2 !! k = Some x ->
  exists e s, kept es !! k = Some e /\ x = set_start s e
              /\ DATA_START_OFFSET <= s <= start e
              /\ payload r.1.1 x = payload c e.
Proof.
  intros Hk. destruct compacted_spec as (Hl & Hall & _).
  pose proof (lookup_lt_Some _ _ _ Hk) as Hlt. rewrite Hl in Hlt.
  destruct (lookup_lt_is_Some_2 _ _ Hlt) as [e He].
  destruct (Hall _ _ He) as (s & Hs & Hrange & Hp).
  exists e, s. rewrite Hs in Hk. injection Hk as <-. done.
Qed.

Lemma kept_elem e :
  e ∈ kept es <-> (is_empty e = false /\ flag e = 0) /\ e ∈ es.
Proof. unfold kept. by rewrite list_elem_of_filter. Qed.

Lemma entry_fits e : e ∈ es -> FileEntry_fits e.
Proof.
  intros [i Hi]%list_elem_of_lookup. by eapply entries_of_fits.
Qed.

Lemma compacted_fits : Forall FileEntry_fits r.1.2.
Proof.
  apply Forall_forall. intros x [k Hk]%list_elem_of_lookup.
  destruct (compacted_entry _ _ Hk) as (e & s & He & -> & Hs & _).
  assert (e ∈ es) as Hin.
  { apply list_elem_of_lookup_2 in He. by apply kept_elem in He as [_ ?]. }
  pose proof (entry_fits _ Hin) as Hfit. apply FileEntry_fits_inv in Hfit.
  unfold DATA_START_OFFSET, HEADER_SIZE, MAX_FILES, ENTRY_SIZE in Hs.
  apply FileEntry_fits_intro; cbn [name start length_ type_ flag e_reserved0
    created e_reserved1 set_start]; try done; lia.
Qed.

Lemma defragmented_header_fits :
  Header_fits (defragmented_header h (length r.1.2) r.2).
Proof.
  destruct compacted_spec as (Hl & _ & _ & Hcur & _).
  pose proof kept_length as Hk.
  pose proof (header_of_fits _ _ Hh) as Hf. apply Header_fits_inv in Hf.
  unfold DATA_START_OFFSET, HEADER_SIZE, MAX_FILES, ENTRY_SIZE in Hcur.
  apply Header_fits_intro; cbn [magic version flags h_reserved0 file_count
    file_capacity file_entry_size h_reserved1 file_table_offset
    data_start_offset next_free_offset free_entry_offset deleted_files
    h_reserved2 defragmented_header]; try done;
    unfold FILE_TABLE_OFFSET, HEADER_SIZE, ENTRY_SIZE; lia.
Qed.

Lemma new_table_fits : Forall FileEntry_fits es'.
Proof.
  apply Forall_app. split; [apply compacted_fits|].
  apply Forall_replicate, FileEntry_default_fits.
Qed.

Lemma new_table_length : length es' = 32%nat.
Proof.
  destruct compacted_spec as (Hl & _). pose proof kept_length.
  unfold es'. rewrite length_app, length_replicate. lia.
Qed.

Context (tb eb0 hb : bytes).
Context (Htb : pack_entries r.1.2 = Some tb).
Context (Heb0 : FileEntry_pack FileEntry_default = Some eb0).
Context (Hhb : Header_pack (defragmented_header h (length r.1.2) r.2)
               = Some hb).

Let c' := defragmented c es tb eb0 hb.

Lemma new_table_packed :
  pack_entries es' = Some (tb ++ concat (replicate (32 - length r.1.2) eb0)).
Proof.
  apply pack_entries_app; [done|]. by apply pack_entries_replicate.
Qed.

Lemma defragmented_entries : entries_of c' = Some es'.
Proof.
  pose proof new_table_packed as HT.
  pose proof (pack_entries_length _ _ HT) as HTl.
  rewrite new_table_length in HTl.
  eapply entries_of_table; [exact HT|apply new_table_fits
                           |apply new_table_length|].
  subst c'. unfold defragmented. fold r.
  rewrite slice_write_at_after
    by (rewrite (Header_pack_length _ _ Hhb); lia).
  change 2048%nat with (64 * 32)%nat. rewrite <- HTl.
  apply slice_write_at_same.
Qed.

Lemma defragmented_header_of :
  header_of c' = Some (defragmented_header h (length r.1.2) r.2).
Proof.
  subst c'. unfold defragmented. fold r.
  apply header_of_write_header; [done|apply defragmented_header_fits].
Qed.

(** The payload of a moved entry, in the container after [dfrgfs]. *)
Lemma defragmented_payload x :
  DATA_START_OFFSET <= start x -> payload c' x = payload r.1.1 x.
Proof.
  intros Hs. pose proof new_table_packed as HT.
  apply pack_entries_length in HT. rewrite new_table_length in HT.
  unfold DATA_START_OFFSET, HEADER_SIZE, MAX_FILES, ENTRY_SIZE in Hs.
  subst c'. unfold defragmented, payload, read_at. fold r.
  rewrite drop_write_at_after
    by (rewrite (Header_pack_length _ _ Hhb); lia).
  rewrite drop_write_at_after by lia. done.
Qed.

(** Looking a live entry up by its name, before and after. *)
Lemma lookup_before e :
  e ∈ es -> is_empty e = false ->
  exists i, list_find (fun entry => name entry = name e) es = Some (i, e).
Proof.
  intros Hin Hne. destruct Hwf as (_ & _ & Hnd).
  destruct (list_find_elem_of (fun entry => name entry = name e) es e)
    as [[i x] Hfind]; [done..|].
  exists i. pose proof Hfind as Hfind'.
  apply list_find_Some in Hfind' as (Hi & Hname & _).
  assert (e = x) as ->; [|done].
  eapply unique_by_name; [exact Hnd|done| |done|done].
  by eapply list_elem_of_lookup_2.
Qed.

Lemma lookup_after e :
  e ∈ es -> is_empty e = false -> flag e = 0 ->
  exists j x, list_find (fun entry => name entry = name e) es' = Some (j, x)
              /\ payload c' x = payload c e.
Proof.
  intros Hin Hne Hflag. destruct Hwf as (_ & _ & Hnd).
  assert (e ∈ kept es) as [k Hk]%list_elem_of_lookup by (by apply kept_elem).
  destruct compacted_spec as (_ & Hall & _).
  destruct (Hall _ _ Hk) as (s & Hs & _ & _).
  destruct (list_find_elem_of (fun entry => name entry = name e) es'
              (set_start s e)) as [[j x] Hfind]; [|done|].
  { unfold es'. apply elem_of_app. left. by eapply list_elem_of_lookup_2. }
  exists j, x. split; [done|].
  apply list_find_Some in Hfind as (Hj & Hname & _).
  unfold es' in Hj. apply lookup_app_Some in Hj as [Hj|[_ Hj]].
  - destruct (compacted_entry _ _ Hj) as (e1 & s1 & He1 & -> & Hs1 & Hp).
    cbn [name set_start] in Hname.
    assert (e1 ∈ kept es) as Hk1 by (by eapply list_elem_of_lookup_2).
    apply kept_elem in Hk1 as [[Hne1 _] Hin1].
    assert (e1 = e) as ->
      by (eapply unique_by_name; [exact Hnd|done|done|done|done]).
    rewrite defragmented_payload by (cbn [start set_start]; lia). done.
  - apply lookup_replicate in Hj as [-> _]. exfalso.
    unfold is_empty in Hne. rewrite <- Hname in Hne.
    by rewrite bool_decide_true in Hne.
Qed.
End defragmented.

(** C8, as amended: on a well-formed container (the live payloads lie on
    disk in table order within the data region, each with room for its
    padding, below [next_free_offset]; the file reaches
    [next_free_offset]; names are unique among the non-empty entries), as
    is every container that the operations produce, [dfrgfs] returns, and
    for every entry that was live before it, looking its name up and
    reading its payload gives the same bytes after as before.  [getfs] of
    that name writes these bytes to its destination on the container before
    and on the container after.  The loop reads each payload whole before
    it writes it, so a payload that moves onto its own old range arrives
    intact. *)
Theorem dfrgfs_preserves_live_content
    (F : gmap pystr bytes) (C : nat) (I O : list pystr) (K : Z)
    (fs_path answer : pystr) (c : bytes) (h : Header)
    (es : list FileEntry) :
  F !! fs_path = Some c -> header_of c = Some h -> entries_of c = Some es ->
  well_formed c h es ->
  exists w1 c1,
    dfrgfs fs_path (mkWorld F C (answer :: I) O K) = (Ret tt, w1)
    /\ files w1 !! fs_path = Some c1
    /\ forall e, e ∈ es -> live e = true ->
         extract c (name e) = Some (payload c e)
         /\ extract c1 (name e) = Some (payload c e)
         /\ forall extraction_file,
              encode_filename extraction_file = Ret (name e) ->
              let dest := match F !! extraction_file with
                          | Some _ => destination extraction_file answer
                          | None => extraction_file
                          end in
              dest ≠ fs_path ->
              exists wa wb,
                getfs fs_path extraction_file (mkWorld F C (answer :: I) O K)
                = (Ret tt, wa)
                /\ getfs fs_path extraction_file w1 = (Ret tt, wb)
                /\ files wa !! dest = Some (payload c e)
                /\ files wb !! dest = Some (payload c e).
Proof.
  intros Hfs Hh Hes Hwf.
  destruct (pack_entries_fits _ (compacted_fits c h es Hes Hwf)) as [tb Htb].
  destruct (FileEntry_unpack_pack _ FileEntry_default_fits)
    as (eb0 & Heb0 & _).
  destruct (Header_unpack_pack _ (defragmented_header_fits c h es Hh Hes Hwf))
    as (hb & Hhb & _).
  pose proof (defragmented_entries c h es Hes Hwf tb eb0 hb Htb Heb0 Hhb)
    as Hes1.
  eexists _, (defragmented c es tb eb0 hb).
  split; [by eapply dfrgfs_run|]. split; [apply lookup_insert_eq|].
  intros e Hin [Hne Hflag]%live_true.
  destruct (lookup_before c h es Hwf e Hin Hne) as [i Hfind].
  destruct (lookup_after c h es Hes Hwf tb eb0 hb Htb Heb0 Hhb e Hin Hne
              Hflag) as (j & x & Hfind1 & Hpay).
  split; [unfold extract; by rewrite Hes, Hfind|].
  split; [unfold extract; by rewrite Hes1, Hfind1, Hpay|].
  intros n Hname dest Hdest. subst dest.
  destruct (F !! n) as [q|] eqn:Hq.
  - assert (exists q1, <[fs_path := defragmented c es tb eb0 hb]> F !! n
                       = Some q1) as [q1 Hq1].
    { destruct (decide (fs_path = n)) as [->|Hne'].
      - rewrite lookup_insert_eq. by eexists.
      - rewrite lookup_insert_ne by done. by eexists. }
    eexists _, _.
    split; [by eapply getfs_run_existing|].
    split; [eapply getfs_run_existing;
            [apply lookup_insert_eq|exact Hname|exact Hes1|exact Hfind1
            |exact Hq1|exact Hdest]|].
    cbn [files]. rewrite !lookup_insert_eq. by rewrite Hpay.
  - eexists _, _.
    split; [by eapply getfs_run_fresh|].
    split; [eapply getfs_run_fresh;
            [apply lookup_insert_eq|exact Hname|exact Hes1|exact Hfind1
            |by rewrite lookup_insert_ne|exact Hdest]|].
    cbn [files]. rewrite !lookup_insert_eq. by rewrite Hpay.
Qed.
Lemma dfrgfs_preserves_live_content_witness :
  exists h es w1 c1 wa wb,
    header_of (image removed_host) = Some h
    /\ entries_of (image removed_host) = Some es
    /\ well_formed (image removed_host) h es
    /\ (start <$> es !! 1%nat) = Some 2176
    /\ dfrgfs img (mkWorld (files removed_host) 0 [str "out.txt"] []
                     1700000000) = (Ret tt, w1)
    /\ files w1 !! img = Some c1
    /\ (start <$> (entries_of c1 ≫= (.!! 0%nat))) = Some 2112
    /\ extract (image removed_host) (padded_name (blit "b.txt"))
       = Some (replicate 70 "A"%byte)
    /\ extract c1 (padded_name (blit "b.txt")) = Some (replicate 70 "A"%byte)
    /\ getfs img (str "b.txt")
         (mkWorld (files removed_host) 0 [str "out.txt"] [] 1700000000)
       = (Ret tt, wa)
    /\ getfs img (str "b.txt") w1 = (Ret tt, wb)
    /\ files wa !! str "out.txt" = Some (replicate 70 "A"%byte)
    /\ files wb !! str "out.txt" = Some (replicate 70 "A"%byte).
Proof.
  pose (w := removed_host).
  assert (files w !! img = Some (image w)) as Hfs by (vm_compute; reflexivity).
  eassert (header_of (image w) = Some _) as Hh by (vm_compute; reflexivity).
  eassert (entries_of (image w) = Some _) as Hes by (vm_compute; reflexivity).
  lazymatch type of Hes with
  | _ = Some ?es =>
      lazymatch type of Hh with
      | _ = Some ?h =>
          assert (well_formed (image w) h es) as Hwf;
          [|eassert (es !! 1%nat = Some _) as He by (vm_compute; reflexivity)]
      end
  end.
  { split; [|split].
    - vm_compute. repeat split; intros [=].
    - vm_compute. intros [=].
    - apply (bool_decide_unpack _). vm_compute. reflexivity. }
  destruct (dfrgfs_preserves_live_content (files w) 0 [] [] 1700000000 img
              (str "out.txt") _ _ _ Hfs Hh Hes Hwf)
    as (w1 & c1 & Hrun & Hc1 & Hall).
  destruct (Hall _ (list_elem_of_lookup_2 _ _ _ He) eq_refl)
    as (Hbefore & Hafter & Hget).
  destruct (Hget (str "b.txt") eq_refl ltac:(vm_compute; intros [=]))
    as (wa & wb & Hga & Hgb & Hfa & Hfb).
  eexists _, _, w1, c1, wa, wb.
  split; [exact Hh|]. split; [exact Hes|]. split; [exact Hwf|].
  split; [reflexivity|]. split; [exact Hrun|]. split; [exact Hc1|].
  split.
  { clear -Hrun Hc1. vm_compute in Hrun. injection Hrun as <-.
    vm_compute in Hc1. injection Hc1 as <-. vm_compute. reflexivity. }
  split; [exact Hbefore|]. split; [exact Hafter|].
  split; [exact Hga|]. split; [exact Hgb|]. split; [exact Hfa|exact Hfb].
Defined.

(** C8, the claim as stated fails: in a container whose table order is not
    the order on disk ([a.txt] in slot 0 at 2176, [b.txt] in slot 1 at
    2112, both live, counters and alignment in order) [dfrgfs] returns, and
    it moves [a.txt] to 2112, over the payload of [b.txt], before it reads
    [b.txt]: the name [b.txt] gives 64 bytes [B] before and 64 bytes [A]
    after, by [extract] and by [getfs]. *)
Lemma dfrgfs_overwrites_unordered_payload :
  exists h es w1,
    header_of unordered_image = Some h
    /\ entries_of unordered_image = Some es
    /\ file_count h = 2 /\ deleted_files h = 0
    /\ next_free_offset h = 2240 /\ length unordered_image = 2240%nat
    /\ count live es = 2
    /\ (start <$> es !! 0%nat) = Some 2176
    /\ (start <$> es !! 1%nat) = Some 2112
    /\ dfrgfs img unordered_host = (Ret tt, w1)
    /\ extract unordered_image (padded_name (blit "b.txt"))
       = Some (replicate 64 "B"%byte)
    /\ extract (image w1) (padded_name (blit "b.txt"))
       = Some (replicate 64 "A"%byte)
    /\ files (getfs img (str "b.txt") unordered_host).2 !! str "b.txt"
       = Some (replicate 64 "B"%byte)
    /\ files (getfs img (str "b.txt") w1).2 !! str "b.txt"
       = Some (replicate 64 "A"%byte).
Proof.
  eexists _, _, _.
  split; [vm_compute; reflexivity|]. split; [vm_compute; reflexivity|].
  split; [vm_compute; reflexivity|]. split; [vm_compute; reflexivity|].
  split; [vm_compute; reflexivity|]. split; [vm_compute; reflexivity|].
  split; [vm_compute; reflexivity|]. split; [vm_compute; reflexivity|].
  split; [vm_compute; reflexivity|]. split; [vm_compute; reflexivity|].
  split; [vm_compute; reflexivity|]. split; [vm_compute; reflexivity|].
  split; vm_compute; reflexivity.
Qed.

(** * What a run that returns tells about its input *)

(** One step of a run in the hypothesis [H]: the first action returns, by
    [lem]; and: the first action raises, by [lem], so [H] is absurd. *)
Ltac hstep H lem :=
  lazymatch type of H with
  | mbind ?f ?m ?w = _ =>
      let E := fresh in
      eassert (m w = (Ret _, _)) as E
        by (eapply lem;
            first [eassumption | apply lookup_insert_eq | lia | eauto]);
      rewrite (bind_ret m f w _ _ E) in H; clear E; cbv beta iota in H
  end.

Ltac hraise H lem :=
  lazymatch type of H with
  | mbind ?f ?m ?w = _ =>
      let E := fresh in
      eassert (m w = (Raise _, _)) as E
        by (eapply lem;
            first [eassumption | apply lookup_insert_eq | lia | eauto]);
      rewrite (bind_raise m f w _ _ E) in H; clear E; discriminate H
  end.

Section run_failures.
Context (F : gmap pystr bytes) (I O : list pystr) (K : Z).
Context (f : pystr) (c : bytes) (Hf : F !! f = Some c).

Lemma read_entries_loop_fail n : forall C,
  entries_from c C n = None ->
  exists C', read_entries_loop f n (mkWorld F C I O K)
             = (Raise struct_error, mkWorld F C' I O K).
Proof.
  induction n as [|n IH]; intros C Hnone; cbn [entries_from] in Hnone;
    [done|].
  cbn [read_entries_loop].
  destruct (FileEntry_unpack (take 64 (drop C c))) as [e|] eqn:He.
  - destruct (entries_from c (C + 64) n) as [es|] eqn:Hes; [done|].
    destruct (IH _ Hes) as [C' HC']. exists C'.
    mstep fread_run.
    change (read_at c C ENTRY_SIZE) with (take 64 (drop C c)).
    rewrite He, (FileEntry_unpack_length _ _ He).
    mstep lift_opt_some. by mraise HC'.
  - eexists. mstep fread_run.
    change (read_at c C ENTRY_SIZE) with (take 64 (drop C c)).
    rewrite He. by mraise lift_opt_none.
Qed.

Lemma read_entries_fail C :
  entries_of c = None ->
  exists C', read_entries f (mkWorld F C I O K)
             = (Raise struct_error, mkWorld F C' I O K).
Proof.
  intros Hnone. destruct (read_entries_loop_fail 32 64 Hnone) as [C' HC'].
  exists C'. unfold read_entries. mstep seek_run; [|done]. exact HC'.
Qed.

(** What [read_header] and [read_entries] return is the header and the
    table of the bytes. *)
Lemma read_header_inv C h w :
  read_header f (mkWorld F C I O K) = (Ret h, w) ->
  header_of c = Some h /\ w = mkWorld F 64 I O K.
Proof.
  intros H. destruct (header_of c) as [h'|] eqn:Hh.
  - rewrite (read_header_ok F I O K f c Hf C h' Hh) in H.
    by injection H as <- <-.
  - by rewrite (read_header_short F I O K f c Hf C Hh) in H.
Qed.

Lemma read_entries_inv C es w :
  read_entries f (mkWorld F C I O K) = (Ret es, w) ->
  entries_of c = Some es /\ w = mkWorld F 2112 I O K.
Proof.
  intros H. destruct (entries_of c) as [es'|] eqn:Hes.
  - rewrite (read_entries_ok F I O K f c Hf C es' Hes) in H.
    by injection H as <- <-.
  - destruct (read_entries_fail C Hes) as [C' HC']. by rewrite HC' in H.
Qed.
End run_failures.

Lemma bind_inv {A B} (m : M A) (f : A -> M B) w b w' :
  (m ≫= f) w = (Ret b, w') ->
  exists a w1, m w = (Ret a, w1) /\ f a w1 = (Ret b, w').
Proof.
  unfold mbind, M_bind. destruct (m w) as [[a|e] w1]; [|done].
  intros H. by exists a, w1.
Qed.

Lemma assert_inv b a w w' : assert_ b a w = (Ret tt, w') -> b = true /\ w' = w.
Proof. destruct b; [by intros [= <-]|done]. Qed.

Lemma lift_opt_inv {A} e (o : option A) a w w' :
  lift_opt e o w = (Ret a, w') -> o = Some a /\ w' = w.
Proof. destruct o; [by intros [= <- <-]|done]. Qed.

Lemma lift_inv {A} (o : outcome A) a w w' :
  lift o w = (Ret a, w') -> o = Ret a /\ w' = w.
Proof. unfold lift. by intros [= <- <-]. Qed.

Lemma path_exists_inv p b w w' :
  path_exists p w = (Ret b, w') ->
  w' = w /\ (b = true -> exists c, files w !! p = Some c)
  /\ (b = false -> files w !! p = None).
Proof.
  unfold path_exists. intros [= <- <-]. split; [done|].
  destruct (files w !! p) as [c|] eqn:E.
  - rewrite bool_decide_true by (by eexists). split; [by eexists|done].
  - rewrite bool_decide_false by (by intros [? ?]). done.
Qed.

Section run_failures_write.
Context (I O : list pystr) (K : Z) (f : pystr).

Lemma write_entry_fail (F : gmap pystr bytes) C e position :
  0 <= position -> FileEntry_pack e = None ->
  write_entry e f position (mkWorld F C I O K)
  = (Raise struct_error, mkWorld F (Z.to_nat position) I O K).
Proof.
  intros Hpos Hp. unfold write_entry. mstep seek_run.
  by mraise lift_opt_none.
Qed.

Lemma write_entries_fail es : forall c (F : gmap pystr bytes) C,
  F !! f = Some c -> pack_entries es = None ->
  exists w, write_entries f es (mkWorld F C I O K) = (Raise struct_error, w).
Proof.
  induction es as [|e rest IH]; intros c F C Hf Hnone;
    cbn [pack_entries write_entries] in *; [done|].
  destruct (FileEntry_pack e) as [a|] eqn:Ha.
  - destruct (pack_entries rest) as [b|] eqn:Hb; [done|].
    destruct (IH (write_at c C a) (<[f := write_at c C a]> F)
                (C + length a)%nat (lookup_insert_eq _ _ _) eq_refl)
      as [w Hw].
    exists w. mstep lift_opt_some. mstep fwrite_run. exact Hw.
  - eexists. by mraise lift_opt_none.
Qed.
End run_failures_write.

(** ** [addfs] *)

Lemma pack_field_range c v b :
  pack_field c v = Some b ->
  match c, v with
  | Fs _, VBytes _ => True
  | Fs _, VInt _ => False
  | _, VInt z => 0 <= z < 2 ^ (8 * Z.of_nat (int_width c))
  | _, VBytes _ => False
  end.
Proof.
  destruct c, v; cbn [pack_field]; try done;
    case_bool_decide; done.
Qed.

Lemma struct_pack_cons c fmt v vs bs :
  struct_pack (c :: fmt) (v :: vs) = Some bs ->
  exists b bs', pack_field c v = Some b /\ struct_pack fmt vs = Some bs'.
Proof.
  cbn [struct_pack]. destruct (pack_field c v) as [b|]; [|done].
  destruct (struct_pack fmt vs) as [bs'|]; [|done]. by eexists _, _.
Qed.

(** A header that packs has its integers in range; with byte strings of
    the right width it fits. *)
Lemma Header_pack_fits h hb :
  Header_pack h = Some hb ->
  length (magic h) = 8%nat -> length (h_reserved2 h) = 26%nat ->
  Header_fits h.
Proof.
  unfold Header_pack, HEADER_FORMAT, Header_values. intros H Hm Hr.
  repeat match goal with
         | G : struct_pack (_ :: _) (_ :: _) = Some _ |- _ =>
             apply struct_pack_cons in G;
             let F := fresh "Hfield" in
             let G' := fresh "Hrest" in
             destruct G as (? & ? & F & G');
             apply pack_field_range in F; cbn [int_width] in F
         end.
  apply Header_fits_intro; try done; lia.
Qed.

Lemma FileEntry_pack_fits e eb :
  FileEntry_pack e = Some eb ->
  length (name e) = 32%nat -> length (e_reserved1 e) = 12%nat ->
  FileEntry_fits e.
Proof.
  unfold FileEntry_pack, FILE_ENTRY_FORMAT, FileEntry_values. intros H Hm Hr.
  repeat match goal with
         | G : struct_pack (_ :: _) (_ :: _) = Some _ |- _ =>
             apply struct_pack_cons in G;
             let F := fresh "Hfield" in
             let G' := fresh "Hrest" in
             destruct G as (? & ? & F & G');
             apply pack_field_range in F; cbn [int_width] in F
         end.
  apply FileEntry_fits_intro; try done; lia.
Qed.

Lemma encode_filename_inv n filename b :
  encode_filename n = Ret filename -> str_encode n = Some b ->
  filename = padded_name b.
Proof.
  unfold encode_filename. case_bool_decide; [done|].
  intros Hret Hb. rewrite Hb in Hret. by injection Hret as <-.
Qed.

(** A run of [addfs] that returns met every precondition, and wrote the
    payload, the entry and the header. *)
Lemma addfs_inv (F : gmap pystr bytes) C I O K fs_path new_file w' :
  addfs fs_path new_file (mkWorld F C I O K) = (Ret tt, w') ->
  exists c p h es b i e0 eb hb,
    F !! fs_path = Some c /\ F !! new_file = Some p
    /\ header_of c = Some h /\ entries_of c = Some es
    /\ str_encode new_file = Some b /\ (length b <= 31)%nat
    /\ list_find (fun entry => name entry = padded_name b) es = None
    /\ list_find (fun entry => is_empty entry) es = Some (i, e0)
    /\ FileEntry_pack (added_entry h b p K) = Some eb
    /\ Header_pack (added_header h p) = Some hb
    /\ files w'
       = <[fs_path := write_at (write_at (with_payload c h p)
                                  (64 + 64 * i) eb) 0 hb]> F.
Proof.
  intros H. unfold addfs in H.
  destruct (F !! fs_path) as [c|] eqn:Hfs;
    [hstep H path_exists_true
    |hstep H path_exists_false; hraise H assert_false].
  hstep H assert_true.
  destruct (F !! new_file) as [p|] eqn:Hfile;
    [hstep H path_exists_true
    |hstep H path_exists_false; hraise H assert_false].
  hstep H assert_true. hstep H open_existing_run.
  destruct (header_of c) as [h|] eqn:Hh;
    [hstep H read_header_ok|hraise H read_header_short].
  destruct (entries_of c) as [es|] eqn:Hes;
    [hstep H read_entries_ok
    |destruct (read_entries_fail F I O K fs_path c Hfs 64 Hes) as [C' HC'];
     hraise H HC'].
  destruct (encode_filename new_file) as [filename|e] eqn:Hname;
    [hstep H lift_ret|hraise H lift_raise].
  destruct (list_find (fun entry => name entry = filename) es)
    as [[j x]|] eqn:Hdup;
    [hraise H duplicate_check_exits|hstep H duplicate_check_passes].
  hstep H read_all_run.
  destruct (str_encode new_file) as [b|] eqn:Hb;
    [hstep H lift_opt_some|hraise H lift_opt_none].
  pose proof (encode_filename_inv _ _ _ Hname Hb) as ->.
  destruct (decide (length b <= 31)%nat) as [Hlen|Hlen];
    [rewrite bool_decide_true in H by lia; hstep H assert_true
    |rewrite bool_decide_false in H by lia; hraise H assert_false].
  pose proof (header_of_fits _ _ Hh) as Hf. apply Header_fits_inv in Hf.
  hstep H seek_run.
  hstep H fwrite_run. hstep H fwrite_run. hstep H time_now_run.
  destruct (list_find (fun entry => is_empty entry) es) as [[i e0]|] eqn:Hfree;
    [hstep H lift_opt_some|hraise H lift_opt_none].
  cbn [fst] in H.
  fold (padding_of (Z.of_nat (length p))) in H.
  fold (padded_name b) in H. fold (added_entry h b p K) in H.
  fold (added_header h p) in H.
  assert (0 <= FILE_TABLE_OFFSET + Z.of_nat i * ENTRY_SIZE) as Hpos
    by (unfold FILE_TABLE_OFFSET, HEADER_SIZE, ENTRY_SIZE; lia).
  destruct (FileEntry_pack (added_entry h b p K)) as [eb|] eqn:Heb;
    [hstep H write_entry_ok|hraise H write_entry_fail].
  destruct (Header_pack (added_header h p)) as [hb|] eqn:Hhb;
    [hstep H write_header_ok|hraise H write_header_fail].
  rewrite print_run in H. injection H as <-.
  exists c, p, h, es, b, i, e0, eb, hb.
  repeat (split; [done|]). cbn [files].
  rewrite !insert_insert_eq, slot_offset. done.
Qed.

(** ** [rmfs] *)

Lemma rmfs_inv (F : gmap pystr bytes) C I O K fs_path remove_file w' :
  rmfs fs_path remove_file (mkWorld F C I O K) = (Ret tt, w') ->
  exists c h es filename i e eb hb,
    F !! fs_path = Some c
    /\ encode_filename remove_file = Ret filename
    /\ header_of c = Some h /\ entries_of c = Some es
    /\ list_find (fun entry => name entry = filename) es = Some (i, e)
    /\ FileEntry_pack (set_flag 1 e) = Some eb
    /\ Header_pack (removed_header h) = Some hb
    /\ files w'
       = <[fs_path := write_at (write_at c (64 + 64 * i) eb) 0 hb]> F.
Proof.
  intros H.
  destruct (F !! fs_path) as [c|] eqn:Hfs;
    [|unfold rmfs in H; hstep H path_exists_false; hraise H assert_false].
  destruct (F !! remove_file) as [q|] eqn:Hfile;
    [|unfold rmfs in H; hstep H path_exists_true; hstep H assert_true;
      hstep H path_exists_false; hraise H assert_false].
  destruct (encode_filename remove_file) as [filename|e] eqn:Hname;
    [|unfold rmfs in H; hstep H path_exists_true; hstep H assert_true;
      hstep H path_exists_true; hstep H assert_true; hraise H lift_raise].
  destruct (header_of c) as [h|] eqn:Hh;
    [|unfold rmfs in H; hstep H path_exists_true; hstep H assert_true;
      hstep H path_exists_true; hstep H assert_true; hstep H lift_ret;
      hstep H open_existing_run; hraise H read_header_short].
  destruct (entries_of c) as [es|] eqn:Hes;
    [|unfold rmfs in H; hstep H path_exists_true; hstep H assert_true;
      hstep H path_exists_true; hstep H assert_true; hstep H lift_ret;
      hstep H open_existing_run; hstep H read_header_ok;
      destruct (read_entries_fail F I O K fs_path c Hfs 64 Hes) as [C' HC'];
      hraise H HC'].
  destruct (list_find (fun entry => name entry = filename) es)
    as [[i e]|] eqn:Hfind;
    [|unfold rmfs in H; hstep H path_exists_true; hstep H assert_true;
      hstep H path_exists_true; hstep H assert_true; hstep H lift_ret;
      hstep H open_existing_run; hstep H read_header_ok;
      hstep H read_entries_ok;
      pose proof (compare_filenames_none _ _ Hfind);
      hraise H lift_raise].
  assert (FileEntry_fits (set_flag 1 e)) as Hfit
    by (eapply set_flag_fits; eassumption).
  destruct (FileEntry_unpack_pack _ Hfit) as (eb & Heb & _).
  rewrite (rmfs_run F C I O K fs_path remove_file c q filename h es i e
             Hfs Hfile Hname Hh Hes Hfind eb Heb) in H.
  destruct (Header_pack (removed_header h)) as [hb|] eqn:Hhb; [|done].
  injection H as <-. by exists c, h, es, filename, i, e, eb, hb.
Qed.

(** ** [dfrgfs] *)

Lemma seek_table (F : gmap pystr bytes) C I O K :
  seek FILE_TABLE_OFFSET (mkWorld F C I O K)
  = (Ret tt, mkWorld F 64 I O K).
Proof. done. Qed.

Lemma dfrgfs_inv (F : gmap pystr bytes) C I O K fs_path w' :
  dfrgfs fs_path (mkWorld F C I O K) = (Ret tt, w') ->
  exists c h es tb eb0 hb,
    F !! fs_path = Some c
    /\ header_of c = Some h /\ entries_of c = Some es
    /\ pack_entries (compact_bytes c (kept es) DATA_START_OFFSET).1.2
       = Some tb
    /\ FileEntry_pack FileEntry_default = Some eb0
    /\ Header_pack
         (defragmented_header h
            (length (compact_bytes c (kept es) DATA_START_OFFSET).1.2)
            (compact_bytes c (kept es) DATA_START_OFFSET).2) = Some hb
    /\ files w' = <[fs_path := defragmented c es tb eb0 hb]> F.
Proof.
  intros H.
  destruct (FileEntry_unpack_pack _ FileEntry_default_fits)
    as (eb0 & Heb0 & _).
  destruct (F !! fs_path) as [c|] eqn:Hfs;
    [|unfold dfrgfs in H; hstep H path_exists_false; hraise H assert_false].
  destruct (header_of c) as [h|] eqn:Hh;
    [|unfold dfrgfs in H; hstep H path_exists_true; hstep H assert_true;
      hstep H open_existing_run; hraise H read_header_short].
  destruct (entries_of c) as [es|] eqn:Hes;
    [|unfold dfrgfs in H; hstep H path_exists_true; hstep H assert_true;
      hstep H open_existing_run; hstep H read_header_ok;
      destruct (read_entries_fail F I O K fs_path c Hfs 64 Hes) as [C' HC'];
      hraise H HC'].
  destruct (compact_run I O K fs_path (kept es) c DATA_START_OFFSET F 2112
              Hfs ltac:(done) (kept_nonneg _ _ Hes)) as [C' Hcompact].
  destruct (pack_entries (compact_bytes c (kept es) DATA_START_OFFSET).1.2)
    as [tb|] eqn:Htb.
  - destruct (Header_pack
                (defragmented_header h
                   (length (compact_bytes c (kept es) DATA_START_OFFSET).1.2)
                   (compact_bytes c (kept es) DATA_START_OFFSET).2))
      as [hb|] eqn:Hhb.
    + rewrite (dfrgfs_run I O K fs_path F C c h es tb eb0 hb) in H by done.
      injection H as <-. by exists c, h, es, tb, eb0, hb.
    + unfold dfrgfs in H. hstep H path_exists_true. hstep H assert_true.
      hstep H open_existing_run. hstep H read_header_ok.
      hstep H read_entries_ok. fold (kept es) in H. hstep H Hcompact.
      cbn [fst snd] in H. hstep H seek_table. hstep H write_entries_run.
      hstep H lift_opt_some. hstep H write_times_run.
      hraise H write_header_fail.
  - unfold dfrgfs in H. hstep H path_exists_true. hstep H assert_true.
    hstep H open_existing_run. hstep H read_header_ok.
    hstep H read_entries_ok. fold (kept es) in H. hstep H Hcompact.
    cbn [fst snd] in H. hstep H seek_table.
    destruct (write_entries_fail I O K fs_path _
                (compact_bytes c (kept es) DATA_START_OFFSET).1.1
                (<[fs_path := (compact_bytes c (kept es)
                                 DATA_START_OFFSET).1.1]> F) 64%nat
                (lookup_insert_eq _ _ _) Htb) as [w Hw].
    hraise H Hw.
Qed.

(** ** [mkfs] *)

Lemma Header_default_packs :
  Header_pack Header_default = Some (default [] (Header_pack Header_default)).
Proof. vm_compute. reflexivity. Qed.

Lemma FileEntry_default_packs :
  FileEntry_pack FileEntry_default
  = Some (default [] (FileEntry_pack FileEntry_default)).
Proof. vm_compute. reflexivity. Qed.

Lemma open_truncate_run (F : gmap pystr bytes) C I O K f :
  open_truncate f (mkWorld F C I O K)
  = (Ret tt, mkWorld (<[f := []]> F) 0 I O K).
Proof. done. Qed.

(** Whatever the host held, a run of [mkfs] that returns leaves a fresh
    container. *)
Lemma mkfs_inv fs_path w w' :
  mkfs fs_path w = (Ret tt, w') -> files w' !! fs_path = Some fresh_image.
Proof.
  intros H. unfold mkfs in H.
  apply bind_inv in H as (ex & w1 & _ & H).
  apply bind_inv in H as ([] & [G C I O K] & _ & H).
  pose proof Header_default_packs as Hhp.
  pose proof FileEntry_default_packs as Hep.
  hstep H open_truncate_run. hstep H lift_opt_some. hstep H fwrite_run.
  hstep H lift_opt_some. hstep H write_times_run.
  rewrite print_run in H. injection H as <-. cbn [files].
  rewrite lookup_insert_eq. vm_compute. reflexivity.
Qed.

Lemma fresh_image_header : header_of fresh_image = Some Header_default.
Proof. vm_compute. reflexivity. Qed.

Lemma fresh_image_entries :
  entries_of fresh_image = Some (replicate 32 FileEntry_default).
Proof. vm_compute. reflexivity. Qed.

(** * The containers that the operations produce are well formed *)

Section lists.
Context {A : Type}.
Implicit Types (l : list A).

Lemma filter_all (P : A -> Prop) `{!forall x, Decision (P x)} l :
  Forall P l -> filter P l = l.
Proof.
  induction 1 as [|x l Hx _ IH]; [done|].
  by rewrite filter_cons_True, IH.
Qed.

Lemma filter_none (P : A -> Prop) `{!forall x, Decision (P x)} l :
  Forall (fun x => ~ P x) l -> filter P l = [].
Proof.
  induction 1 as [|x l Hx _ IH]; [done|].
  by rewrite filter_cons_False.
Qed.

Lemma NoDup_fmap_filter {B} (f : A -> B) (P : A -> Prop)
    `{!forall x, Decision (P x)} l :
  NoDup (f <$> l) -> NoDup (f <$> filter P l).
Proof.
  induction l as [|x l IH]; [done|].
  rewrite fmap_cons. intros [Hx Hnd]%NoDup_cons.
  destruct (decide (P x)).
  - rewrite filter_cons_True by done. rewrite fmap_cons.
    apply NoDup_cons. split; [|by apply IH].
    intros (y & Hy & Hin)%list_elem_of_fmap. apply Hx.
    apply list_elem_of_filter in Hin as [_ Hin].
    rewrite Hy. by apply list_elem_of_fmap_2.
  - rewrite filter_cons_False by done. by apply IH.
Qed.
End lists.

Section layout_lists.
Implicit Types (L : list FileEntry) (cur limit : Z).

Lemma laid_out_filter (P : FileEntry -> Prop) `{!forall x, Decision (P x)} L :
  forall cur limit,
    Forall (fun e => 0 <= start e /\ 0 <= length_ e) L ->
    laid_out cur L limit -> laid_out cur (filter P L) limit.
Proof.
  induction L as [|e L IH]; intros cur limit Hall Hlay; [done|].
  apply Forall_cons_1 in Hall as [[Hs Hl] Hall]. destruct Hlay as [H1 H2].
  pose proof (padded_size_nonneg _ Hl).
  destruct (decide (P e)).
  - rewrite filter_cons_True by done. split; [done|]. by apply IH.
  - rewrite filter_cons_False by done.
    eapply laid_out_mono; [|by apply IH]. lia.
Qed.

Lemma laid_out_snoc L e : forall cur limit limit',
  laid_out cur L limit -> limit <= start e ->
  start e + padded_size (length_ e) <= limit' ->
  laid_out cur (L ++ [e]) limit'.
Proof.
  induction L as [|x L IH]; intros cur limit limit' Hlay H1 H2; simpl in *.
  - split; lia.
  - destruct Hlay as [Hx Hlay]. split; [done|]. by eapply IH.
Qed.

Lemma laid_out_insert L : forall i e e' cur limit,
  L !! i = Some e -> start e' = start e -> length_ e' = length_ e ->
  laid_out cur L limit -> laid_out cur (<[i := e']> L) limit.
Proof.
  induction L as [|x L IH]; intros i e e' cur limit Hi Hs Hl Hlay; [done|].
  destruct Hlay as [Hx Hlay]. destruct i as [|i]; simpl in *.
  - injection Hi as ->. rewrite Hs, Hl. done.
  - split; [done|]. by eapply IH.
Qed.
End layout_lists.

Lemma is_empty_name e e' : name e' = name e -> is_empty e' = is_empty e.
Proof. unfold is_empty. by intros ->. Qed.

Lemma entries_nonneg c es :
  entries_of c = Some es ->
  Forall (fun e => 0 <= start e /\ 0 <= length_ e) es.
Proof.
  intros Hes. apply Forall_forall. intros e [i Hi]%list_elem_of_lookup.
  pose proof (entries_of_fits _ _ _ _ Hes Hi) as Hfit.
  apply FileEntry_fits_inv in Hfit. lia.
Qed.

(** A consistent container is well formed, with its data cursor in the
    data region. *)
Lemma consistent_well_formed c h es :
  consistent c -> header_of c = Some h -> entries_of c = Some es ->
  well_formed c h es /\ DATA_START_OFFSET <= next_free_offset h.
Proof.
  intros (h' & L & R & Hh' & Hes' & HL & HR & Hlay & Hnd & Hlen) Hh Hes.
  assert (h' = h) as -> by congruence.
  assert (es = L ++ R) as -> by congruence.
  pose proof (entries_nonneg _ _ Hes) as Hnn.
  apply Forall_app in Hnn as [HnnL _].
  split; [|by eapply laid_out_le]. split; [|split; [done|]].
  - unfold kept. rewrite filter_app.
    rewrite (filter_none _ R), app_nil_r.
    + by apply laid_out_filter.
    + eapply Forall_impl; [exact HR|]. intros e He [Hne _]. congruence.
  - rewrite filter_app, (filter_all _ L) by done.
    rewrite (filter_none _ R), app_nil_r; [done|].
    eapply Forall_impl; [exact HR|]. intros e He Hne. congruence.
Qed.

Lemma fresh_image_consistent : consistent fresh_image.
Proof.
  exists Header_default, [], (replicate 32 FileEntry_default).
  split; [apply fresh_image_header|]. split; [apply fresh_image_entries|].
  split; [constructor|]. split; [by apply Forall_replicate|].
  split; [by vm_compute|]. split; [constructor|]. by vm_compute.
Qed.

(** In a consistent table the first empty slot is the one after the
    non-empty entries. *)
Lemma first_empty_slot (L R : list FileEntry) i e0 :
  Forall (fun e => is_empty e = false) L ->
  Forall (fun e => is_empty e = true) R ->
  list_find (fun entry => is_empty entry) (L ++ R) = Some (i, e0) ->
  i = length L /\ exists R', R = e0 :: R'.
Proof.
  intros HL HR Hfind. apply list_find_Some in Hfind as (Hi & He0 & Hmin).
  destruct (decide (i < length L)%nat) as [Hlt|Hge].
  - rewrite lookup_app_l in Hi by done.
    rewrite Forall_forall in HL.
    rewrite (HL e0) in He0 by (by eapply list_elem_of_lookup_2). done.
  - destruct R as [|y R'].
    + rewrite app_nil_r in Hi. apply lookup_lt_Some in Hi. lia.
    + destruct (decide (i = length L)) as [->|Hne].
      * split; [done|]. exists R'.
        rewrite lookup_app_r, Nat.sub_diag in Hi by done.
        by injection Hi as ->.
      * exfalso. apply (Hmin (length L) y); [|lia|].
        -- by rewrite lookup_app_r, Nat.sub_diag by done.
        -- apply Forall_cons_1 in HR as [Hy _]. by rewrite Hy.
Qed.

Lemma addfs_consistent c p h es b i e0 eb hb now :
  consistent c -> header_of c = Some h -> entries_of c = Some es ->
  (length b <= 31)%nat ->
  list_find (fun entry => name entry = padded_name b) es = None ->
  list_find (fun entry => is_empty entry) es = Some (i, e0) ->
  FileEntry_pack (added_entry h b p now) = Some eb ->
  Header_pack (added_header h p) = Some hb ->
  consistent (write_at (write_at (with_payload c h p) (64 + 64 * i) eb) 0 hb).
Proof.
  intros Hcons Hh Hes Hlen Hnodup Hfree Heb Hhb.
  destruct (consistent_well_formed _ _ _ Hcons Hh Hes) as [_ Hdata].
  destruct Hcons as (h' & L & R & Hh' & Hes' & HL & HR & Hlay & Hnd & Hlim).
  assert (h' = h) as -> by congruence.
  assert (es = L ++ R) as -> by congruence.
  pose proof (header_of_fits _ _ Hh) as Hhf. apply Header_fits_inv in Hhf.
  assert (Header_fits (added_header h p)) as Hhfit
    by (eapply Header_pack_fits; [exact Hhb|..]; cbn [magic h_reserved2
          added_header]; lia).
  assert (FileEntry_fits (added_entry h b p now)) as Hefit.
  { eapply FileEntry_pack_fits; [exact Heb|..];
      cbn [name e_reserved1 added_entry]; [|done].
    apply length_padded_name. lia. }
  assert (addfs_fits h p now) as Hfits.
  { apply Header_fits_inv in Hhfit. apply FileEntry_fits_inv in Hefit.
    cbn [file_count next_free_offset added_header length_ created
         added_entry] in *. unfold addfs_fits. lia. }
  destruct (first_empty_slot _ _ _ _ HL HR Hfree) as [-> [R' ->]].
  pose proof (list_find_None (fun entry => name entry = padded_name b)
                (L ++ e0 :: R')) as [Hnone _].
  specialize (Hnone Hnodup). rewrite Forall_forall in Hnone.
  assert (is_empty (added_entry h b p now) = false) as Hnew.
  { destruct (is_empty (added_entry h b p now)) eqn:E; [|done]. exfalso.
    apply (Hnone e0); [apply elem_of_app; right; by left|].
    apply Forall_cons_1 in HR as [He0 _].
    unfold is_empty in E, He0. cbn [name added_entry] in E.
    apply bool_decide_eq_true in E, He0. congruence. }
  exists (added_header h p), (L ++ [added_entry h b p now]), R'.
  split; [by eapply added_header_of|]. split.
  { erewrite added_entries by eassumption. f_equal.
    rewrite insert_app_r_alt, Nat.sub_diag by done.
    by rewrite <- app_assoc. }
  split; [apply Forall_app; split; [done|by constructor]|].
  split; [by apply Forall_cons_1 in HR as [_ ?]|].
  pose proof (padded_size_bounds (Z.of_nat (length p)) ltac:(lia)) as [Hpad _].
  split; [|split].
  - eapply laid_out_snoc; [exact Hlay|..];
      cbn [start length_ added_entry next_free_offset added_header]; lia.
  - rewrite fmap_app. apply NoDup_app. split; [done|]. split.
    + intros x Hx Hx'. apply list_elem_of_fmap in Hx as (y & -> & Hy).
      cbn [fmap list_fmap name added_entry] in Hx'.
      apply list_elem_of_singleton in Hx'.
      apply (Hnone y); [apply elem_of_app; by left|done].
    + apply NoDup_singleton.
  - cbn [next_free_offset added_header].
    etrans; [|apply Nat2Z.inj_le; etrans; [|apply length_write_at_le];
              apply length_write_at_le].
    unfold with_payload.
    pose proof (length_padding_of (Z.of_nat (length p)) ltac:(lia)) as Hpl.
    destruct p as [|x p'] eqn:Hp; [simpl in *; lia|]. rewrite <- Hp in *.
    assert (p ≠ []) as Hne by (by rewrite Hp).
    destruct (padding_of (Z.of_nat (length p))) as [|z pad] eqn:Hpad'.
    + rewrite write_at_nil, length_write_at by done. simpl in Hpl. lia.
    + rewrite <- Hpad' in *. rewrite length_write_at by (by rewrite Hpad').
      lia.
Qed.

Lemma rmfs_consistent c h es filename i e eb hb :
  consistent c -> header_of c = Some h -> entries_of c = Some es ->
  list_find (fun entry => name entry = filename) es = Some (i, e) ->
  FileEntry_pack (set_flag 1 e) = Some eb ->
  Header_pack (removed_header h) = Some hb ->
  consistent (write_at (write_at c (64 + 64 * i) eb) 0 hb).
Proof.
  intros Hcons Hh Hes Hfind Heb Hhb.
  assert (FileEntry_fits (set_flag 1 e)) as Hefit
    by (eapply set_flag_fits; eassumption).
  destruct Hcons as (h' & L & R & Hh' & Hes' & HL & HR & Hlay & Hnd & Hlim).
  assert (h' = h) as -> by congruence.
  assert (es = L ++ R) as -> by congruence.
  pose proof (header_of_fits _ _ Hh) as Hhf. apply Header_fits_inv in Hhf.
  assert (Header_fits (removed_header h)) as Hhfit
    by (eapply Header_pack_fits; [exact Hhb|..]; cbn [magic h_reserved2
          removed_header]; lia).
  apply list_find_Some in Hfind as (Hi & _ & _).
  pose proof (lookup_lt_Some _ _ _ Hi) as Hi32.
  rewrite (entries_of_length _ _ Hes) in Hi32.
  assert (is_empty (set_flag 1 e) = is_empty e) as Hsame
    by (by apply is_empty_name).
  assert (header_of (write_at (write_at c (64 + 64 * i) eb) 0 hb)
          = Some (removed_header h)) as Hh2
    by (by apply header_of_write_header).
  assert (entries_of (write_at (write_at c (64 + 64 * i) eb) 0 hb)
          = Some (<[i := set_flag 1 e]> (L ++ R))) as Hes2.
  { rewrite entries_of_write_header by (by eapply Header_pack_length).
    by apply entries_of_write_entry. }
  assert (next_free_offset (removed_header h)
          <= Z.of_nat (length (write_at (write_at c (64 + 64 * i) eb) 0 hb)))
    as Hlim2.
  { cbn [next_free_offset removed_header].
    etrans; [exact Hlim|]. apply Nat2Z.inj_le.
    etrans; [|apply length_write_at_le]. apply length_write_at_le. }
  destruct (decide (i < length L)%nat) as [Hlt|Hge].
  - rewrite lookup_app_l in Hi by done.
    exists (removed_header h), (<[i := set_flag 1 e]> L), R.
    split; [done|]. split; [by rewrite Hes2, insert_app_l|].
    split.
    { apply Forall_insert; [done|]. rewrite Hsame.
      rewrite Forall_forall in HL. apply HL.
      by eapply list_elem_of_lookup_2. }
    split; [done|]. split; [by eapply laid_out_insert|].
    split; [|done].
    rewrite list_fmap_insert, list_insert_id; [done|].
    by rewrite list_lookup_fmap, Hi.
  - rewrite lookup_app_r in Hi by lia.
    exists (removed_header h), L, (<[(i - length L)%nat := set_flag 1 e]> R).
    split; [done|]. split; [by rewrite Hes2, insert_app_r_alt by lia|].
    split; [done|]. split; [|done].
    apply Forall_insert; [done|]. rewrite Hsame.
    rewrite Forall_forall in HR. apply HR.
    by eapply list_elem_of_lookup_2.
Qed.

Lemma dfrgfs_consistent c h es tb eb0 hb :
  consistent c -> header_of c = Some h -> entries_of c = Some es ->
  pack_entries (compact_bytes c (kept es) DATA_START_OFFSET).1.2 = Some tb ->
  FileEntry_pack FileEntry_default = Some eb0 ->
  Header_pack
    (defragmented_header h
       (length (compact_bytes c (kept es) DATA_START_OFFSET).1.2)
       (compact_bytes c (kept es) DATA_START_OFFSET).2) = Some hb ->
  consistent (defragmented c es tb eb0 hb).
Proof.
  intros Hcons Hh Hes Htb Heb0 Hhb.
  destruct (consistent_well_formed _ _ _ Hcons Hh Hes) as [Hwf _].
  pose proof (compacted_spec c h es Hes Hwf)
    as (Hlen & Hall & _ & Hcur & Hgrow & Hlay).
  pose proof (defragmented_header_of c h es Hh Hes Hwf tb eb0 hb Hhb) as Hh2.
  assert (entries_of (defragmented c es tb eb0 hb)
          = Some ((compact_bytes c (kept es) DATA_START_OFFSET).1.2
                  ++ replicate
                       (32 - length
                          (compact_bytes c (kept es) DATA_START_OFFSET).1.2)
                       FileEntry_default)) as Hes2
    by (eapply defragmented_entries; eassumption).
  set (r := compact_bytes c (kept es) DATA_START_OFFSET) in *.
  assert (name <$> r.1.2 = name <$> kept es) as Hnames.
  { apply list_eq. intros k. rewrite !list_lookup_fmap.
    destruct (kept es !! k) as [e|] eqn:Hk.
    - destruct (Hall _ _ Hk) as (s & -> & _). done.
    - apply lookup_ge_None in Hk. rewrite <- Hlen in Hk.
      apply lookup_ge_None in Hk. by rewrite Hk. }
  exists (defragmented_header h (length r.1.2) r.2), r.1.2,
    (replicate (32 - length r.1.2) FileEntry_default).
  split; [done|]. split; [done|]. split; [|split; [|split; [|split]]].
  - apply Forall_forall. intros x [k Hk]%list_elem_of_lookup.
    destruct (compacted_entry c h es Hes Hwf _ _ Hk)
      as (e & s & He & -> & _).
    apply list_elem_of_lookup_2 in He.
    unfold kept in He. apply list_elem_of_filter in He as [[Hne _] _].
    by rewrite (is_empty_name e (set_start s e)).
  - by apply Forall_replicate.
  - done.
  - rewrite Hnames.
    destruct Hwf as (_ & _ & Hnd). unfold kept.
    assert (filter (fun entry => is_empty entry = false ∧ flag entry = 0) es
            = filter (fun entry => flag entry = 0)
                (filter (fun entry => is_empty entry = false) es)) as ->.
    { clear. induction es as [|x l IH]; [done|].
      destruct (decide (is_empty x = false)) as [Hx|Hx].
      - rewrite (filter_cons_True (fun entry => is_empty entry = false))
          by done.
        destruct (decide (flag x = 0)) as [Hf|Hf].
        + rewrite !filter_cons_True by done. by rewrite IH.
        + rewrite !filter_cons_False by tauto. done.
      - rewrite (filter_cons_False (fun entry => is_empty entry = false))
          by done.
        rewrite filter_cons_False by tauto. done. }
    by apply NoDup_fmap_filter.
  - cbn [next_free_offset defragmented_header].
    destruct Hwf as (_ & Hlim & _).
    etrans; [apply Hcur|]. etrans; [exact Hlim|]. apply Nat2Z.inj_le.
    etrans; [exact Hgrow|]. unfold defragmented. fold r.
    etrans; [|apply length_write_at_le]. apply length_write_at_le.
Qed.

(** Every container that [mkfs], [addfs], [rmfs] and [dfrgfs] produce,
    whatever happens to the other files of the host, is consistent. *)
Lemma reachable_consistent fs_path w :
  reachable fs_path w ->
  exists c, files w !! fs_path = Some c /\ consistent c.
Proof.
  induction 1 as [w w' Hrun|w new_file w' _ IH Hrun|w remove_file w' _ IH Hrun
                 |w w' _ IH Hrun|w w' _ IH Hsame].
  - apply mkfs_inv in Hrun. eauto using fresh_image_consistent.
  - destruct IH as (c & Hc & Hcons). destruct w as [F C I O K].
    apply addfs_inv in Hrun. cbn [files] in Hc.
    destruct Hrun as (c0 & p & h & es & b & i & e0 & eb & hb & Hrun).
    destruct Hrun as (Hc0 & Hrest).
    assert (c0 = c) as -> by congruence.
    decompose [and] Hrest. eexists. split.
    + match goal with G : files w' = _ |- _ => rewrite G end.
      apply lookup_insert_eq.
    + eapply addfs_consistent; eassumption.
  - destruct IH as (c & Hc & Hcons). destruct w as [F C I O K].
    apply rmfs_inv in Hrun. cbn [files] in Hc.
    destruct Hrun as (c0 & h & es & filename & i & e & eb & hb & Hc0 & Hrest).
    assert (c0 = c) as -> by congruence.
    decompose [and] Hrest. eexists. split.
    + match goal with G : files w' = _ |- _ => rewrite G end.
      apply lookup_insert_eq.
    + eapply rmfs_consistent; eassumption.
  - destruct IH as (c & Hc & Hcons). destruct w as [F C I O K].
    apply dfrgfs_inv in Hrun. cbn [files] in Hc.
    destruct Hrun as (c0 & h & es & tb & eb0 & hb & Hc0 & Hrest).
    assert (c0 = c) as -> by congruence.
    decompose [and] Hrest. eexists. split.
    + match goal with G : files w' = _ |- _ => rewrite G end.
      apply lookup_insert_eq.
    + eapply dfrgfs_consistent; eassumption.
  - destruct IH as (c & Hc & Hcons). exists c. by rewrite Hsame.
Qed.

(** So the layout that [dfrgfs] and [getfs] rely on holds in every such
    container: header and table decode, the table is well formed and the
    free offset lies at or after the data region. *)
Corollary reachable_well_formed fs_path w :
  reachable fs_path w ->
  exists c h es,
    files w !! fs_path = Some c
    /\ header_of c = Some h /\ entries_of c = Some es
    /\ well_formed c h es
    /\ DATA_START_OFFSET <= next_free_offset h.
Proof.
  intros (c & Hc & Hcons)%reachable_consistent.
  pose proof Hcons as (h & L & R & Hh & Hes & _).
  exists c, h, (L ++ R). repeat (split; [done|]).
  by apply consistent_well_formed.
Qed.

(** * Creating a container *)

Lemma mkfs_writes (F : gmap pystr bytes) C I O K fs_path :
  (open_truncate fs_path;;
   packed ← lift_opt struct_error (Header_pack Header_default);
   fwrite fs_path packed;;
   entry ← lift_opt struct_error (FileEntry_pack FileEntry_default);
   write_times fs_path (Z.to_nat MAX_FILES) entry;;
   print (str "File system " ++ fs_path ++ str " was created"))
    (mkWorld F C I O K)
  = (Ret tt,
     mkWorld (<[fs_path := fresh_image]> F) 2112 I
       (O ++ [mkfs_message fs_path]) K).
Proof.
  pose proof Header_default_packs as Hhp.
  pose proof FileEntry_default_packs as Hep.
  mstep open_truncate_run. mstep lift_opt_some. mstep fwrite_run.
  mstep lift_opt_some. mstep write_times_run. rewrite print_run.
  rewrite !insert_insert_eq. f_equal.
Qed.

(** X1: [mkfs] on a path that no host file has.  It asks nothing and
    creates the container: 2112 bytes, the default header followed by 32
    empty default entries, so that the header and the table read back as
    [Header()] and 32 times [FileEntry()]; then it prints that the file
    system was created. *)
Theorem mkfs_creates_empty_container
    (F : gmap pystr bytes) (C : nat) (I O : list pystr) (K : Z)
    (fs_path : pystr) :
  F !! fs_path = None ->
  exists c,
    mkfs fs_path (mkWorld F C I O K)
    = (Ret tt,
       mkWorld (<[fs_path := c]> F) 2112 I (O ++ [mkfs_message fs_path]) K)
    /\ length c = 2112%nat
    /\ header_of c = Some Header_default
    /\ entries_of c = Some (replicate 32 FileEntry_default).
Proof.
  intros Hno. exists fresh_image. split; [|split; [|split]].
  - unfold mkfs. mstep path_exists_false. mstep mret_run.
    apply mkfs_writes.
  - vm_compute. reflexivity.
  - apply fresh_image_header.
  - apply fresh_image_entries.
Qed.
(** X2: [mkfs] on a path that exists.  It asks, and goes by the next
    line of input: [OVERWRITE] replaces the file by a fresh container,
    whatever it held; [ABORT] exits and any other answer fails the
    assertion on the answer, and in both cases every host file, the
    existing one included, is left as it was. *)
Theorem mkfs_existing_container
    (F : gmap pystr bytes) (C : nat) (I O : list pystr) (K : Z)
    (fs_path answer : pystr) (c : bytes) :
  F !! fs_path = Some c ->
  let w := mkWorld F C (answer :: I) O K in
  let asked := O ++ [mkfs_prompt fs_path] in
  (answer = OVERWRITE ->
   mkfs fs_path w
   = (Ret tt,
      mkWorld (<[fs_path := fresh_image]> F) 2112 I
        (asked ++ [mkfs_message fs_path]) K))
  /\ (answer = ABORT ->
      mkfs fs_path w
      = (Raise (SystemExit mkfs_aborted), mkWorld F C I asked K))
  /\ (answer <> OVERWRITE -> answer <> ABORT ->
      mkfs fs_path w
      = (Raise (AssertionError bad_response), mkWorld F C I asked K)).
Proof.
  intros Hfs w asked. subst w asked.
  assert (input (mkfs_prompt fs_path) (mkWorld F C (answer :: I) O K)
          = (Ret answer, mkWorld F C I (O ++ [mkfs_prompt fs_path]) K))
    as Hin by done.
  split; [|split].
  - intros ->. unfold mkfs. mstep path_exists_true.
    erewrite (bind_ret _ _ _ tt
                (mkWorld (delete fs_path F) C I
                   (O ++ [mkfs_prompt fs_path]) K));
      [by rewrite mkfs_writes, insert_delete_eq|].
    mstep Hin. rewrite (bool_decide_true (_ ∈ _)) by (by left).
    mstep assert_true. rewrite (bool_decide_false (_ = _)) by done.
    unfold os_remove. cbn [files]. rewrite Hfs. 
    unfold set_files. cbn [files cursor stdin stdout clock].
    reflexivity.
  - intros ->. unfold mkfs. mstep path_exists_true.
    erewrite bind_raise; [reflexivity|].
    mstep Hin. rewrite (bool_decide_true (_ ∈ _)) by (right; by left).
    mstep assert_true. by rewrite bool_decide_true.
  - intros Ho Ha. unfold mkfs. mstep path_exists_true.
    erewrite bind_raise; [reflexivity|].
    mstep Hin. rewrite (bool_decide_false (_ ∈ _)); [by mraise assert_false|].
    intros [->|[->|[]%elem_of_nil]%elem_of_cons]%elem_of_cons; done.
Qed.
(** * What the operations leave alone *)

Section frames.
Context {A B : Type}.

Lemma quiet_bind (m : M A) (f : A -> M B) :
  quiet m -> (forall a, quiet (f a)) -> quiet (m ≫= f).
Proof.
  intros Hm Hf w. specialize (Hm w). unfold mbind, M_bind.
  destruct (m w) as [[a|e] w1]; cbn [snd] in *; [|done].
  destruct (Hf a w1) as [-> ->]. done.
Qed.

Lemma quiet_writes_only paths (m : M A) : quiet m -> writes_only paths m.
Proof. intros Hm w p _. by destruct (Hm w) as [-> _]. Qed.

Lemma writes_only_bind paths (m : M A) (f : A -> M B) :
  writes_only paths m -> (forall a, writes_only paths (f a)) ->
  writes_only paths (m ≫= f).
Proof.
  intros Hm Hf w p Hp. specialize (Hm w p Hp). unfold mbind, M_bind.
  destruct (m w) as [[a|e] w1]; cbn [snd] in *; [|done].
  by rewrite (Hf a w1 p Hp).
Qed.
End frames.

Lemma quiet_mret {A} (a : A) : quiet (mret a : M A).
Proof. done. Qed.

Lemma quiet_raise {A} e : quiet (@raise A e).
Proof. done. Qed.

Lemma quiet_lift {A} (o : outcome A) : quiet (lift o).
Proof. done. Qed.

Lemma quiet_lift_opt {A} e (o : option A) : quiet (lift_opt e o).
Proof. by destruct o. Qed.

Lemma quiet_assert b a : quiet (assert_ b a).
Proof. by destruct b. Qed.

Lemma quiet_path_exists p : quiet (path_exists p).
Proof. done. Qed.

Lemma quiet_getsize p : quiet (getsize p).
Proof. intros w. unfold getsize. by destruct (files w !! p). Qed.

Lemma quiet_seek pos : quiet (seek pos).
Proof. intros w. unfold seek. by destruct (pos <? 0). Qed.

Lemma quiet_fread f n : quiet (fread f n).
Proof. intros w. unfold fread. by destruct (files w !! f). Qed.

Lemma quiet_open_existing f : quiet (open_existing f).
Proof. intros w. unfold open_existing. by destruct (files w !! f). Qed.

Lemma quiet_print s : quiet (print s).
Proof. done. Qed.

Lemma quiet_time_now : quiet time_now.
Proof. done. Qed.

Create HintDb quiet.
#[local] Hint Resolve quiet_mret quiet_raise quiet_lift quiet_lift_opt
  quiet_assert quiet_path_exists quiet_getsize quiet_seek quiet_fread
  quiet_open_existing quiet_print quiet_time_now : quiet.

Ltac quiet_steps :=
  repeat first
    [ apply quiet_bind; [|intros ?]
    | solve [eauto with quiet] ].

Lemma quiet_read_header f : quiet (read_header f).
Proof. unfold read_header. quiet_steps. Qed.

Lemma quiet_read_entries_loop f n : quiet (read_entries_loop f n).
Proof. induction n as [|n IH]; cbn [read_entries_loop]; quiet_steps. Qed.

Lemma quiet_read_entries f : quiet (read_entries f).
Proof.
  unfold read_entries. apply quiet_bind; [apply quiet_seek|intros _].
  apply quiet_read_entries_loop.
Qed.

#[local] Hint Resolve quiet_read_header quiet_read_entries : quiet.

Lemma quiet_gifs fs_path : quiet (gifs fs_path).
Proof. unfold gifs. quiet_steps. Qed.

Lemma quiet_catfs fs_path file : quiet (catfs fs_path file).
Proof. unfold catfs. quiet_steps. Qed.

Lemma quiet_lsfs_loop strftime_localtime es :
  forall found, quiet (lsfs_loop strftime_localtime es found).
Proof.
  induction es as [|e es IH]; intros found; cbn [lsfs_loop]; [quiet_steps|].
  destruct (is_empty e || bool_decide (flag e = 1)); [apply IH|].
  quiet_steps.
Qed.

Lemma quiet_lsfs strftime_localtime fs_path :
  quiet (lsfs strftime_localtime fs_path).
Proof.
  unfold lsfs. pose proof (quiet_lsfs_loop strftime_localtime).
  quiet_steps.
Qed.

(** X3: [gifs], [lsfs] and [catfs] only read: whatever the container holds
    and whether they return or raise, every host file, the container
    included, is afterwards what it was, and no input is consumed. *)
Theorem reading_operations_change_nothing
    (strftime_localtime : Z -> outcome pystr) (fs_path file : pystr)
    (w : world) :
  files (gifs fs_path w).2 = files w
  /\ files (lsfs strftime_localtime fs_path w).2 = files w
  /\ files (catfs fs_path file w).2 = files w
  /\ stdin (gifs fs_path w).2 = stdin w
  /\ stdin (lsfs strftime_localtime fs_path w).2 = stdin w
  /\ stdin (catfs fs_path file w).2 = stdin w.
Proof.
  destruct (quiet_gifs fs_path w), (quiet_lsfs strftime_localtime fs_path w),
    (quiet_catfs fs_path file w). done.
Qed.
Lemma writes_only_create_file paths dest :
  dest ∈ paths -> writes_only paths (create_file dest).
Proof.
  intros Hd w p Hp. unfold create_file. cbn.
  apply lookup_insert_ne. by intros ->.
Qed.

Lemma writes_only_write_first paths dest data :
  dest ∈ paths -> writes_only paths (write_first dest data).
Proof.
  intros Hd w p Hp. unfold write_first.
  destruct (files w !! dest); [|done]. cbn.
  apply lookup_insert_ne. by intros ->.
Qed.

Lemma quiet_bind_frame {A B} (m : M A) (f : A -> M B) F S p :
  quiet m ->
  (forall a w, files w = F -> stdin w = S -> files (f a w).2 !! p = F !! p) ->
  forall w, files w = F -> stdin w = S ->
            files ((m ≫= f) w).2 !! p = F !! p.
Proof.
  intros Hm Hf w HF HS. destruct (Hm w) as [Hfiles Hin].
  unfold mbind, M_bind.
  destruct (m w) as [[a|e] w1]; cbn [snd] in *.
  - apply Hf; congruence.
  - congruence.
Qed.

(** X4: [getfs] writes its destination and nothing else.  Whatever the
    container holds and whether [getfs] returns or raises, a host file that
    is neither the requested name nor the next line of input (the new name
    that the prompt may ask for) is afterwards what it was; so is the
    container, when it is neither of the two. *)
Theorem getfs_writes_destination_only
    (fs_path extraction_file p : pystr) (w : world) :
  p <> extraction_file -> head (stdin w) <> Some p ->
  files (getfs fs_path extraction_file w).2 !! p = files w !! p.
Proof.
  intros Hp Hanswer.
  remember (files w) as F eqn:HF. remember (stdin w) as S eqn:HS.
  symmetry in HF, HS.
  assert (forall dest entry,
            dest ∈ [extraction_file; default extraction_file (head S)] ->
            writes_only
              [extraction_file; default extraction_file (head S)]
              (create_file dest;;
               seek (start entry);;
               data ← fread fs_path (length_ entry);
               write_first dest data;;
               print (str "File " ++ dest
                      ++ str " was retrieved from the file system " ++ fs_path
                      ++ str " to the disk"))) as Hrest.
  { intros dest entry Hd.
    apply writes_only_bind; [by apply writes_only_create_file|intros _].
    apply writes_only_bind; [apply quiet_writes_only, quiet_seek|intros _].
    apply writes_only_bind; [apply quiet_writes_only, quiet_fread|intros d].
    apply writes_only_bind; [by apply writes_only_write_first|intros _].
    apply quiet_writes_only, quiet_print. }
  assert (p ∉ [extraction_file; default extraction_file (head S)])
    as Hout.
  { intros [->|[->|[]%elem_of_nil]%elem_of_cons]%elem_of_cons; [done|].
    clear HS. destruct S as [|answer rest]; cbn in *; congruence. }
  clear Hanswer. revert w HF HS. unfold getfs.
  apply quiet_bind_frame; [apply quiet_path_exists|intros ex].
  apply quiet_bind_frame; [apply quiet_assert|intros _].
  apply quiet_bind_frame; [apply quiet_lift|intros filename].
  apply quiet_bind_frame; [apply quiet_open_existing|intros _].
  apply quiet_bind_frame; [apply quiet_read_entries|intros entries].
  apply quiet_bind_frame; [apply quiet_lift|intros file_index].
  apply quiet_bind_frame; [apply quiet_lift|intros entry].
  apply quiet_bind_frame; [apply quiet_path_exists|intros ex'].
  intros w HF HS. destruct ex'.
  - destruct w as [F' C S' O K]. cbn [files stdin] in HF, HS. subst F' S'.
    destruct S as [|answer rest].
    + by erewrite bind_raise by reflexivity.
    + erewrite bind_ret by reflexivity.
      refine (Hrest _ entry _ _ p Hout).
      cbn [head default]. case_bool_decide.
      * apply elem_of_cons. right. by left.
      * by left.
  - erewrite bind_ret by reflexivity.
    rewrite <- HF. refine (Hrest _ entry _ _ p Hout). by left.
Qed.
(** * A missing container *)

(** X5: every operation but [mkfs] first asserts that the container
    exists.  On a host without it each one fails with that assertion and
    leaves the host as it was: none of them creates the container, reads
    input or prints. *)
Theorem operations_need_the_container
    (strftime_localtime : Z -> outcome pystr)
    (F : gmap pystr bytes) (C : nat) (I O : list pystr) (K : Z)
    (fs_path file : pystr) :
  F !! fs_path = None ->
  let w := mkWorld F C I O K in
  let failed := (Raise (AssertionError fs_does_not_exist), w) in
  gifs fs_path w = failed
  /\ addfs fs_path file w = failed
  /\ getfs fs_path file w = failed
  /\ rmfs fs_path file w = failed
  /\ lsfs strftime_localtime fs_path w = failed
  /\ catfs fs_path file w = failed
  /\ dfrgfs fs_path w = failed.
Proof.
  intros Hno w failed. subst w failed.
  repeat split;
    [unfold gifs|unfold addfs|unfold getfs|unfold rmfs|unfold lsfs
    |unfold catfs|unfold dfrgfs];
    mstep path_exists_false; by mraise assert_false.
Qed.

(** * A name that is already in the table *)

(** X6: [addfs] never overwrites an entry.  When the table has an entry of
    the name, live or flagged as deleted, [addfs] exits before it writes
    anything: the container and every other host file stay as they
    were. *)
Theorem addfs_refuses_existing_name
    (F : gmap pystr bytes) (C : nat) (I O : list pystr) (K : Z)
    (fs_path new_file : pystr) (c p filename : bytes)
    (h : Header) (es : list FileEntry) (i : nat) (e : FileEntry) :
  F !! fs_path = Some c -> F !! new_file = Some p ->
  header_of c = Some h -> entries_of c = Some es ->
  encode_filename new_file = Ret filename ->
  list_find (fun entry => name entry = filename) es = Some (i, e) ->
  addfs fs_path new_file (mkWorld F C I O K)
  = (Raise (SystemExit already_in_filesystem), mkWorld F 2112 I O K).
Proof.
  intros Hfs Hfile Hh Hes Hname Hfind. unfold addfs.
  mstep path_exists_true. mstep assert_true.
  mstep path_exists_true. mstep assert_true.
  mstep open_existing_run. mstep read_header_ok. mstep read_entries_ok.
  mstep lift_ret. by mraise duplicate_check_exits.
Qed.
(** * Remove, and what still works afterwards *)

Lemma find_name_insert (es : list FileEntry) (filename : bytes) i e e' :
  list_find (fun entry => name entry = filename) es = Some (i, e) ->
  name e' = name e ->
  list_find (fun entry => name entry = filename) (<[i := e']> es)
  = Some (i, e').
Proof.
  intros Hfind Hname.
  apply list_find_Some in Hfind as (Hi & He & Hmin).
  apply list_find_Some. split; [|split].
  - apply list_lookup_insert_eq. by eapply lookup_lt_Some.
  - congruence.
  - intros j y Hj Hlt. rewrite list_lookup_insert_ne in Hj by lia.
    by eapply Hmin.
Qed.

Lemma removed_header_fits h :
  Header_fits h -> 1 <= file_count h -> deleted_files h + 1 < 2 ^ 16 ->
  Header_fits (removed_header h).
Proof.
  intros Hfit Hc Hd. apply Header_fits_inv in Hfit.
  apply Header_fits_intro; cbn [magic version flags h_reserved0 file_count
    file_capacity file_entry_size h_reserved1 file_table_offset
    data_start_offset next_free_offset free_entry_offset deleted_files
    h_reserved2 removed_header]; try done; lia.
Qed.

Section removed.
Context (F : gmap pystr bytes) (C : nat) (I O : list pystr) (K : Z).
Context (fs_path remove_file : pystr) (c q filename : bytes).
Context (h : Header) (es : list FileEntry) (i : nat) (e : FileEntry).
Context (Hfs : F !! fs_path = Some c) (Hfile : F !! remove_file = Some q).
Context (Hname : encode_filename remove_file = Ret filename).
Context (Hh : header_of c = Some h) (Hes : entries_of c = Some es).
Context (Hfind : list_find (fun entry => name entry = filename) es
                 = Some (i, e)).
Context (Hcount : 1 <= file_count h) (Hdeleted : deleted_files h + 1 < 2 ^ 16).

(** The container after [rmfs]: one entry and the header are rewritten in
    place. *)
Lemma rmfs_returns :
  exists eb hb,
    FileEntry_pack (set_flag 1 e) = Some eb
    /\ Header_pack (removed_header h) = Some hb
    /\ length eb = 64%nat /\ length hb = 64%nat
    /\ (i < 32)%nat
    /\ rmfs fs_path remove_file (mkWorld F C I O K)
       = (Ret tt,
          mkWorld
            (<[fs_path := write_at (write_at c (64 + 64 * i) eb) 0 hb]> F)
            64 I (O ++ [rmfs_message fs_path remove_file]) K).
Proof.
  assert (FileEntry_fits (set_flag 1 e)) as Hefit
    by (eapply set_flag_fits; eassumption).
  pose proof (removed_header_fits h (header_of_fits _ _ Hh) Hcount Hdeleted)
    as Hhfit.
  destruct (FileEntry_unpack_pack _ Hefit) as (eb & Heb & Hebl & _).
  destruct (Header_unpack_pack _ Hhfit) as (hb & Hhb & Hhbl & _).
  exists eb, hb. do 4 (split; [done|]).
  pose proof Hfind as (Hi & _)%list_find_Some.
  apply lookup_lt_Some in Hi. rewrite (entries_of_length _ _ Hes) in Hi.
  split; [done|].
  erewrite rmfs_run by eassumption. by rewrite Hhb.
Qed.
End removed.
Lemma catfs_run (F : gmap pystr bytes) C I O K fs_path file c filename es i e
    text :
  F !! fs_path = Some c ->
  encode_filename file = Ret filename ->
  entries_of c = Some es ->
  list_find (fun entry => name entry = filename) es = Some (i, e) ->
  bytes_decode (payload c e) = Some text ->
  catfs fs_path file (mkWorld F C I O K)
  = (Ret tt,
     mkWorld F (Z.to_nat (start e) + length (payload c e)) I
       (O ++ [catfs_message file text]) K).
Proof.
  intros Hfs Hname Hes Hfind Hdec.
  destruct (list_find_index _ _ _ _ Hfind) as (Hcmp & Hidx & _).
  assert (0 <= start e) as Hstart.
  { apply list_find_Some in Hfind as (Hi & _).
    pose proof (entries_of_fits _ _ _ _ Hes Hi) as Hfit.
    apply FileEntry_fits_inv in Hfit. lia. }
  unfold catfs.
  mstep path_exists_true. mstep assert_true. mstep lift_ret.
  mstep open_existing_run. mstep read_entries_ok.
  mstep lift_ret. mstep lift_ret. mstep seek_run. mstep fread_run.
  fold (payload c e). mstep lift_opt_some. by rewrite print_run.
Qed.

Section after_rmfs.
Context (c eb hb : bytes) (h : Header) (es : list FileEntry).
Context (i : nat) (e : FileEntry).
Context (Hh : header_of c = Some h) (Hes : entries_of c = Some es).
Context (Hi : es !! i = Some e).
Context (Heb : FileEntry_pack (set_flag 1 e) = Some eb).
Context (Hhb : Header_pack (removed_header h) = Some hb).

Let c1 := write_at (write_at c (64 + 64 * i) eb) 0 hb.

Lemma after_rmfs_slot : (i < 32)%nat.
Proof.
  apply lookup_lt_Some in Hi. by rewrite (entries_of_length _ _ Hes) in Hi.
Qed.

Lemma after_rmfs_header : header_of c1 = Some (removed_header h).
Proof.
  pose proof (header_of_fits _ _ Hh) as Hf. apply Header_fits_inv in Hf.
  apply header_of_write_header; [done|].
  eapply Header_pack_fits; [exact Hhb|..];
    cbn [magic h_reserved2 removed_header]; lia.
Qed.

Lemma after_rmfs_entries :
  entries_of c1 = Some (<[i := set_flag 1 e]> es).
Proof.
  pose proof after_rmfs_slot.
  pose proof (entries_of_fits _ _ _ _ Hes Hi) as Hfit.
  apply FileEntry_fits_inv in Hfit.
  unfold c1.
  rewrite entries_of_write_header by (by eapply Header_pack_length).
  apply entries_of_write_entry; [done..|].
  apply FileEntry_fits_intro; cbn [name start length_ type_ flag e_reserved0
    created e_reserved1 set_flag]; try done; lia.
Qed.

Lemma after_rmfs_data : drop 2112 c1 = drop 2112 c.
Proof.
  pose proof after_rmfs_slot.
  pose proof (Header_pack_length _ _ Hhb).
  pose proof (FileEntry_pack_length _ _ Heb).
  unfold c1. rewrite !drop_write_at_after by lia. done.
Qed.

Lemma after_rmfs_length : length c1 = length c.
Proof.
  pose proof after_rmfs_slot.
  pose proof (Header_pack_length _ _ Hhb).
  pose proof (FileEntry_pack_length _ _ Heb).
  pose proof (entries_of_some_length _ _ Hes).
  unfold c1. rewrite !length_write_at_inside; [done|lia|].
  rewrite length_write_at_inside; lia.
Qed.

Lemma after_rmfs_payload x :
  DATA_START_OFFSET <= start x -> payload c1 x = payload c x.
Proof.
  intros Hs. unfold payload, read_at.
  unfold DATA_START_OFFSET, HEADER_SIZE, MAX_FILES, ENTRY_SIZE in Hs.
  replace (Z.to_nat (start x)) with (2112 + (Z.to_nat (start x) - 2112))%nat
    by lia.
  by rewrite <- !drop_drop, after_rmfs_data.
Qed.
End after_rmfs.

(** C3: [rmfs] has no test for an entry that is already flagged.  On the
    name of an entry whose flag byte is already 1, in a container whose
    counters leave room, [rmfs] returns: it does not fail.  It writes the
    entry back as it was, so that the table and everything after the header
    are byte for byte what they were and no flag goes from 0 to 1; and it
    writes a header that counts one deleted file more and one live file
    less. *)
Theorem rmfs_counts_flagged_entry_again
    (F : gmap pystr bytes) (C : nat) (I O : list pystr) (K : Z)
    (fs_path remove_file : pystr) (c q filename : bytes)
    (h : Header) (es : list FileEntry) (i : nat) (e : FileEntry) :
  F !! fs_path = Some c -> F !! remove_file = Some q ->
  encode_filename remove_file = Ret filename ->
  header_of c = Some h -> entries_of c = Some es ->
  list_find (fun entry => name entry = filename) es = Some (i, e) ->
  flag e = 1 ->
  1 <= file_count h -> deleted_files h + 1 < 2 ^ 16 ->
  exists c1 h1,
    rmfs fs_path remove_file (mkWorld F C I O K)
    = (Ret tt,
       mkWorld (<[fs_path := c1]> F) 64 I
         (O ++ [rmfs_message fs_path remove_file]) K)
    /\ header_of c1 = Some h1
    /\ entries_of c1 = Some es
    /\ drop 64 c1 = drop 64 c
    /\ h1 = removed_header h
    /\ deleted_files h1 = deleted_files h + 1
    /\ file_count h1 = file_count h - 1.
Proof.
  intros Hfs Hfile Hname Hh Hes Hfind Hflag Hcount Hdeleted.
  destruct (rmfs_returns F C I O K fs_path remove_file c q filename h es i e
              Hfs Hfile Hname Hh Hes Hfind Hcount Hdeleted)
    as (eb & hb & Heb & Hhb & _ & Hhbl & _ & Hrun).
  pose proof Hfind as (Hi & _)%list_find_Some.
  assert (set_flag 1 e = e) as Hsame by (destruct e; cbn in *; by subst).
  pose proof (entries_of_lookup _ _ _ _ Hes Hi) as Hraw.
  pose proof (FileEntry_pack_unpack _ _ Hraw) as Hpacked.
  assert (eb = take 64 (drop (64 + 64 * i) c)) as -> by congruence.
  assert (write_at c (64 + 64 * i) (take 64 (drop (64 + 64 * i) c)) = c)
    as Hc.
  { apply write_at_same. by rewrite (FileEntry_unpack_length _ _ Hraw). }
  pose proof (after_rmfs_header c (take 64 (drop (64 + 64 * i) c)) hb h i Hh
                Hhb) as Hh1.
  pose proof (after_rmfs_entries c _ hb h es i e Hes Hi Heb Hhb) as Hes1.
  rewrite Hsame, list_insert_id in Hes1 by done.
  exists (write_at (write_at c (64 + 64 * i)
                      (take 64 (drop (64 + 64 * i) c))) 0 hb),
    (removed_header h).
  split; [exact Hrun|]. split; [exact Hh1|]. split; [exact Hes1|].
  split; [|done].
  rewrite Hc. apply drop_write_at_after. lia.
Qed.

(** X7: [rmfs] rewrites one entry and the header, in place.  On a container
    whose table has the name and whose counters leave room, [rmfs]
    returns; afterwards the header has one live file less and one deleted
    file more, the entry of the name has flag 1 and every other entry is
    what it was, the data region is byte for byte what it was (the payload
    is not erased), and the file has the same size. *)
Theorem rmfs_flags_entry_in_place
    (F : gmap pystr bytes) (C : nat) (I O : list pystr) (K : Z)
    (fs_path remove_file : pystr) (c q filename : bytes)
    (h : Header) (es : list FileEntry) (i : nat) (e : FileEntry) :
  F !! fs_path = Some c -> F !! remove_file = Some q ->
  encode_filename remove_file = Ret filename ->
  header_of c = Some h -> entries_of c = Some es ->
  list_find (fun entry => name entry = filename) es = Some (i, e) ->
  1 <= file_count h -> deleted_files h + 1 < 2 ^ 16 ->
  exists c1,
    rmfs fs_path remove_file (mkWorld F C I O K)
    = (Ret tt,
       mkWorld (<[fs_path := c1]> F) 64 I
         (O ++ [rmfs_message fs_path remove_file]) K)
    /\ header_of c1 = Some (removed_header h)
    /\ entries_of c1 = Some (<[i := set_flag 1 e]> es)
    /\ drop 2112 c1 = drop 2112 c
    /\ length c1 = length c.
Proof.
  intros Hfs Hfile Hname Hh Hes Hfind Hcount Hdeleted.
  destruct (rmfs_returns F C I O K fs_path remove_file c q filename h es i e
              Hfs Hfile Hname Hh Hes Hfind Hcount Hdeleted)
    as (eb & hb & Heb & Hhb & _ & _ & _ & Hrun).
  pose proof Hfind as (Hi & _)%list_find_Some.
  eexists. split; [exact Hrun|].
  split; [by eapply after_rmfs_header|].
  split; [by eapply after_rmfs_entries|].
  split; [by eapply after_rmfs_data|by eapply after_rmfs_length].
Qed.

(** X8: a removed file can still be read.  After a [rmfs] that returned,
    [getfs] of the same name still finds the entry and writes the payload
    that was stored, and [catfs] still prints it; the payload lies in the
    data region ([start >= 2112]).  Only [dfrgfs] makes the name
    disappear. *)
Theorem removed_file_still_read
    (F : gmap pystr bytes) (C : nat) (I O : list pystr) (K : Z)
    (fs_path remove_file answer : pystr) (c q filename : bytes)
    (h : Header) (es : list FileEntry) (i : nat) (e : FileEntry) :
  F !! fs_path = Some c -> F !! remove_file = Some q ->
  encode_filename remove_file = Ret filename ->
  header_of c = Some h -> entries_of c = Some es ->
  list_find (fun entry => name entry = filename) es = Some (i, e) ->
  1 <= file_count h -> deleted_files h + 1 < 2 ^ 16 ->
  DATA_START_OFFSET <= start e ->
  destination remove_file answer <> fs_path ->
  exists w1 w2,
    rmfs fs_path remove_file (mkWorld F C (answer :: I) O K) = (Ret tt, w1)
    /\ getfs fs_path remove_file w1 = (Ret tt, w2)
    /\ files w2 !! destination remove_file answer = Some (payload c e)
    /\ forall text,
         bytes_decode (payload c e) = Some text ->
         exists w3,
           catfs fs_path remove_file w1 = (Ret tt, w3)
           /\ stdout w3 = stdout w1 ++ [catfs_message remove_file text].
Proof.
  intros Hfs Hfile Hname Hh Hes Hfind Hcount Hdeleted Hstart Hdest.
  destruct (rmfs_returns F C (answer :: I) O K fs_path remove_file c q
              filename h es i e Hfs Hfile Hname Hh Hes Hfind Hcount Hdeleted)
    as (eb & hb & Heb & Hhb & _ & _ & _ & Hrun).
  pose proof Hfind as (Hi & _)%list_find_Some.
  pose proof (after_rmfs_entries c eb hb h es i e Hes Hi Heb Hhb) as Hes1.
  pose proof (after_rmfs_payload c eb hb h es i e Hes Hi Heb Hhb
                (set_flag 1 e) Hstart) as Hpay.
  change (payload c (set_flag 1 e)) with (payload c e) in Hpay.
  pose proof (find_name_insert es filename i e (set_flag 1 e) Hfind eq_refl)
    as Hfind1.
  set (c1 := write_at (write_at c (64 + 64 * i) eb) 0 hb) in *.
  assert (exists q1, (<[fs_path := c1]> F) !! remove_file = Some q1)
    as [q1 Hq1].
  { destruct (decide (remove_file = fs_path)) as [->|Hne].
    - exists c1. apply lookup_insert_eq.
    - exists q. by rewrite lookup_insert_ne. }
  eexists _, _. split; [exact Hrun|]. split; [|split].
  - eapply getfs_run_existing;
      [apply lookup_insert_eq|exact Hname|exact Hes1|exact Hfind1
      |exact Hq1|exact Hdest].
  - cbn [files]. by rewrite lookup_insert_eq, Hpay.
  - intros text Hdec. eexists. split.
    + eapply catfs_run;
        [apply lookup_insert_eq|exact Hname|exact Hes1|exact Hfind1|].
      by rewrite Hpay.
    + done.
Qed.
(** * The counters of the header and the alignment of the payloads *)

Section counting.
Implicit Types (P : FileEntry -> bool) (es : list FileEntry).

Lemma count_nil P : count P [] = 0.
Proof. done. Qed.

Lemma count_cons P x es :
  count P (x :: es) = (if P x then 1 else 0) + count P es.
Proof.
  unfold count. destruct (P x) eqn:E.
  - rewrite filter_cons_True by done. cbn [length]. lia.
  - rewrite filter_cons_False by (by rewrite E). lia.
Qed.

Lemma count_app P es es' : count P (es ++ es') = count P es + count P es'.
Proof. unfold count. rewrite filter_app, length_app. lia. Qed.

Lemma count_all P es :
  Forall (fun e => P e = true) es -> count P es = Z.of_nat (length es).
Proof. intros H. unfold count. by rewrite filter_all. Qed.

Lemma count_none P es : Forall (fun e => P e = false) es -> count P es = 0.
Proof.
  intros H. unfold count. rewrite filter_none; [done|].
  eapply Forall_impl; [exact H|]. intros e He. by rewrite He.
Qed.

Lemma count_insert P es : forall i x y,
  es !! i = Some x ->
  count P (<[i := y]> es)
  = count P es - (if P x then 1 else 0) + (if P y then 1 else 0).
Proof.
  induction es as [|z es IH]; intros i x y Hi; [done|].
  destruct i as [|i]; cbn in Hi |- *.
  - injection Hi as ->. rewrite !count_cons. lia.
  - rewrite !count_cons, (IH _ _ _ Hi). lia.
Qed.

Lemma count_complement es :
  count is_empty es + count (fun e => negb (is_empty e)) es
  = Z.of_nat (length es).
Proof.
  induction es as [|x es IH]; [done|].
  rewrite !count_cons. cbn [length]. destruct (is_empty x); cbn [negb]; lia.
Qed.
End counting.

Lemma gifs_run (F : gmap pystr bytes) C I O K fs_path c h :
  F !! fs_path = Some c -> header_of c = Some h ->
  gifs fs_path (mkWorld F C I O K)
  = (Ret tt,
     mkWorld F 64 I
       (O ++ [gifs_message fs_path (file_count h)
                (file_capacity h - file_count h - deleted_files h)
                (deleted_files h) (Z.of_nat (length c))]) K).
Proof.
  intros Hfs Hh. unfold gifs.
  mstep path_exists_true. mstep assert_true. mstep open_existing_run.
  mstep read_header_ok.
  erewrite bind_ret by (unfold getsize; cbn [files]; by rewrite Hfs).
  by rewrite print_run.
Qed.

(** The name that [addfs] stores is not the empty name: the empty slot
    would have matched it in the duplicate check. *)
Lemma added_entry_not_empty h b p now es i e0 :
  list_find (fun entry => name entry = padded_name b) es = None ->
  list_find (fun entry => is_empty entry) es = Some (i, e0) ->
  is_empty (added_entry h b p now) = false.
Proof.
  intros Hnone Hfree.
  apply list_find_Some in Hfree as (Hi & He0 & _).
  apply list_find_None in Hnone. rewrite Forall_forall in Hnone.
  destruct (is_empty (added_entry h b p now)) eqn:E; [|done]. exfalso.
  apply (Hnone e0); [by eapply list_elem_of_lookup_2|].
  unfold is_empty in E. cbn [name added_entry] in E.
  apply bool_decide_eq_true in E.
  unfold is_empty in He0. apply (bool_decide_unpack _) in He0. congruence.
Qed.

Lemma padded_size_aligned n : padded_size n mod DATA_ALIGNMENT = 0.
Proof. unfold padded_size. apply Z_mod_mult. Qed.

Lemma compact_bytes_aligned keep : forall c cur,
  cur mod DATA_ALIGNMENT = 0 ->
  (compact_bytes c keep cur).2 mod DATA_ALIGNMENT = 0
  /\ Forall (fun x => start x mod DATA_ALIGNMENT = 0)
       (compact_bytes c keep cur).1.2.
Proof.
  induction keep as [|e rest IH]; intros c cur Hcur; [by split|].
  rewrite compact_bytes_cons. cbv zeta. cbn [fst snd].
  match goal with
  | |- context [compact_bytes ?c2 rest ?cur2] =>
      destruct (IH c2 cur2) as [H1 H2]
  end.
  { rewrite <- Z.add_mod_idemp_r, padded_size_aligned, Z.add_0_r by done.
    done. }
  split; [done|]. constructor; [done|done].
Qed.
Lemma fresh_image_tidy : tidy fresh_image.
Proof.
  exists Header_default, (replicate 32 FileEntry_default).
  split; [apply fresh_image_header|]. split; [apply fresh_image_entries|].
  split; [by repeat split|]. split.
  - unfold accounted. rewrite count_none; [done|]. by apply Forall_replicate.
  - split; [done|]. by apply Forall_replicate.
Qed.

Lemma packed_addfs_fits c h b p now eb hb :
  header_of c = Some h -> (length b <= 31)%nat ->
  FileEntry_pack (added_entry h b p now) = Some eb ->
  Header_pack (added_header h p) = Some hb ->
  addfs_fits h p now.
Proof.
  intros Hh Hlen Heb Hhb.
  pose proof (header_of_fits _ _ Hh) as Hhf. apply Header_fits_inv in Hhf.
  assert (Header_fits (added_header h p)) as Hhfit
    by (eapply Header_pack_fits; [exact Hhb|..]; cbn [magic h_reserved2
          added_header]; lia).
  assert (FileEntry_fits (added_entry h b p now)) as Hefit.
  { eapply FileEntry_pack_fits; [exact Heb|..];
      cbn [name e_reserved1 added_entry]; [|done].
    apply length_padded_name. lia. }
  apply Header_fits_inv in Hhfit. apply FileEntry_fits_inv in Hefit.
  cbn [file_count next_free_offset added_header length_ created
       added_entry] in *. unfold addfs_fits. lia.
Qed.

Lemma addfs_tidy c p h es b i e0 eb hb now :
  consistent c -> tidy c ->
  header_of c = Some h -> entries_of c = Some es ->
  (length b <= 31)%nat ->
  list_find (fun entry => name entry = padded_name b) es = None ->
  list_find (fun entry => is_empty entry) es = Some (i, e0) ->
  FileEntry_pack (added_entry h b p now) = Some eb ->
  Header_pack (added_header h p) = Some hb ->
  tidy (write_at (write_at (with_payload c h p) (64 + 64 * i) eb) 0 hb).
Proof.
  intros Hcons (h' & es' & Hh' & Hes' & Hfix & Hacc & Hnfo & Hal)
    Hh Hes Hlen Hnodup Hfree Heb Hhb.
  assert (h' = h) as -> by congruence.
  assert (es' = es) as -> by congruence.
  destruct (consistent_well_formed _ _ _ Hcons Hh Hes) as [_ Hdata].
  pose proof (packed_addfs_fits _ _ _ _ _ _ _ Hh Hlen Heb Hhb) as Hfits.
  pose proof (added_entry_not_empty h b p now _ _ _ Hnodup Hfree) as Hnew.
  pose proof Hfree as (Hi & He0 & _)%list_find_Some.
  exists (added_header h p), (<[i := added_entry h b p now]> es).
  split; [by eapply added_header_of|].
  split; [by eapply added_entries|].
  split; [exact Hfix|]. split; [|split].
  - unfold accounted in *. cbn [file_count deleted_files added_header].
    rewrite (count_insert _ _ _ _ _ Hi), Hnew.
    apply Is_true_true in He0. rewrite He0. cbn [negb]. lia.
  - cbn [next_free_offset added_header].
    by rewrite <- Z.add_mod_idemp_r, padded_size_aligned, Z.add_0_r.
  - apply Forall_insert; [done|]. intros _.
    cbn [start added_entry]. done.
Qed.

Lemma rmfs_tidy c h es filename i e eb hb :
  tidy c -> header_of c = Some h -> entries_of c = Some es ->
  list_find (fun entry => name entry = filename) es = Some (i, e) ->
  FileEntry_pack (set_flag 1 e) = Some eb ->
  Header_pack (removed_header h) = Some hb ->
  tidy (write_at (write_at c (64 + 64 * i) eb) 0 hb).
Proof.
  intros (h' & es' & Hh' & Hes' & Hfix & Hacc & Hnfo & Hal)
    Hh Hes Hfind Heb Hhb.
  assert (h' = h) as -> by congruence.
  assert (es' = es) as -> by congruence.
  pose proof Hfind as (Hi & _)%list_find_Some.
  exists (removed_header h), (<[i := set_flag 1 e]> es).
  split; [by eapply after_rmfs_header|].
  split; [by eapply after_rmfs_entries|].
  split; [exact Hfix|]. split; [|split; [exact Hnfo|]].
  - unfold accounted in *. cbn [file_count deleted_files removed_header].
    rewrite (count_insert _ _ _ _ _ Hi).
    rewrite (is_empty_name e (set_flag 1 e)) by done.
    destruct (is_empty e); cbn [negb]; lia.
  - apply Forall_insert; [done|].
    rewrite (is_empty_name e (set_flag 1 e)) by done.
    rewrite Forall_forall in Hal. apply (Hal e).
    by eapply list_elem_of_lookup_2.
Qed.

Lemma dfrgfs_tidy c h es tb eb0 hb :
  consistent c -> tidy c ->
  header_of c = Some h -> entries_of c = Some es ->
  pack_entries (compact_bytes c (kept es) DATA_START_OFFSET).1.2 = Some tb ->
  FileEntry_pack FileEntry_default = Some eb0 ->
  Header_pack
    (defragmented_header h
       (length (compact_bytes c (kept es) DATA_START_OFFSET).1.2)
       (compact_bytes c (kept es) DATA_START_OFFSET).2) = Some hb ->
  tidy (defragmented c es tb eb0 hb).
Proof.
  intros Hcons (h' & es' & Hh' & Hes' & Hfix & Hacc & Hnfo & Hal)
    Hh Hes Htb Heb0 Hhb.
  assert (h' = h) as -> by congruence.
  assert (es' = es) as -> by congruence.
  destruct (consistent_well_formed _ _ _ Hcons Hh Hes) as [Hwf _].
  pose proof (defragmented_header_of c h es Hh Hes Hwf tb eb0 hb Hhb) as Hh2.
  pose proof (defragmented_entries c h es Hes Hwf tb eb0 hb Htb Heb0 Hhb)
    as Hes2.
  destruct (compact_bytes_aligned (kept es) c DATA_START_OFFSET eq_refl)
    as [Hcur Hstarts].
  assert (Forall (fun x => is_empty x = false
                           /\ DATA_START_OFFSET <= start x)
            (compact_bytes c (kept es) DATA_START_OFFSET).1.2) as Hmoved.
  { apply Forall_forall. intros x [k Hk]%list_elem_of_lookup.
    destruct (compacted_entry c h es Hes Hwf _ _ Hk)
      as (e & s & He & -> & Hs & _).
    apply list_elem_of_lookup_2 in He.
    unfold kept in He. apply list_elem_of_filter in He as [[Hne _] _].
    split; [by rewrite (is_empty_name e (set_start s e))|].
    cbn [start set_start]. lia. }
  set (r := compact_bytes c (kept es) DATA_START_OFFSET) in *.
  eexists _, _. split; [exact Hh2|]. split; [exact Hes2|].
  split; [exact Hfix|]. split; [|split; [exact Hcur|]].
  - unfold accounted. cbn [file_count deleted_files defragmented_header].
    rewrite count_app, count_all, count_none.
    + lia.
    + by apply Forall_replicate.
    + eapply Forall_impl; [exact Hmoved|]. intros x [-> _]. done.
  - apply Forall_app. split.
    + apply Forall_forall. intros x Hx _.
      rewrite Forall_forall in Hmoved, Hstarts.
      split; [by apply Hmoved|by apply Hstarts].
    + by apply Forall_replicate.
Qed.

Lemma reachable_tidy fs_path w :
  reachable fs_path w -> exists c, files w !! fs_path = Some c /\ tidy c.
Proof.
  induction 1 as [w w' Hrun|w new_file w' Hw IH Hrun
                 |w remove_file w' Hw IH Hrun
                 |w w' Hw IH Hrun|w w' _ IH Hsame].
  - apply mkfs_inv in Hrun. eauto using fresh_image_tidy.
  - destruct IH as (c & Hc & Htidy).
    destruct (reachable_consistent _ _ Hw) as (c' & Hc' & Hcons).
    assert (c' = c) as -> by congruence.
    destruct w as [F C I O K].
    apply addfs_inv in Hrun. cbn [files] in Hc.
    destruct Hrun as (c0 & p & h & es & b & i & e0 & eb & hb & Hc0 & Hrest).
    assert (c0 = c) as -> by congruence.
    decompose [and] Hrest. eexists. split.
    + match goal with G : files w' = _ |- _ => rewrite G end.
      apply lookup_insert_eq.
    + eapply addfs_tidy; eassumption.
  - destruct IH as (c & Hc & Htidy). destruct w as [F C I O K].
    apply rmfs_inv in Hrun. cbn [files] in Hc.
    destruct Hrun as (c0 & h & es & filename & i & e & eb & hb & Hc0 & Hrest).
    assert (c0 = c) as -> by congruence.
    decompose [and] Hrest. eexists. split.
    + match goal with G : files w' = _ |- _ => rewrite G end.
      apply lookup_insert_eq.
    + eapply rmfs_tidy; eassumption.
  - destruct IH as (c & Hc & Htidy).
    destruct (reachable_consistent _ _ Hw) as (c' & Hc' & Hcons).
    assert (c' = c) as -> by congruence.
    destruct w as [F C I O K].
    apply dfrgfs_inv in Hrun. cbn [files] in Hc.
    destruct Hrun as (c0 & h & es & tb & eb0 & hb & Hc0 & Hrest).
    assert (c0 = c) as -> by congruence.
    decompose [and] Hrest. eexists. split.
    + match goal with G : files w' = _ |- _ => rewrite G end.
      apply lookup_insert_eq.
    + eapply dfrgfs_tidy; eassumption.
  - destruct IH as (c & Hc & Htidy). exists c. by rewrite Hsame.
Qed.
(** X9: the header counts what the table holds.  In every container that
    [mkfs] made and that returning runs of [addfs], [rmfs] and [dfrgfs]
    changed, the fixed fields of the header are those of [mkfs], live and
    deleted files together are the non-empty entries of the table, and
    [gifs] returns and prints, as free entries, the number of empty
    slots. *)
Theorem header_counts_the_table (fs_path : pystr) (w : world) :
  reachable fs_path w ->
  exists c h es,
    files w !! fs_path = Some c
    /\ header_of c = Some h /\ entries_of c = Some es
    /\ fixed_fields h
    /\ file_count h + deleted_files h
       = count (fun e => negb (is_empty e)) es
    /\ (gifs fs_path w).1 = Ret tt
    /\ stdout (gifs fs_path w).2
       = stdout w ++ [gifs_message fs_path (file_count h)
                        (count is_empty es) (deleted_files h)
                        (Z.of_nat (length c))].
Proof.
  intros (c & Hc & h & es & Hh & Hes & Hfix & Hacc & _)%reachable_tidy.
  exists c, h, es. do 5 (split; [done|]).
  destruct w as [F C I O K]. cbn [files] in Hc.
  rewrite (gifs_run F C I O K fs_path c h Hc Hh). cbn [fst snd stdout].
  split; [done|]. do 3 f_equal.
  destruct Hfix as (_ & _ & -> & _). unfold accounted in Hacc.
  pose proof (count_complement es) as Hsum.
  rewrite (entries_of_length _ _ Hes) in Hsum. unfold MAX_FILES. lia.
Qed.

(** X10: payloads are aligned.  In every such container the free offset
    and the start of every non-empty entry are multiples of 64 and lie at
    or after the start of the data region. *)
Theorem payloads_are_aligned (fs_path : pystr) (w : world) :
  reachable fs_path w ->
  exists c h es,
    files w !! fs_path = Some c
    /\ header_of c = Some h /\ entries_of c = Some es
    /\ DATA_START_OFFSET <= next_free_offset h
    /\ next_free_offset h mod 64 = 0
    /\ forall e, e ∈ es -> is_empty e = false ->
                 DATA_START_OFFSET <= start e /\ start e mod 64 = 0.
Proof.
  intros Hw.
  destruct (reachable_tidy _ _ Hw)
    as (c & Hc & h & es & Hh & Hes & _ & _ & Hnfo & Hal).
  destruct (reachable_consistent _ _ Hw) as (c' & Hc' & Hcons).
  assert (c' = c) as -> by congruence.
  destruct (consistent_well_formed _ _ _ Hcons Hh Hes) as [_ Hdata].
  exists c, h, es. do 4 (split; [done|]). split; [exact Hnfo|].
  intros e He Hne. rewrite Forall_forall in Hal. by apply Hal.
Qed.
(** * What [dfrgfs] leaves behind *)

(** The compaction loop writes inside the file: the size stays. *)
Lemma compact_bytes_length keep : forall c cur limit,
  0 <= cur ->
  Forall (fun e => 0 <= start e /\ 0 <= length_ e) keep ->
  laid_out cur keep limit -> limit <= Z.of_nat (length c) ->
  length (compact_bytes c keep cur).1.1 = length c.
Proof.
  induction keep as [|e rest IH]; intros c cur limit Hcur Hall Hlay Hlim;
    [done|].
  apply Forall_cons_1 in Hall as [[Hs Hl] Hall]. destruct Hlay as [H1 H2].
  pose proof (laid_out_le _ _ _ Hall H2) as Hend.
  pose proof (padded_size_bounds _ Hl) as [Hpad _].
  rewrite compact_bytes_cons. cbv zeta. cbn [fst].
  set (data := read_at c (Z.to_nat (start e)) (length_ e)).
  assert (length data <= Z.to_nat (length_ e))%nat as Hdata.
  { unfold data. rewrite read_at_nonneg by done. rewrite length_take. lia. }
  set (c1 := write_at c (Z.to_nat cur) data).
  assert (length c1 = length c) as Hc1
    by (apply length_write_at_inside; lia).
  set (c2 := if padded_size (length_ e) >? length_ e
             then write_at c1 (Z.to_nat cur + length data)
                    (zeros (padded_size (length_ e) - length_ e))
             else c1).
  assert (length c2 = length c) as Hc2.
  { unfold c2. destruct (_ >? _); [|done]. rewrite <- Hc1.
    apply length_write_at_inside.
    unfold zeros. rewrite length_replicate. lia. }
  rewrite <- Hc2. apply (IH c2 _ limit); [lia|done| |lia].
  eapply laid_out_mono; [|exact H2]. lia.
Qed.

Lemma count_live_kept es : count live es = Z.of_nat (length (kept es)).
Proof.
  unfold count, kept. f_equal. f_equal.
  apply list_filter_iff. intros e. apply live_true.
Qed.

(** X11: [dfrgfs] compacts the table and resets the counters.  On a
    well-formed container [dfrgfs] returns; the table then holds the
    entries that were live, in their order and with their names, lengths
    and time stamps, followed by empty default entries; no entry is
    flagged; the header counts exactly the live entries and no deleted
    file; the free offset is not above the one before; and the file has
    the size it had: the freed bytes are not given back to the host. *)
Theorem dfrgfs_compacts_table
    (F : gmap pystr bytes) (C : nat) (I O : list pystr) (K : Z)
    (fs_path : pystr) (c : bytes) (h : Header) (es : list FileEntry) :
  F !! fs_path = Some c -> header_of c = Some h -> entries_of c = Some es ->
  well_formed c h es ->
  exists c1 h1 moved,
    dfrgfs fs_path (mkWorld F C I O K)
    = (Ret tt,
       mkWorld (<[fs_path := c1]> F) 64 I
         (O ++ [dfrgfs_message fs_path es]) K)
    /\ header_of c1 = Some h1
    /\ entries_of c1
       = Some (moved ++ replicate (32 - length moved) FileEntry_default)
    /\ Forall2 (fun x e => exists s, x = set_start s e
                                     /\ DATA_START_OFFSET <= s <= start e)
         moved (kept es)
    /\ file_count h1 = count live es
    /\ deleted_files h1 = 0
    /\ DATA_START_OFFSET <= next_free_offset h1 <= next_free_offset h
    /\ length c1 = length c.
Proof.
  intros Hfs Hh Hes Hwf.
  destruct (pack_entries_fits _ (compacted_fits c h es Hes Hwf)) as [tb Htb].
  destruct (FileEntry_unpack_pack _ FileEntry_default_fits)
    as (eb0 & Heb0 & Heb0l & _).
  destruct (Header_unpack_pack _ (defragmented_header_fits c h es Hh Hes Hwf))
    as (hb & Hhb & Hhbl & _).
  pose proof (defragmented_entries c h es Hes Hwf tb eb0 hb Htb Heb0 Hhb)
    as Hes1.
  pose proof (defragmented_header_of c h es Hh Hes Hwf tb eb0 hb Hhb) as Hh1.
  pose proof (compacted_spec c h es Hes Hwf)
    as (Hlen & Hall & _ & Hcur & _ & _).
  pose proof (kept_length c es Hes) as Hk.
  assert (length (compact_bytes c (kept es) DATA_START_OFFSET).1.1
          = length c) as Hsize.
  { destruct Hwf as (Hlay & Hlim & _).
    eapply compact_bytes_length; [done|by eapply kept_nonneg|exact Hlay|done]. }
  pose proof (entries_of_some_length _ _ Hes) as Hc.
  pose proof (pack_entries_length _ _ Htb) as Htbl.
  set (r := compact_bytes c (kept es) DATA_START_OFFSET) in *.
  exists (defragmented c es tb eb0 hb),
    (defragmented_header h (length r.1.2) r.2), r.1.2.
  split; [by eapply dfrgfs_run|]. split; [exact Hh1|].
  split; [exact Hes1|]. split; [|split; [|split; [done|split; [done|]]]].
  - apply Forall2_same_length_lookup. split; [done|].
    intros k x e Hx He. destruct (Hall _ _ He) as (s & Hs & Hrange & _).
    exists s. split; [congruence|done].
  - cbn [file_count defragmented_header]. rewrite count_live_kept. lia.
  - assert (length (tb ++ concat (replicate (32 - length r.1.2) eb0))
            = 2048%nat) as HT.
    { rewrite length_app, Htbl.
      assert (length (concat (replicate (32 - length r.1.2) eb0))
              = (64 * (32 - length r.1.2))%nat) as ->; [|lia].
      generalize (32 - length r.1.2)%nat as n. clear -Heb0l.
      induction n as [|n IH]; [done|].
      cbn [replicate concat]. rewrite length_app, IH. lia. }
    assert (length (write_at r.1.1 64
                      (tb ++ concat (replicate (32 - length r.1.2) eb0)))
            = length c) as Hin
      by (rewrite length_write_at_inside; lia).
    unfold defragmented. fold r.
    rewrite length_write_at_inside; lia.
Qed.
(** * A name that is not in the table *)

Section not_found.
Context (F : gmap pystr bytes) (C : nat) (I O : list pystr) (K : Z).
Context (fs_path file : pystr) (c filename : bytes) (es : list FileEntry).
Context (Hfs : F !! fs_path = Some c).
Context (Hname : encode_filename file = Ret filename).
Context (Hes : entries_of c = Some es).
Context (Hnone : list_find (fun entry => name entry = filename) es = None).

Lemma getfs_not_found :
  getfs fs_path file (mkWorld F C I O K)
  = (Raise (AssertionError not_in_filesystem), mkWorld F 2112 I O K).
Proof.
  unfold getfs. mstep path_exists_true. mstep assert_true. mstep lift_ret.
  mstep open_existing_run. mstep read_entries_ok.
  by mraise lift_raise; [|by apply compare_filenames_none].
Qed.

Lemma catfs_not_found :
  catfs fs_path file (mkWorld F C I O K)
  = (Raise (AssertionError not_in_filesystem), mkWorld F 2112 I O K).
Proof.
  unfold catfs. mstep path_exists_true. mstep assert_true. mstep lift_ret.
  mstep open_existing_run. mstep read_entries_ok.
  by mraise lift_raise; [|by apply compare_filenames_none].
Qed.

Lemma rmfs_not_found q :
  F !! file = Some q ->
  rmfs fs_path file (mkWorld F C I O K)
  = (Raise (AssertionError not_in_filesystem), mkWorld F 2112 I O K).
Proof.
  intros Hq.
  destruct (header_of_total c) as (h & Hh & _);
    [pose proof (entries_of_some_length _ _ Hes); lia|].
  unfold rmfs. mstep path_exists_true. mstep assert_true.
  mstep path_exists_true. mstep assert_true. mstep lift_ret.
  mstep open_existing_run. mstep read_header_ok. mstep read_entries_ok.
  by mraise lift_raise; [|by apply compare_filenames_none].
Qed.
End not_found.

(** X12: a name that no entry has.  [getfs], [catfs] and [rmfs] look the
    name up among all 32 entries; when none has it they fail with the
    assertion of [compare_filenames], after reading the table and before
    writing anything: no host file changes, nothing is asked and nothing
    is printed. *)
Theorem unknown_name_is_refused
    (F : gmap pystr bytes) (C : nat) (I O : list pystr) (K : Z)
    (fs_path file : pystr) (c filename : bytes) (es : list FileEntry) :
  F !! fs_path = Some c ->
  encode_filename file = Ret filename ->
  entries_of c = Some es ->
  list_find (fun entry => name entry = filename) es = None ->
  let failed :=
    (Raise (AssertionError not_in_filesystem), mkWorld F 2112 I O K) in
  getfs fs_path file (mkWorld F C I O K) = failed
  /\ catfs fs_path file (mkWorld F C I O K) = failed
  /\ (is_Some (F !! file) ->
      rmfs fs_path file (mkWorld F C I O K) = failed).
Proof.
  intros Hfs Hname Hes Hnone failed. subst failed.
  split; [by eapply getfs_not_found|]. split; [by eapply catfs_not_found|].
  intros [q Hq]. by eapply rmfs_not_found.
Qed.

(** X13: remove, then defragment: the name is gone.  On a consistent
    container, after a [rmfs] of a stored name and a [dfrgfs], both of
    which return, no entry has the name any more: [getfs] and [catfs] of
    it fail like for a name that was never stored. *)
Theorem removed_then_defragmented_is_gone
    (F : gmap pystr bytes) (C : nat) (I O : list pystr) (K : Z)
    (fs_path remove_file : pystr) (c q filename : bytes)
    (h : Header) (es : list FileEntry) (i : nat) (e : FileEntry) :
  F !! fs_path = Some c -> F !! remove_file = Some q ->
  encode_filename remove_file = Ret filename ->
  header_of c = Some h -> entries_of c = Some es ->
  list_find (fun entry => name entry = filename) es = Some (i, e) ->
  is_empty e = false ->
  consistent c ->
  1 <= file_count h -> deleted_files h + 1 < 2 ^ 16 ->
  exists w1 w2 c2 es2,
    rmfs fs_path remove_file (mkWorld F C I O K) = (Ret tt, w1)
    /\ dfrgfs fs_path w1 = (Ret tt, w2)
    /\ files w2 !! fs_path = Some c2
    /\ entries_of c2 = Some es2
    /\ list_find (fun entry => name entry = filename) es2 = None
    /\ (getfs fs_path remove_file w2).1
       = Raise (AssertionError not_in_filesystem)
    /\ (catfs fs_path remove_file w2).1
       = Raise (AssertionError not_in_filesystem).
Proof.
  intros Hfs Hfile Hname Hh Hes Hfind Hne Hcons Hcount Hdeleted.
  destruct (rmfs_returns F C I O K fs_path remove_file c q filename h es i e
              Hfs Hfile Hname Hh Hes Hfind Hcount Hdeleted)
    as (eb & hb & Heb & Hhb & _ & _ & _ & Hrun).
  pose proof Hfind as (Hi & Hn & _)%list_find_Some.
  pose proof (rmfs_consistent c h es filename i e eb hb Hcons Hh Hes Hfind
                Heb Hhb) as Hcons1.
  pose proof (after_rmfs_header c eb hb h i Hh Hhb) as Hh1.
  pose proof (after_rmfs_entries c eb hb h es i e Hes Hi Heb Hhb) as Hes1.
  set (c1 := write_at (write_at c (64 + 64 * i) eb) 0 hb) in *.
  set (es1 := <[i := set_flag 1 e]> es) in *.
  destruct (consistent_well_formed _ _ _ Hcons1 Hh1 Hes1) as [Hwf1 _].
  destruct (pack_entries_fits _ (compacted_fits c1 _ es1 Hes1 Hwf1))
    as [tb Htb].
  destruct (FileEntry_unpack_pack _ FileEntry_default_fits)
    as (eb0 & Heb0 & _).
  destruct (Header_unpack_pack _
              (defragmented_header_fits c1 _ es1 Hh1 Hes1 Hwf1))
    as (hb1 & Hhb1 & _).
  pose proof (defragmented_entries c1 _ es1 Hes1 Hwf1 tb eb0 hb1 Htb Heb0
                Hhb1) as Hes2.
  assert (list_find (fun entry => name entry = filename)
            ((compact_bytes c1 (kept es1) DATA_START_OFFSET).1.2
             ++ replicate
                  (32 - length
                     (compact_bytes c1 (kept es1) DATA_START_OFFSET).1.2)
                  FileEntry_default) = None) as Hgone.
  { apply list_find_None, Forall_app. split.
    - apply Forall_forall. intros x [k Hk]%list_elem_of_lookup Hx.
      destruct (compacted_entry c1 _ es1 Hes1 Hwf1 _ _ Hk)
        as (e1 & s & He1 & -> & _).
      apply list_elem_of_lookup_2 in He1. unfold kept in He1.
      apply list_elem_of_filter in He1 as [[Hne1 Hflag1] Hin1].
      cbn [name set_start] in Hx.
      assert (e1 = set_flag 1 e) as ->; [|done].
      destruct Hwf1 as (_ & _ & Hnd).
      eapply unique_by_name; [exact Hnd|done| |done|].
      + unfold es1. eapply list_elem_of_lookup_2.
        apply list_lookup_insert_eq. by eapply lookup_lt_Some.
      + cbn [name set_flag]. congruence.
    - apply Forall_replicate. intros Hx.
      unfold is_empty in Hne. rewrite Hn, <- Hx in Hne.
      by rewrite bool_decide_true in Hne. }
  eexists _, _, _, _. split; [exact Hrun|].
  split; [eapply dfrgfs_run;
          [apply lookup_insert_eq|exact Hh1|exact Hes1|exact Htb|exact Heb0
          |exact Hhb1]|].
  split; [apply lookup_insert_eq|]. split; [exact Hes2|].
  split; [exact Hgone|]. split.
  - by erewrite getfs_not_found by (done || apply lookup_insert_eq).
  - by erewrite catfs_not_found by (done || apply lookup_insert_eq).
Qed.
(** * Add leaves the stored files alone *)

(** In a consistent table a non-empty entry is found by its name, and its
    payload lies between the start of the data region and the free
    offset. *)
Lemma stored_entry c h es j e :
  consistent c -> header_of c = Some h -> entries_of c = Some es ->
  es !! j = Some e -> is_empty e = false ->
  list_find (fun entry => name entry = name e) es = Some (j, e)
  /\ DATA_START_OFFSET <= start e
  /\ 0 <= length_ e
  /\ start e + padded_size (length_ e) <= next_free_offset h
  /\ next_free_offset h <= Z.of_nat (length c).
Proof.
  intros Hcons Hh Hes Hj Hne.
  destruct Hcons as (h' & L & R & Hh' & Hes' & HL & HR & Hlay & Hnd & Hlim).
  assert (h' = h) as -> by congruence.
  assert (es = L ++ R) as -> by congruence.
  pose proof (entries_nonneg _ _ Hes) as Hnn.
  apply Forall_app in Hnn as [HnnL _].
  assert (forall k y, (L ++ R) !! k = Some y -> is_empty y = false ->
                      L !! k = Some y) as HinL.
  { intros k y Hk Hy. destruct (decide (k < length L)%nat) as [Hlt|Hge].
    - by rewrite lookup_app_l in Hk.
    - rewrite lookup_app_r in Hk by lia.
      apply list_elem_of_lookup_2 in Hk.
      rewrite Forall_forall in HR. rewrite (HR y Hk) in Hy. done. }
  pose proof (HinL _ _ Hj Hne) as HjL.
  assert (e ∈ L) as HeL by (by eapply list_elem_of_lookup_2).
  destruct (laid_out_starts _ _ _ _ HnnL Hlay HeL) as [Hs Hend].
  rewrite Forall_forall in HnnL. destruct (HnnL e HeL) as [_ Hl].
  split; [|done].
  apply list_find_Some. split; [done|]. split; [done|].
  intros k y Hk Hlt Hy.
  assert (is_empty y = false) as Hney
    by (unfold is_empty in *; by rewrite Hy).
  pose proof (HinL _ _ Hk Hney) as HkL.
  assert (k = j); [|lia].
  eapply (NoDup_lookup (name <$> L)); [done|..].
  - by rewrite list_lookup_fmap, HkL.
  - by rewrite list_lookup_fmap, HjL, Hy.
Qed.

(** X14: [addfs] leaves the stored files alone.  On a consistent container,
    a run of [addfs] that passes its checks returns, and every entry that
    was stored, live or flagged, is afterwards the entry it was, at its
    slot and found by its name, with the payload it had. *)
Theorem addfs_preserves_stored_files
    (F : gmap pystr bytes) (C : nat) (I O : list pystr) (K : Z)
    (fs_path new_file : pystr) (c p b : bytes)
    (h : Header) (es : list FileEntry) (i : nat) (e0 : FileEntry) :
  F !! fs_path = Some c -> F !! new_file = Some p ->
  header_of c = Some h -> entries_of c = Some es ->
  consistent c ->
  str_encode new_file = Some b -> (length b <= 31)%nat ->
  list_find (fun entry => name entry = padded_name b) es = None ->
  list_find (fun entry => is_empty entry) es = Some (i, e0) ->
  addfs_fits h p K ->
  exists c1 es1,
    addfs fs_path new_file (mkWorld F C I O K)
    = (Ret tt,
       mkWorld (<[fs_path := c1]> F) 64 I
         (O ++ [addfs_message fs_path new_file]) K)
    /\ entries_of c1 = Some es1
    /\ forall j e,
         es !! j = Some e -> is_empty e = false ->
         es1 !! j = Some e
         /\ extract c (name e) = Some (payload c e)
         /\ extract c1 (name e) = Some (payload c e).
Proof.
  intros Hfs Hfile Hh Hes Hcons Hb Hlen Hnodup Hfree Hfits.
  destruct (consistent_well_formed _ _ _ Hcons Hh Hes) as [_ Hdata].
  destruct (FileEntry_unpack_pack _
              (added_entry_fits c p h Hh b K Hlen Hfits))
    as (eb & Heb & Hebl & _).
  destruct (Header_unpack_pack _ (added_header_fits c p h Hh K Hfits))
    as (hb & Hhb & Hhbl & _).
  pose proof (added_entries c p b eb hb h es i e0 K Hh Hes Hdata Hlen Hfree
                Hfits Heb Hhb) as Hes1.
  pose proof (free_slot_lt c es i e0 Hes Hfree) as Hi32.
  pose proof Hfree as (Hi & He0 & _)%list_find_Some.
  apply Is_true_true in He0.
  eexists _, _. split; [by eapply addfs_ok|]. split; [exact Hes1|].
  intros j e Hj Hne.
  assert (j <> i) as Hji by (intros ->; congruence).
  destruct (stored_entry c h es j e Hcons Hh Hes Hj Hne)
    as (Hfind & Hs & Hl & Hend & Hlim).
  assert (<[i := added_entry h b p K]> es !! j = Some e) as Hj1
    by (by rewrite list_lookup_insert_ne).
  split; [exact Hj1|]. split; [unfold extract; by rewrite Hes, Hfind|].
  assert (list_find (fun entry => name entry = name e)
            (<[i := added_entry h b p K]> es) = Some (j, e)) as Hfind1.
  { apply list_find_Some in Hfind as (_ & _ & Hmin).
    apply list_find_Some. split; [done|]. split; [done|].
    intros k y Hk Hlt Hy.
    destruct (decide (k = i)) as [->|Hki].
    - rewrite list_lookup_insert_eq in Hk by (by eapply lookup_lt_Some).
      injection Hk as <-. cbn [name added_entry] in Hy.
      apply list_find_None in Hnodup. rewrite Forall_forall in Hnodup.
      apply (Hnodup e); [by eapply list_elem_of_lookup_2|done].
    - rewrite list_lookup_insert_ne in Hk by done. by eapply Hmin. }
  unfold extract. rewrite Hes1, Hfind1. f_equal.
  unfold payload. rewrite !read_at_nonneg by done.
  unfold DATA_START_OFFSET, HEADER_SIZE, MAX_FILES, ENTRY_SIZE in Hs.
  pose proof (padded_size_bounds _ Hl) as [Hpad _].
  rewrite payload_write_before by lia.
  rewrite payload_write_before by lia.
  unfold with_payload.
  rewrite slice_write_at_before; [|lia|].
  - apply slice_write_at_before; lia.
  - etrans; [|apply length_write_at_le]. lia.
Qed.
(** * UTF-8: what was encoded decodes to itself *)

Ltac nlia := zify; Z.to_euclidean_division_equations; lia.

Lemma to_N_byte_of_Z (n : N) :
  (n < 256)%N -> Byte.to_N (byte_of_Z (Z.of_N n)) = n.
Proof.
  intros Hn. pose proof (byte_to_of_Z (Z.of_N n)) as H.
  unfold byte_to_Z in H. rewrite Z.mod_small in H by lia. lia.
Qed.

Ltac decide_tests :=
  repeat match goal with
    | |- context [(?a <? ?b)%N] =>
        first [ rewrite (proj2 (N.ltb_lt a b)) by nlia
              | rewrite (proj2 (N.ltb_ge a b)) by nlia ]
    | |- context [(?a <=? ?b)%N] =>
        first [ rewrite (proj2 (N.leb_le a b)) by nlia
              | rewrite (proj2 (N.leb_gt a b)) by nlia ]
    | |- context [(?a =? ?b)%N] =>
        first [ rewrite (proj2 (N.eqb_eq a b)) by nlia
              | rewrite (proj2 (N.eqb_neq a b)) by nlia ]
    end.

Lemma utf8_char_decode c b rest :
  utf8_char c = Some b ->
  bytes_decode (b ++ rest) = cons c <$> bytes_decode rest.
Proof.
  unfold utf8_char.
  destruct (N.ltb_spec c 0x80) as [H1|H1];
    [|destruct (N.ltb_spec c 0x800) as [H2|H2];
      [|destruct (N.ltb_spec c 0x10000) as [H3|H3];
        [destruct (N.leb_spec 0xD800 c) as [H4|H4];
         [destruct (N.leb_spec c 0xDFFF) as [H4'|H4']|]
        |destruct (N.ltb_spec c 0x110000) as [H5|H5]]]];
    cbn [andb]; intros [= <-];
    cbn [app bytes_decode]; unfold in_range, low6;
    rewrite ?to_N_byte_of_Z by nlia.
  - decide_tests. done.
  - decide_tests. cbn [andb]. do 2 f_equal. nlia.
  - destruct (N.eqb_spec (0xE0 + c / 0x1000) 0xE0) as [E0|E0];
      destruct (N.eqb_spec (0xE0 + c / 0x1000) 0xED) as [ED|ED];
      decide_tests; cbn [andb]; do 2 f_equal; nlia.
  - destruct (N.eqb_spec (0xE0 + c / 0x1000) 0xE0) as [E0|E0];
      destruct (N.eqb_spec (0xE0 + c / 0x1000) 0xED) as [ED|ED];
      decide_tests; cbn [andb]; do 2 f_equal; nlia.
  - destruct (N.eqb_spec (0xF0 + c / 0x40000) 0xF0) as [F0|F0];
      destruct (N.eqb_spec (0xF0 + c / 0x40000) 0xF4) as [F4|F4];
      decide_tests; cbn [andb]; do 2 f_equal; nlia.
Qed.

Lemma bytes_decode_encode s : forall b,
  str_encode s = Some b -> bytes_decode b = Some s.
Proof.
  induction s as [|c s IH]; intros b; cbn [str_encode].
  - by intros [= <-].
  - destruct (utf8_char c) as [bc|] eqn:Hc; [|done].
    destruct (str_encode s) as [bs|] eqn:Hs; [|done].
    intros [= <-]. rewrite (utf8_char_decode _ _ _ Hc), (IH _ eq_refl). done.
Qed.
(** * The name of an entry *)

Lemma byte_of_Z_nul (n : N) :
  (n < 256)%N -> byte_of_Z (Z.of_N n) = x00 -> n = 0%N.
Proof.
  intros Hn H. apply (f_equal Byte.to_N) in H.
  by rewrite to_N_byte_of_Z in H.
Qed.

Lemma utf8_char_no_nul c b :
  utf8_char c = Some b -> c <> 0%N -> Forall (fun x => x <> x00) b.
Proof.
  unfold utf8_char. intros H Hc.
  destruct (N.ltb_spec c 0x80); [|destruct (N.ltb_spec c 0x800);
    [|destruct (N.ltb_spec c 0x10000);
      [destruct ((0xD800 <=? c) && (c <=? 0xDFFF))%N
      |destruct (N.ltb_spec c 0x110000)]]];
    try discriminate; injection H as <-;
    repeat (constructor;
            [intros E; apply byte_of_Z_nul in E; nlia|]);
    constructor.
Qed.

Lemma utf8_nul : utf8_char 0 = Some [x00].
Proof. reflexivity. Qed.

Lemma str_encode_no_nul s : forall b,
  str_encode s = Some b -> 0%N ∉ s -> Forall (fun x => x <> x00) b.
Proof.
  induction s as [|c s IH]; intros b; cbn [str_encode].
  - intros [= <-] _. constructor.
  - destruct (utf8_char c) as [bc|] eqn:Hc; [|done].
    destruct (str_encode s) as [bs|] eqn:Hs; [|done].
    intros [= <-] Hnul. apply not_elem_of_cons in Hnul as [Hc0 Hnul].
    apply Forall_app. split; [eapply utf8_char_no_nul; eauto|by apply IH].
Qed.

Lemma str_encode_app s t bs bt :
  str_encode s = Some bs -> str_encode t = Some bt ->
  str_encode (s ++ t) = Some (bs ++ bt).
Proof.
  revert bs. induction s as [|c s IH]; intros bs; cbn [str_encode app].
  - by intros [= <-] ->.
  - destruct (utf8_char c) as [bc|]; [|done].
    destruct (str_encode s) as [bs'|]; [|done].
    intros [= <-] Ht. rewrite (IH _ eq_refl Ht). by rewrite app_assoc.
Qed.

Lemma str_encode_app_inv s t b :
  str_encode (s ++ t) = Some b ->
  exists bs bt, str_encode s = Some bs /\ str_encode t = Some bt
                /\ b = bs ++ bt.
Proof.
  revert b. induction s as [|c s IH]; intros b; cbn [str_encode app].
  - intros H. by exists [], b.
  - destruct (utf8_char c) as [bc|]; [|done].
    destruct (str_encode (s ++ t)) as [b'|] eqn:E; [|done].
    intros [= <-]. destruct (IH _ eq_refl) as (bs & bt & -> & Ht & ->).
    exists (bc ++ bs), bt. by rewrite app_assoc.
Qed.

Lemma before_nul_stop b rest :
  Forall (fun x => x <> x00) b ->
  (rest = [] \/ exists r, rest = x00 :: r) ->
  before_nul (b ++ rest) = b.
Proof.
  intros Hb Hrest. induction Hb as [|x b Hx _ IH]; cbn [app before_nul].
  - destruct Hrest as [->|[r ->]]; [done|]. cbn [before_nul].
    by rewrite bool_decide_true.
  - rewrite bool_decide_false by done. by rewrite IH.
Qed.

(** X15: the name that [lsfs] shows.  [encode_filename] stores a name as
    its UTF-8 bytes, padded with NUL bytes to 32, and [FileEntry.filename]
    reads the bytes up to the first NUL byte back: an entry whose name
    field was made from [file] gives back [file] when it holds no NUL
    character, and otherwise the part of [file] before its first NUL. *)
Theorem filename_round_trip (file pre rest : pystr) (nm : bytes)
    (e : FileEntry) :
  encode_filename file = Ret nm ->
  name e = nm ->
  file = pre ++ rest -> 0%N ∉ pre ->
  (rest = [] \/ exists r, rest = 0%N :: r) ->
  FileEntry_filename e = Some pre.
Proof.
  intros Henc Hname -> Hpre Hrest. unfold encode_filename in Henc.
  case_bool_decide; [done|].
  destruct (str_encode (pre ++ rest)) as [b|] eqn:Hb; [|done].
  injection Henc as <-.
  destruct (str_encode_app_inv _ _ _ Hb) as (bs & bt & Hs & Ht & ->).
  unfold FileEntry_filename. rewrite Hname, <- app_assoc.
  rewrite before_nul_stop.
  - by apply bytes_decode_encode.
  - by eapply str_encode_no_nul.
  - destruct Hrest as [->|[r ->]].
    + injection Ht as <-. cbn [app]. unfold zeros.
      destruct (Z.to_nat _) as [|n]; [by left|right; by eexists].
    + cbn [str_encode] in Ht. rewrite utf8_nul in Ht.
      destruct (str_encode r) as [br|]; [|done]. injection Ht as <-.
      right. by eexists.
Qed.
(** * Listing *)

Section lsfs_runs.
Context (strftime_localtime : Z -> outcome pystr).
Context (F : gmap pystr bytes) (I : list pystr) (K : Z).

Lemma lsfs_loop_run es : forall lines found C O,
  Forall2 (fun e line => lsfs_line strftime_localtime e = Some line)
    (listed es) lines ->
  lsfs_loop strftime_localtime es found (mkWorld F C I O K)
  = (Ret (found || bool_decide (lines <> [])),
     mkWorld F C I (O ++ lines) K).
Proof.
  induction es as [|e es IH]; intros lines found C O Hlines;
    cbn [lsfs_loop].
  - apply Forall2_nil_inv_l in Hlines as ->.
    by rewrite mret_run, orb_false_r, app_nil_r.
  - unfold listed in Hlines.
    destruct (is_empty e) eqn:Hemp; cbn [orb].
    { rewrite filter_cons_False in Hlines by (intros [? _]; congruence).
      by apply IH. }
    case_bool_decide as Hflag.
    { rewrite filter_cons_False in Hlines by (intros [_ ?]; congruence).
      by apply IH. }
    rewrite filter_cons_True in Hlines by (split; congruence).
    apply Forall2_cons_inv_l in Hlines as (line & rest & Hline & Hrest & ->).
    unfold lsfs_line in Hline.
    destruct (FileEntry_filename e) as [file_name|] eqn:Hn; [|done].
    destruct (strftime_localtime (created e)) as [timestamp|] eqn:Ht;
      [|done].
    injection Hline as <-.
    mstep lift_opt_some. mstep lift_ret. mstep print_run.
    rewrite (IH rest) by done.
    rewrite (bool_decide_true (_ :: _ <> [])) by done.
    rewrite orb_true_l, orb_true_r.
    by rewrite <- app_assoc.
Qed.
End lsfs_runs.

(** X16: what [lsfs] lists.  [lsfs] prints one block (name, size, time
    stamp) for every entry that is neither empty nor flagged with 1, in
    table order, and skips the others; it changes no file.  When it has
    printed no block, on a fresh container or when every file was removed,
    it fails with the assertion that there are no files. *)
Theorem lsfs_lists_unflagged_entries
    (strftime_localtime : Z -> outcome pystr)
    (F : gmap pystr bytes) (C : nat) (I O : list pystr) (K : Z)
    (fs_path : pystr) (c : bytes) (es : list FileEntry)
    (lines : list pystr) :
  F !! fs_path = Some c -> entries_of c = Some es ->
  Forall2 (fun e line => lsfs_line strftime_localtime e = Some line)
    (listed es) lines ->
  lsfs strftime_localtime fs_path (mkWorld F C I O K)
  = (if bool_decide (lines <> []) then Ret tt
     else Raise (AssertionError no_files),
     mkWorld F 2112 I (O ++ lines) K).
Proof.
  intros Hfs Hes Hlines. unfold lsfs.
  mstep path_exists_true. mstep assert_true. mstep open_existing_run.
  mstep read_entries_ok. mstep lsfs_loop_run. cbn [orb].
  by destruct (bool_decide (lines <> [])).
Qed.
(** * The command line *)

Lemma file_system_commands_keys strftime_localtime fs_path :
  (file_system_commands strftime_localtime fs_path : gmap pystr method)
  = list_to_map
      [(str "mkfs", no_argument (mkfs fs_path));
       (str "gifs", no_argument (gifs fs_path));
       (str "addfs", one_argument (addfs fs_path));
       (str "getfs", one_argument (getfs fs_path));
       (str "rmfs", one_argument (rmfs fs_path));
       (str "lsfs", no_argument (lsfs strftime_localtime fs_path));
       (str "dfrgfs", no_argument (dfrgfs fs_path));
       (str "catfs", one_argument (catfs fs_path))].
Proof. reflexivity. Qed.

Lemma unknown_command strftime_localtime fs_path command :
  command ∉ [str "mkfs"; str "gifs"; str "addfs"; str "getfs"; str "rmfs";
             str "lsfs"; str "dfrgfs"; str "catfs"] ->
  file_system_commands strftime_localtime fs_path !! command = None.
Proof.
  intros H. rewrite file_system_commands_keys.
  by apply not_elem_of_list_to_map_1.
Qed.

Lemma known_command strftime_localtime fs_path command meth :
  (command, meth)
    ∈ [(str "mkfs", no_argument (mkfs fs_path));
       (str "gifs", no_argument (gifs fs_path));
       (str "addfs", one_argument (addfs fs_path));
       (str "getfs", one_argument (getfs fs_path));
       (str "rmfs", one_argument (rmfs fs_path));
       (str "lsfs", no_argument (lsfs strftime_localtime fs_path));
       (str "dfrgfs", no_argument (dfrgfs fs_path));
       (str "catfs", one_argument (catfs fs_path))] ->
  file_system_commands strftime_localtime fs_path !! command = Some meth.
Proof.
  intros H. rewrite file_system_commands_keys.
  apply elem_of_list_to_map_1; [|done].
  cbn [fmap list_fmap fst]. apply (bool_decide_unpack _).
  vm_compute. reflexivity.
Qed.

(** X17: command lines that [main] refuses.  With fewer than two or more
    than three arguments after the program name the assertion on
    [sys.argv] fails; a command that is not one of the eight names is a
    [KeyError]; [mkfs], [gifs], [lsfs] and [dfrgfs] with a file argument,
    and [addfs], [getfs], [rmfs] and [catfs] without one, are a
    [TypeError] of the call.  In all these cases no operation runs: the
    host is as it was. *)
Theorem main_refuses_bad_command_lines
    (strftime_localtime : Z -> outcome pystr)
    (prog command fs_path file : pystr) (argv : list pystr) (w : world) :
  ((length argv < 3 \/ 4 < length argv)%nat ->
   main strftime_localtime argv w = (usage_AssertionError, w))
  /\ (command ∉ [str "mkfs"; str "gifs"; str "addfs"; str "getfs";
                 str "rmfs"; str "lsfs"; str "dfrgfs"; str "catfs"] ->
      main strftime_localtime [prog; command; fs_path] w = (KeyError, w)
      /\ main strftime_localtime [prog; command; fs_path; file] w
         = (KeyError, w))
  /\ (command ∈ [str "mkfs"; str "gifs"; str "lsfs"; str "dfrgfs"] ->
      main strftime_localtime [prog; command; fs_path; file] w
      = (arity_TypeError, w))
  /\ (command ∈ [str "addfs"; str "getfs"; str "rmfs"; str "catfs"] ->
      main strftime_localtime [prog; command; fs_path] w
      = (arity_TypeError, w)).
Proof.
  split; [|split; [|split]].
  - intros Hlen. unfold main.
    destruct (3 <=? length argv)%nat eqn:E3;
      destruct (length argv <=? 4)%nat eqn:E4; cbn [andb negb]; try done.
    apply Nat.leb_le in E3, E4. lia.
  - intros Hc. unfold main. cbn [length Nat.leb andb negb lookup list_lookup].
    by rewrite (unknown_command _ _ _ Hc).
  - intros Hc. unfold main. cbn [length Nat.leb andb negb lookup list_lookup].
    repeat (apply elem_of_cons in Hc as [->|Hc]);
      [..|by apply elem_of_nil in Hc];
      (erewrite known_command by (repeat first [by left|right]);
       reflexivity).
  - intros Hc. unfold main. cbn [length Nat.leb andb negb lookup list_lookup].
    repeat (apply elem_of_cons in Hc as [->|Hc]);
      [..|by apply elem_of_nil in Hc];
      (erewrite known_command by (repeat first [by left|right]);
       reflexivity).
Qed.
(** * A container that is too short *)

Lemma entries_of_short c : (length c < 2112)%nat -> entries_of c = None.
Proof.
  intros Hlen. destruct (entries_of c) as [es|] eqn:Hes; [|done].
  apply entries_of_some_length in Hes. lia.
Qed.

Lemma refused_at (e : exn) (F : gmap pystr bytes) C C' I O K r :
  r = (Raise e, mkWorld F C' I O K) ->
  refused_with e (mkWorld F C I O K) r.
Proof. by intros ->. Qed.

(** X18: a container without its whole table.  The entry table is read as
    32 frames of 64 bytes after the header, so a container file of fewer
    than 2112 bytes makes every operation that reads the table fail with
    the error of [struct.unpack], before anything is written, asked or
    printed: [lsfs], [dfrgfs] and [addfs] whatever the name, [getfs],
    [catfs] and [rmfs] for a name that [encode_filename] accepts. *)
Theorem short_container_is_refused
    (strftime_localtime : Z -> outcome pystr)
    (F : gmap pystr bytes) (C : nat) (I O : list pystr) (K : Z)
    (fs_path file : pystr) (c : bytes) :
  F !! fs_path = Some c -> (length c < 2112)%nat ->
  let w := mkWorld F C I O K in
  refused_with struct_error w (lsfs strftime_localtime fs_path w)
  /\ refused_with struct_error w (dfrgfs fs_path w)
  /\ (is_Some (F !! file) ->
      refused_with struct_error w (addfs fs_path file w))
  /\ (forall filename, encode_filename file = Ret filename ->
        refused_with struct_error w (getfs fs_path file w)
        /\ refused_with struct_error w (catfs fs_path file w)
        /\ (is_Some (F !! file) ->
            refused_with struct_error w (rmfs fs_path file w))).
Proof.
  intros Hfs Hlen w. subst w.
  pose proof (entries_of_short c Hlen) as Hnone.
  assert (forall C0, exists C',
            read_entries fs_path (mkWorld F C0 I O K)
            = (Raise struct_error, mkWorld F C' I O K)) as Hfail
    by (intros C0; by eapply read_entries_fail).
  split; [|split; [|split]].
  - destruct (Hfail 0%nat) as [C' HC']. eapply refused_at. unfold lsfs.
    mstep path_exists_true. mstep assert_true. mstep open_existing_run.
    by mraise HC'.
  - destruct (header_of c) as [h|] eqn:Hh.
    + destruct (Hfail 64%nat) as [C' HC']. eapply refused_at. unfold dfrgfs.
      mstep path_exists_true. mstep assert_true. mstep open_existing_run.
      mstep read_header_ok. by mraise HC'.
    + eapply refused_at. unfold dfrgfs.
      mstep path_exists_true. mstep assert_true. mstep open_existing_run.
      by mraise read_header_short.
  - intros [p Hp]. destruct (header_of c) as [h|] eqn:Hh.
    + destruct (Hfail 64%nat) as [C' HC']. eapply refused_at. unfold addfs.
      mstep path_exists_true. mstep assert_true.
      mstep path_exists_true. mstep assert_true. mstep open_existing_run.
      mstep read_header_ok. by mraise HC'.
    + eapply refused_at. unfold addfs.
      mstep path_exists_true. mstep assert_true.
      mstep path_exists_true. mstep assert_true. mstep open_existing_run.
      by mraise read_header_short.
  - intros filename Hname. split; [|split].
    + destruct (Hfail 0%nat) as [C' HC']. eapply refused_at. unfold getfs.
      mstep path_exists_true. mstep assert_true. mstep lift_ret.
      mstep open_existing_run. by mraise HC'.
    + destruct (Hfail 0%nat) as [C' HC']. eapply refused_at. unfold catfs.
      mstep path_exists_true. mstep assert_true. mstep lift_ret.
      mstep open_existing_run. by mraise HC'.
    + intros [p Hp]. destruct (header_of c) as [h|] eqn:Hh.
      * destruct (Hfail 64%nat) as [C' HC']. eapply refused_at.
        unfold rmfs.
        mstep path_exists_true. mstep assert_true.
        mstep path_exists_true. mstep assert_true. mstep lift_ret.
        mstep open_existing_run. mstep read_header_ok. by mraise HC'.
      * eapply refused_at. unfold rmfs.
        mstep path_exists_true. mstep assert_true.
        mstep path_exists_true. mstep assert_true. mstep lift_ret.
        mstep open_existing_run. by mraise read_header_short.
Qed.
(** * Names longer than the name field *)

(** X19: a name whose encoding does not fit.  [encode_filename] limits the
    number of characters, not of bytes: for a name of at most 31
    characters whose UTF-8 encoding has more than 32 bytes it returns the
    bare encoding, longer than the 32 bytes of a name field, so no entry
    of any table has it: [getfs] and [catfs] of such a name fail with the
    assertion that the file is not in the file system. *)
Theorem overlong_name_is_never_found
    (F : gmap pystr bytes) (C : nat) (I O : list pystr) (K : Z)
    (fs_path file : pystr) (c b : bytes) (es : list FileEntry) :
  F !! fs_path = Some c -> entries_of c = Some es ->
  str_encode file = Some b -> (length file <= 31)%nat ->
  (32 < length b)%nat ->
  encode_filename file = Ret b
  /\ getfs fs_path file (mkWorld F C I O K)
     = (Raise (AssertionError not_in_filesystem), mkWorld F 2112 I O K)
  /\ catfs fs_path file (mkWorld F C I O K)
     = (Raise (AssertionError not_in_filesystem), mkWorld F 2112 I O K).
Proof.
  intros Hfs Hes Hb Hchars Hlen.
  assert (encode_filename file = Ret b) as Hname.
  { unfold encode_filename. rewrite bool_decide_false by lia. rewrite Hb.
    unfold zeros. replace (Z.to_nat _) with 0%nat by lia.
    by rewrite app_nil_r. }
  assert (list_find (fun entry => name entry = b) es = None) as Hnone.
  { apply list_find_None, Forall_forall.
    intros e [k Hk]%list_elem_of_lookup Hn.
    pose proof (entries_of_fits _ _ _ _ Hes Hk) as Hfit.
    apply FileEntry_fits_inv in Hfit. rewrite Hn in Hfit. lia. }
  split; [done|]. split.
  - by eapply getfs_not_found.
  - by eapply catfs_not_found.
Qed.

(** * Where [getfs] writes *)

(** X20: [getfs] asks before it overwrites, once.  When no host file has
    the requested name, [getfs] writes the payload there without asking.
    When one has, it asks: the answer [OVERWRITE] replaces that file; any
    other answer is taken as the new name, the existing file stays, and
    the payload is written under the new name, replacing without a second
    question whatever that name held. *)
Theorem getfs_asks_before_overwriting
    (F : gmap pystr bytes) (C : nat) (I O : list pystr) (K : Z)
    (fs_path extraction_file answer : pystr) (c filename : bytes)
    (es : list FileEntry) (i : nat) (e : FileEntry) :
  F !! fs_path = Some c ->
  encode_filename extraction_file = Ret filename ->
  entries_of c = Some es ->
  list_find (fun entry => name entry = filename) es = Some (i, e) ->
  extraction_file <> fs_path -> answer <> fs_path ->
  let asked := O ++ [getfs_prompt extraction_file] in
  (F !! extraction_file = None ->
   exists C',
     getfs fs_path extraction_file (mkWorld F C I O K)
     = (Ret tt,
        mkWorld (<[extraction_file := payload c e]> F) C' I
          (O ++ [getfs_message fs_path extraction_file]) K))
  /\ (is_Some (F !! extraction_file) -> answer = OVERWRITE ->
      exists C',
        getfs fs_path extraction_file (mkWorld F C (answer :: I) O K)
        = (Ret tt,
           mkWorld (<[extraction_file := payload c e]> F) C' I
             (asked ++ [getfs_message fs_path extraction_file]) K))
  /\ (is_Some (F !! extraction_file) -> answer <> OVERWRITE ->
      exists C',
        getfs fs_path extraction_file (mkWorld F C (answer :: I) O K)
        = (Ret tt,
           mkWorld (<[answer := payload c e]> F) C' I
             (asked ++ [getfs_message fs_path answer]) K)
        /\ (answer <> extraction_file ->
            <[answer := payload c e]> F !! extraction_file
            = F !! extraction_file)).
Proof.
  intros Hfs Hname Hes Hfind Hef Hans asked. subst asked.
  split; [|split].
  - intros Hno. eexists. by eapply getfs_run_fresh.
  - intros [q Hq] ->. eexists.
    pose proof (getfs_run_existing F C I O K fs_path extraction_file c
                  filename es i e Hfs Hname Hes Hfind q OVERWRITE Hq) as Hrun.
    unfold destination in Hrun.
    rewrite bool_decide_false in Hrun by (by intros []).
    rewrite (Hrun Hef). by rewrite <- app_assoc.
  - intros [q Hq] Hno. eexists. split.
    + pose proof (getfs_run_existing F C I O K fs_path extraction_file c
                    filename es i e Hfs Hname Hes Hfind q answer Hq) as Hrun.
      unfold destination in Hrun.
      rewrite bool_decide_true in Hrun by done.
      rewrite (Hrun Hans). by rewrite <- app_assoc.
    + intros Hne. by rewrite lookup_insert_ne.
Qed.
(** * Defragmenting twice *)

Lemma packed_tight_ext moved : forall c c' cur,
  0 <= cur ->
  drop (Z.to_nat cur) c' = drop (Z.to_nat cur) c ->
  length c' = length c ->
  packed_tight c cur moved -> packed_tight c' cur moved.
Proof.
  induction moved as [|x rest IH]; intros c c' cur Hcur Hdrop Hlen; [done|].
  cbn [packed_tight]. intros (Hs & Hl & Hin & Hz & Hrest).
  pose proof (padded_size_bounds _ Hl) as [Hpad _].
  assert (forall p, (Z.to_nat cur <= p)%nat -> drop p c' = drop p c) as Hfrom.
  { intros p Hp.
    replace p with (Z.to_nat cur + (p - Z.to_nat cur))%nat by lia.
    by rewrite <- !drop_drop, Hdrop. }
  split; [done|]. split; [done|]. split; [lia|]. split.
  - rewrite Hfrom by lia. done.
  - apply (IH c); [lia|apply Hfrom; lia|done|done].
Qed.

Lemma compact_bytes_tight keep : forall c cur limit,
  0 <= cur ->
  Forall (fun e => 0 <= start e /\ 0 <= length_ e) keep ->
  laid_out cur keep limit -> limit <= Z.of_nat (length c) ->
  packed_tight (compact_bytes c keep cur).1.1 cur
    (compact_bytes c keep cur).1.2.
Proof.
  induction keep as [|e rest IH]; intros c cur limit Hcur Hall Hlay Hlim;
    [done|].
  pose proof Hall as Hall'.
  apply Forall_cons_1 in Hall' as [[Hs Hl] Hrest].
  destruct Hlay as [Hcs Hlay].
  pose proof (padded_size_bounds _ Hl) as [Hpad _].
  pose proof (laid_out_le _ _ _ Hrest Hlay) as Hend.
  rewrite compact_bytes_cons.
  set (data := read_at c (Z.to_nat (start e)) (length_ e)).
  assert (length data = Z.to_nat (length_ e)) as Hdata.
  { unfold data. rewrite read_at_nonneg by done.
    rewrite length_take, length_drop. lia. }
  set (c1 := write_at c (Z.to_nat cur) data).
  assert (length c <= length c1)%nat as Hc1 by apply length_write_at_le.
  set (c2 := if padded_size (length_ e) >? length_ e
             then write_at c1 (Z.to_nat cur + length data)
                    (zeros (padded_size (length_ e) - length_ e))
             else c1).
  assert (length c <= length c2)%nat as Hc2.
  { unfold c2. destruct (_ >? _); [|done].
    etrans; [exact Hc1|apply length_write_at_le]. }
  assert (take (Z.to_nat (padded_size (length_ e) - length_ e))
            (drop (Z.to_nat (cur + length_ e)) c2)
          = zeros (padded_size (length_ e) - length_ e)) as Hzero.
  { unfold c2. destruct (padded_size (length_ e) >? length_ e) eqn:Hgt.
    - replace (Z.to_nat (cur + length_ e))
        with (Z.to_nat cur + length data)%nat by lia.
      replace (Z.to_nat (padded_size (length_ e) - length_ e))
        with (length (zeros (padded_size (length_ e) - length_ e)))
        by (unfold zeros; by rewrite length_replicate).
      apply slice_write_at_same.
    - replace (padded_size (length_ e) - length_ e) with 0 by lia.
      by rewrite take_0. }
  assert (laid_out (cur + padded_size (length_ e)) rest limit) as Hlay'
    by (eapply laid_out_mono; [|exact Hlay]; lia).
  pose proof (compact_bytes_spec rest c2 (cur + padded_size (length_ e))
                limit ltac:(lia) Hrest Hlay' ltac:(lia))
    as (_ & _ & Hbefore & _ & Hgrow & _).
  pose proof (IH c2 (cur + padded_size (length_ e)) limit ltac:(lia) Hrest
                Hlay' ltac:(lia)) as Htight.
  cbv zeta. fold data c1 c2. cbn [fst snd].
  cbn [packed_tight start length_ set_start].
  split; [done|]. split; [done|]. split; [lia|]. split; [|done].
  rewrite Hbefore by lia. exact Hzero.
Qed.

Lemma take_length_take {A} (l : list A) n : take (length (take n l)) l = take n l.
Proof.
  rewrite length_take. destruct (decide (n <= length l)%nat).
  - by rewrite Nat.min_l.
  - rewrite Nat.min_r by lia. by rewrite !take_ge by lia.
Qed.

Lemma set_start_same x : set_start (start x) x = x.
Proof. by destruct x. Qed.

(** On a tight layout the compaction loop changes nothing. *)
Lemma compact_bytes_again moved : forall c cur,
  0 <= cur -> packed_tight c cur moved ->
  (compact_bytes c moved cur).1.1 = c
  /\ (compact_bytes c moved cur).1.2 = moved.
Proof.
  induction moved as [|x rest IH]; intros c cur Hcur; [done|].
  cbn [packed_tight]. intros (Hs & Hl & Hin & Hz & Hrest).
  pose proof (padded_size_bounds _ Hl) as [Hpad _].
  rewrite compact_bytes_cons.
  set (data := read_at c (Z.to_nat (start x)) (length_ x)).
  assert (length data = Z.to_nat (length_ x)) as Hdata.
  { unfold data. rewrite read_at_nonneg by done.
    rewrite length_take, length_drop. lia. }
  assert (write_at c (Z.to_nat cur) data = c) as Hc1.
  { apply write_at_same. unfold data. rewrite read_at_nonneg by done.
    rewrite Hs. apply take_length_take. }
  assert ((if padded_size (length_ x) >? length_ x
           then write_at (write_at c (Z.to_nat cur) data)
                  (Z.to_nat cur + length data)
                  (zeros (padded_size (length_ x) - length_ x))
           else write_at c (Z.to_nat cur) data) = c) as Hc2.
  { rewrite Hc1. destruct (_ >? _); [|done].
    apply write_at_same.
    replace (Z.to_nat cur + length data)%nat
      with (Z.to_nat (cur + length_ x)) by lia.
    unfold zeros at 1. rewrite length_replicate. exact Hz. }
  cbv zeta. fold data. rewrite Hc2. cbn [fst snd].
  destruct (IH c (cur + padded_size (length_ x)) ltac:(lia) Hrest)
    as [-> ->].
  by rewrite <- Hs, set_start_same.
Qed.

(** The final offset depends on the lengths only. *)
Lemma compact_bytes_offset l1 l2 :
  Forall2 (fun x e => length_ x = length_ e) l1 l2 ->
  forall c1 c2 cur,
    (compact_bytes c1 l1 cur).2 = (compact_bytes c2 l2 cur).2.
Proof.
  induction 1 as [|x e l1 l2 Hxe _ IH]; intros c1 c2 cur; [done|].
  rewrite !compact_bytes_cons. cbv zeta. cbn [snd]. rewrite Hxe.
  apply IH.
Qed.

(** X21: a second [dfrgfs] changes nothing.  On a well-formed container
    [dfrgfs] returns and leaves a container on which [dfrgfs] returns
    again, reports no removed file and no freed byte, and leaves every
    byte of the container as the first run left it. *)
Theorem dfrgfs_twice_changes_nothing
    (F : gmap pystr bytes) (C : nat) (I O : list pystr) (K : Z)
    (fs_path : pystr) (c : bytes) (h : Header) (es : list FileEntry) :
  F !! fs_path = Some c -> header_of c = Some h -> entries_of c = Some es ->
  well_formed c h es ->
  exists c1,
    let w1 := mkWorld (<[fs_path := c1]> F) 64 I
                (O ++ [dfrgfs_message fs_path es]) K in
    dfrgfs fs_path (mkWorld F C I O K) = (Ret tt, w1)
    /\ dfrgfs fs_path w1
       = (Ret tt,
          mkWorld (<[fs_path := c1]> F) 64 I
            ((O ++ [dfrgfs_message fs_path es])
             ++ [dfrgfs_message fs_path []]) K).
Proof.
  intros Hfs Hh Hes Hwf.
  destruct (pack_entries_fits _ (compacted_fits c h es Hes Hwf)) as [tb Htb].
  destruct (FileEntry_unpack_pack _ FileEntry_default_fits)
    as (eb0 & Heb0 & Heb0l & _).
  destruct (Header_unpack_pack _ (defragmented_header_fits c h es Hh Hes Hwf))
    as (hb & Hhb & Hhbl & _).
  pose proof (defragmented_entries c h es Hes Hwf tb eb0 hb Htb Heb0 Hhb)
    as Hes1.
  pose proof (defragmented_header_of c h es Hh Hes Hwf tb eb0 hb Hhb) as Hh1.
  pose proof (compacted_spec c h es Hes Hwf)
    as (Hlen & Hall & _ & Hcur & Hgrow & _).
  pose proof (kept_length c es Hes) as Hk.
  pose proof (entries_of_some_length _ _ Hes) as Hc.
  pose proof (pack_entries_length _ _ Htb) as Htbl.
  assert (packed_tight (compact_bytes c (kept es) DATA_START_OFFSET).1.1
            DATA_START_OFFSET
            (compact_bytes c (kept es) DATA_START_OFFSET).1.2) as Htight.
  { destruct Hwf as (Hlay & Hlim & _).
    eapply compact_bytes_tight; [done|by eapply kept_nonneg|exact Hlay|done]. }
  set (r := compact_bytes c (kept es) DATA_START_OFFSET) in *.
  set (T := tb ++ concat (replicate (32 - length r.1.2) eb0)).
  assert (length T = 2048%nat) as HT.
  { unfold T. rewrite length_app, Htbl.
    assert (length (concat (replicate (32 - length r.1.2) eb0))
            = (64 * (32 - length r.1.2))%nat) as ->; [|lia].
    generalize (32 - length r.1.2)%nat as n. clear -Heb0l.
    induction n as [|n IH]; [done|].
    cbn [replicate concat]. rewrite length_app, IH. lia. }
  set (c1 := defragmented c es tb eb0 hb) in *.
  assert (c1 = write_at (write_at r.1.1 64 T) 0 hb) as Hc1 by done.
  assert (Forall (fun x => is_empty x = false /\ flag x = 0) r.1.2) as Hmoved.
  { apply Forall_forall. intros x [k Hk']%list_elem_of_lookup.
    destruct (compacted_entry c h es Hes Hwf _ _ Hk')
      as (e & s & He & -> & _).
    apply list_elem_of_lookup_2 in He. unfold kept in He.
    apply list_elem_of_filter in He as [[Hne Hflag] _].
    split; [by rewrite (is_empty_name e (set_start s e))|done]. }
  assert (kept (r.1.2 ++ replicate (32 - length r.1.2) FileEntry_default)
          = r.1.2) as Hkept.
  { unfold kept. rewrite filter_app, filter_all by done.
    rewrite filter_none, app_nil_r; [done|].
    apply Forall_replicate. by intros [? _]. }
  assert (packed_tight c1 DATA_START_OFFSET r.1.2) as Htight1.
  { eapply packed_tight_ext; [done| | |exact Htight].
    - change (Z.to_nat DATA_START_OFFSET) with 2112%nat.
      rewrite Hc1. rewrite !drop_write_at_after by lia. done.
    - rewrite Hc1. rewrite length_write_at_inside.
      + rewrite length_write_at_inside; lia.
      + rewrite length_write_at_inside; lia. }
  destruct (compact_bytes_again r.1.2 c1 DATA_START_OFFSET ltac:(done)
              Htight1) as [Hsame1 Hsame2].
  assert ((compact_bytes c1 r.1.2 DATA_START_OFFSET).2 = r.2) as Hsame3.
  { apply compact_bytes_offset. apply Forall2_same_length_lookup.
    split; [done|]. intros k x e Hx He.
    destruct (Hall _ _ He) as (s & Hs & _). rewrite Hs in Hx.
    by injection Hx as <-. }
  exists c1. cbv zeta. split; [by eapply dfrgfs_run|].
  erewrite (dfrgfs_run I _ K fs_path (<[fs_path := c1]> F) 64 c1 _ _ tb eb0 hb);
    [|apply lookup_insert_eq|exact Hh1|exact Hes1
     |by rewrite Hkept, Hsame2|exact Heb0
     |by rewrite Hkept, Hsame2, Hsame3].
  rewrite insert_insert_eq. f_equal. f_equal; [f_equal|].
  - unfold defragmented. rewrite Hkept, Hsame1, Hsame2. fold T.
    assert (write_at c1 64 T = c1) as ->.
    { apply write_at_same. rewrite Hc1.
      rewrite slice_write_at_after by lia. apply slice_write_at_same. }
    apply write_at_same. rewrite Hc1, drop_0.
    pose proof (slice_write_at_same (write_at r.1.1 64 T) 0 hb) as E.
    by rewrite drop_0 in E.
  - do 2 f_equal. unfold dfrgfs_message.
    assert (filter (fun entry => is_empty entry = false /\ flag entry <> 0)
              (r.1.2 ++ replicate (32 - length r.1.2) FileEntry_default)
            = []) as ->; [|done].
    rewrite filter_app. apply app_nil. split; apply filter_none.
    + eapply Forall_impl; [exact Hmoved|]. intros x [_ Hf] [_ Hn]. done.
    + apply Forall_replicate. by intros [? _].
Qed.
(** * Where [addfs] stores *)

Lemma with_payload_size c h p :
  0 <= next_free_offset h ->
  next_free_offset h <= Z.of_nat (length c) ->
  Z.of_nat (length (with_payload c h p))
  = Z.max (Z.of_nat (length c))
      (next_free_offset h + padded_size (Z.of_nat (length p))).
Proof.
  intros Hnfo Hlim.
  pose proof (padded_size_bounds (Z.of_nat (length p)) ltac:(lia)) as [Hpad _].
  pose proof (length_padding_of (Z.of_nat (length p)) ltac:(lia)) as Hpl.
  unfold with_payload.
  remember (padding_of (Z.of_nat (length p))) as pad eqn:E.
  remember (padded_size (Z.of_nat (length p))) as padded eqn:E'.
  clear E E'.
  destruct p as [|x p']; destruct pad as [|z pad'];
    rewrite ?write_at_nil, ?length_write_at by done;
    cbn [length] in *; lia.
Qed.

(** X22: where [addfs] stores.  On a consistent container, a run of [addfs]
    that passes its checks fills the first empty slot, which is the slot
    after the stored entries, with an entry for the payload at the old
    free offset, advances the free offset by the padded size and counts
    one file more.  The file grows only as far as the padded payload does
    not fit into what lies after the free offset: space that [dfrgfs]
    freed is used again. *)
Theorem addfs_stores_at_free_offset
    (F : gmap pystr bytes) (C : nat) (I O : list pystr) (K : Z)
    (fs_path new_file : pystr) (c p b : bytes)
    (h : Header) (es : list FileEntry) (i : nat) (e0 : FileEntry) :
  F !! fs_path = Some c -> F !! new_file = Some p ->
  header_of c = Some h -> entries_of c = Some es ->
  consistent c ->
  str_encode new_file = Some b -> (length b <= 31)%nat ->
  list_find (fun entry => name entry = padded_name b) es = None ->
  list_find (fun entry => is_empty entry) es = Some (i, e0) ->
  addfs_fits h p K ->
  exists c1 h1 e1,
    addfs fs_path new_file (mkWorld F C I O K)
    = (Ret tt,
       mkWorld (<[fs_path := c1]> F) 64 I
         (O ++ [addfs_message fs_path new_file]) K)
    /\ header_of c1 = Some h1
    /\ entries_of c1 = Some (<[i := e1]> es)
    /\ Z.of_nat i = count (fun e => negb (is_empty e)) es
    /\ name e1 = padded_name b /\ start e1 = next_free_offset h
    /\ length_ e1 = Z.of_nat (length p) /\ flag e1 = 0 /\ created e1 = K
    /\ payload c1 e1 = p
    /\ file_count h1 = file_count h + 1
    /\ deleted_files h1 = deleted_files h
    /\ next_free_offset h1
       = next_free_offset h + padded_size (Z.of_nat (length p))
    /\ Z.of_nat (length c1)
       = Z.max (Z.of_nat (length c)) (next_free_offset h1).
Proof.
  intros Hfs Hfile Hh Hes Hcons Hb Hlen Hnodup Hfree Hfits.
  destruct (consistent_well_formed _ _ _ Hcons Hh Hes) as [_ Hdata].
  destruct (FileEntry_unpack_pack _
              (added_entry_fits c p h Hh b K Hlen Hfits))
    as (eb & Heb & Hebl & _).
  destruct (Header_unpack_pack _ (added_header_fits c p h Hh K Hfits))
    as (hb & Hhb & Hhbl & _).
  pose proof (free_slot_lt c es i e0 Hes Hfree) as Hi32.
  exists (write_at (write_at (with_payload c h p) (64 + 64 * i) eb) 0 hb),
    (added_header h p), (added_entry h b p K).
  split; [by eapply addfs_ok|].
  split; [by eapply added_header_of|].
  split; [by eapply added_entries|]. split.
  { destruct Hcons as (h' & L & R & _ & Hes' & HL & HR & _).
    assert (es = L ++ R) as -> by congruence.
    destruct (first_empty_slot _ _ _ _ HL HR Hfree) as [-> _].
    rewrite count_app, count_all, count_none; [lia|..].
    - eapply Forall_impl; [exact HR|]. by intros x ->.
    - eapply Forall_impl; [exact HL|]. by intros x ->. }
  do 5 (split; [done|]).
  split; [by eapply added_payload|]. do 3 (split; [done|]).
  cbn [next_free_offset added_header].
  destruct Hcons as (h' & L & R & Hh' & _ & _ & _ & _ & _ & Hlim).
  assert (h' = h) as -> by congruence.
  pose proof (with_payload_size c h p ltac:(unfold DATA_START_OFFSET,
    HEADER_SIZE, MAX_FILES, ENTRY_SIZE in Hdata; lia) Hlim) as Hsize.
  pose proof (entries_of_some_length _ _ Hes) as Hc.
  rewrite <- Hsize. f_equal.
  assert (2112 <= length (with_payload c h p))%nat by lia.
  rewrite length_write_at_inside.
  - rewrite length_write_at_inside; lia.
  - rewrite length_write_at_inside; lia.
Qed.
(** * Stored payloads do not overlap *)

Lemma laid_out_ordered L : forall cur limit j k e e',
  Forall (fun e => 0 <= start e /\ 0 <= length_ e) L ->
  laid_out cur L limit ->
  L !! j = Some e -> L !! k = Some e' -> (j < k)%nat ->
  start e + padded_size (length_ e) <= start e'.
Proof.
  induction L as [|x L IH]; intros cur limit j k e e' Hall Hlay Hj Hk Hjk;
    [done|].
  apply Forall_cons_1 in Hall as [_ Hall]. destruct Hlay as [_ Hlay].
  destruct k as [|k]; [lia|]. cbn in Hk.
  destruct j as [|j]; cbn in Hj.
  - injection Hj as ->.
    apply list_elem_of_lookup_2 in Hk.
    by destruct (laid_out_starts _ _ _ _ Hall Hlay Hk).
  - eapply IH; [done..|]. lia.
Qed.

(** X23: the layout that the operations keep.  In every container that
    [mkfs] made and that returning runs of [addfs], [rmfs] and [dfrgfs]
    changed, the stored entries come first in the table and the empty
    slots after them; the stored entries have distinct names; the payload
    of each, with its padding, ends where the payload of a later one
    starts or before; and all of them lie between the start of the data
    region and the free offset, inside the file.  No stored payload
    overlaps another, the table or the header. *)
Theorem stored_payloads_are_disjoint (fs_path : pystr) (w : world) :
  reachable fs_path w ->
  exists c h es,
    files w !! fs_path = Some c
    /\ header_of c = Some h /\ entries_of c = Some es
    /\ next_free_offset h <= Z.of_nat (length c)
    /\ (forall k e, es !! k = Some e -> is_empty e = false ->
          DATA_START_OFFSET <= start e
          /\ start e + padded_size (length_ e) <= next_free_offset h)
    /\ (forall j k e e',
          (j < k)%nat -> es !! j = Some e -> es !! k = Some e' ->
          is_empty e' = false ->
          is_empty e = false
          /\ name e <> name e'
          /\ start e + padded_size (length_ e) <= start e').
Proof.
  intros (c & Hc & Hcons)%reachable_consistent.
  pose proof Hcons as (h & L & R & Hh & Hes & HL & HR & Hlay & Hnd & Hlim).
  exists c, h, (L ++ R). do 4 (split; [done|]).
  pose proof (entries_nonneg _ _ Hes) as Hnn.
  apply Forall_app in Hnn as [HnnL _].
  assert (forall k y, (L ++ R) !! k = Some y -> is_empty y = false ->
                      L !! k = Some y) as HinL.
  { intros k y Hk Hy. destruct (decide (k < length L)%nat) as [Hlt|Hge].
    - by rewrite lookup_app_l in Hk.
    - rewrite lookup_app_r in Hk by lia.
      apply list_elem_of_lookup_2 in Hk.
      rewrite Forall_forall in HR. rewrite (HR y Hk) in Hy. done. }
  split.
  - intros k e Hk Hne.
    by destruct (stored_entry c h (L ++ R) k e Hcons Hh Hes Hk Hne)
      as (_ & ? & _ & ? & _).
  - intros j k e e' Hjk Hj Hk Hne'.
    pose proof (HinL _ _ Hk Hne') as HkL.
    pose proof (lookup_lt_Some _ _ _ HkL) as HkLt.
    rewrite lookup_app_l in Hj by lia.
    assert (is_empty e = false) as Hne.
    { rewrite Forall_forall in HL. apply HL.
      by eapply list_elem_of_lookup_2. }
    split; [done|]. split.
    + intros Hname.
      assert (j = k); [|lia].
      eapply (NoDup_lookup (name <$> L)); [done|..].
      * by rewrite list_lookup_fmap, Hj.
      * by rewrite list_lookup_fmap, HkL, Hname.
    + by eapply laid_out_ordered.
Qed.

(** * Add, then print *)

(** X24: a text file that was added is printed as it was.  On a container
    whose free offset lies in the data region, after an [addfs] of a host
    file that holds the UTF-8 encoding of [text], [catfs] of the same name
    prints [text] after the name. *)
Theorem added_text_is_printed
    (F : gmap pystr bytes) (C : nat) (I O : list pystr) (K : Z)
    (fs_path new_file text : pystr) (c p b : bytes)
    (h : Header) (es : list FileEntry) (i : nat) (e0 : FileEntry) :
  F !! fs_path = Some c -> F !! new_file = Some p ->
  header_of c = Some h -> entries_of c = Some es ->
  DATA_START_OFFSET <= next_free_offset h ->
  str_encode new_file = Some b -> (length b <= 31)%nat ->
  list_find (fun entry => name entry = padded_name b) es = None ->
  list_find (fun entry => is_empty entry) es = Some (i, e0) ->
  addfs_fits h p K ->
  str_encode text = Some p ->
  exists w1 w2,
    addfs fs_path new_file (mkWorld F C I O K) = (Ret tt, w1)
    /\ catfs fs_path new_file w1 = (Ret tt, w2)
    /\ stdout w2
       = O ++ [addfs_message fs_path new_file; catfs_message new_file text]
    /\ files w2 = files w1.
Proof.
  intros Hfs Hfile Hh Hes Hdata Hb Hlen Hnodup Hfree Hfits Htext.
  destruct (FileEntry_unpack_pack _
              (added_entry_fits c p h Hh b K Hlen Hfits)) as (eb & Heb & _).
  destruct (Header_unpack_pack _ (added_header_fits c p h Hh K Hfits))
    as (hb & Hhb & _).
  pose proof (str_encode_length _ _ Hb) as Hchars.
  eexists _, _. split; [by eapply addfs_ok|]. split.
  - eapply catfs_run;
      [apply lookup_insert_eq
      |apply encode_filename_ok; [exact Hb|lia]
      |by eapply added_entries
      |by eapply added_find
      |].
    erewrite added_payload by eassumption.
    by apply bytes_decode_encode.
  - split; [|done]. cbn [stdout]. by rewrite <- app_assoc.
Qed.

(** * The properties at sample containers *)

Lemma fresh_host_reachable : reachable img fresh_host.
Proof. apply (reachable_mkfs img host). vm_compute. reflexivity. Qed.

Lemma one_file_host_reachable : reachable img one_file_host.
Proof.
  apply (reachable_addfs img fresh_host (str "a.txt"));
    [apply fresh_host_reachable|]. vm_compute. reflexivity.
Qed.

Lemma stored_host_reachable : reachable img stored_host.
Proof.
  apply (reachable_addfs img one_file_host (str "b.txt"));
    [apply one_file_host_reachable|]. vm_compute. reflexivity.
Qed.

Lemma removed_host_reachable : reachable img removed_host.
Proof.
  apply (reachable_rmfs img stored_host (str "a.txt"));
    [apply stored_host_reachable|]. vm_compute. reflexivity.
Qed.

Lemma image_consistent w :
  reachable img w -> is_Some (files w !! img) -> consistent (image w).
Proof.
  intros (c & Hc & Hcons)%reachable_consistent _.
  unfold image. by rewrite Hc.
Qed.

Lemma stored_image_consistent : consistent (image stored_host).
Proof.
  apply image_consistent; [apply stored_host_reachable|].
  vm_compute. eexists. reflexivity.
Qed.

Lemma removed_image_consistent : consistent (image removed_host).
Proof.
  apply image_consistent; [apply removed_host_reachable|].
  vm_compute. eexists. reflexivity.
Qed.

Lemma mkfs_creates_empty_container_witness :
  exists c,
    mkfs img (mkWorld (files host) 0 [] [] 1700000000)
    = (Ret tt,
       mkWorld (<[img := c]> (files host)) 2112 []
         ([] ++ [mkfs_message img]) 1700000000)
    /\ length c = 2112%nat
    /\ header_of c = Some Header_default
    /\ entries_of c = Some (replicate 32 FileEntry_default).
Proof.
  apply (mkfs_creates_empty_container (files host) 0 [] [] 1700000000 img).
  vm_compute. reflexivity.
Defined.

Lemma mkfs_existing_container_witness :
  mkfs img (mkWorld (files fresh_host) 0 [ABORT] [] 1700000000)
  = (Raise (SystemExit mkfs_aborted),
     mkWorld (files fresh_host) 0 [] ([] ++ [mkfs_prompt img]) 1700000000).
Proof.
  assert (files fresh_host !! img = Some (image fresh_host)) as Hfs
    by (vm_compute; reflexivity).
  exact (proj1 (proj2 (mkfs_existing_container (files fresh_host) 0 [] []
                         1700000000 img ABORT _ Hfs)) eq_refl).
Defined.

Lemma getfs_writes_destination_only_witness :
  files (getfs img (str "b.txt")
           (mkWorld (files removed_host) 0 [str "out.txt"] [] 1700000000)).2
    !! img
  = files removed_host !! img.
Proof.
  apply (getfs_writes_destination_only img (str "b.txt") img
           (mkWorld (files removed_host) 0 [str "out.txt"] [] 1700000000)).
  - vm_compute. intros [=].
  - vm_compute. intros [=].
Defined.

Lemma operations_need_the_container_witness :
  gifs img (mkWorld (files host) 0 [] [] 1700000000)
  = (Raise (AssertionError fs_does_not_exist),
     mkWorld (files host) 0 [] [] 1700000000)
  /\ addfs img (str "a.txt") (mkWorld (files host) 0 [] [] 1700000000)
     = (Raise (AssertionError fs_does_not_exist),
        mkWorld (files host) 0 [] [] 1700000000).
Proof.
  assert (files host !! img = None) as Hno by (vm_compute; reflexivity).
  destruct (operations_need_the_container seconds (files host) 0 [] []
              1700000000 img (str "a.txt") Hno) as (Hg & Ha & _).
  split; [exact Hg|exact Ha].
Defined.

Lemma addfs_refuses_existing_name_witness :
  addfs img (str "a.txt")
    (mkWorld (files removed_host) 0 [] [] 1700000000)
  = (Raise (SystemExit already_in_filesystem),
     mkWorld (files removed_host) 2112 [] [] 1700000000).
Proof.
  pose (w := removed_host).
  assert (files w !! img = Some (image w)) as Hfs by (vm_compute; reflexivity).
  eassert (files w !! str "a.txt" = Some _) as Hfile
    by (vm_compute; reflexivity).
  eassert (header_of (image w) = Some _) as Hh by (vm_compute; reflexivity).
  eassert (entries_of (image w) = Some _) as Hes by (vm_compute; reflexivity).
  eassert (encode_filename (str "a.txt") = Ret _) as Hname
    by (vm_compute; reflexivity).
  lazymatch type of Hes with
  | _ = Some ?es =>
      lazymatch type of Hname with
      | _ = Ret ?fn =>
          eassert (list_find (fun entry => name entry = fn) es
                   = Some (0%nat, _)) as Hfind by (vm_compute; reflexivity)
      end
  end.
  exact (addfs_refuses_existing_name (files w) 0 [] [] 1700000000 img
           (str "a.txt") _ _ _ _ _ _ _ Hfs Hfile Hh Hes Hname Hfind).
Defined.
(** The facts of the container [img] in the world [w], and of the entry
    that a name finds there. *)
Ltac container_facts w :=
  assert (files w !! img = Some (image w)) as Hfs by (vm_compute; reflexivity);
  eassert (header_of (image w) = Some _) as Hh by (vm_compute; reflexivity);
  eassert (entries_of (image w) = Some _) as Hes by (vm_compute; reflexivity).

Ltac found_at file i :=
  eassert (encode_filename file = Ret _) as Hname
    by (vm_compute; reflexivity);
  lazymatch goal with
  | Hes : entries_of _ = Some ?es, Hname : encode_filename _ = Ret ?fn |- _ =>
      eassert (list_find (fun entry => name entry = fn) es = Some (i, _))
        as Hfind by (vm_compute; reflexivity)
  end.

Ltac not_found file :=
  eassert (encode_filename file = Ret _) as Hname
    by (vm_compute; reflexivity);
  lazymatch goal with
  | Hes : entries_of _ = Some ?es, Hname : encode_filename _ = Ret ?fn |- _ =>
      assert (list_find (fun entry => name entry = fn) es = None)
        as Hnone by (vm_compute; reflexivity)
  end.

Lemma rmfs_flags_entry_in_place_witness :
  exists c1 h h1 es1,
    header_of (image stored_host) = Some h
    /\ rmfs img (str "a.txt")
         (mkWorld (files stored_host) 0 [] [] 1700000000)
       = (Ret tt,
          mkWorld (<[img := c1]> (files stored_host)) 64 []
            ([] ++ [rmfs_message img (str "a.txt")]) 1700000000)
    /\ header_of c1 = Some h1 /\ entries_of c1 = Some es1
    /\ file_count h = 2 /\ file_count h1 = 1 /\ deleted_files h1 = 1
    /\ drop 2112 c1 = drop 2112 (image stored_host)
    /\ length c1 = length (image stored_host).
Proof.
  pose (w := stored_host). container_facts w. found_at (str "a.txt") 0%nat.
  eassert (files w !! str "a.txt" = Some _) as Hfile
    by (vm_compute; reflexivity).
  destruct (rmfs_flags_entry_in_place (files w) 0 [] [] 1700000000 img
              (str "a.txt") _ _ _ _ _ _ _ Hfs Hfile Hname Hh Hes Hfind
              ltac:(vm_compute; intros [=]) ltac:(vm_compute; reflexivity))
    as (c1 & Hrun & Hh1 & Hes1 & Hdata & Hlen).
  eexists c1, _, _, _. split; [exact Hh|]. split; [exact Hrun|].
  split; [exact Hh1|]. split; [exact Hes1|].
  split; [reflexivity|]. split; [reflexivity|]. split; [reflexivity|].
  split; [exact Hdata|exact Hlen].
Defined.

Lemma removed_file_still_read_witness :
  exists w1 w2,
    rmfs img (str "b.txt")
      (mkWorld (files stored_host) 0 [str "out.txt"] [] 1700000000)
    = (Ret tt, w1)
    /\ getfs img (str "b.txt") w1 = (Ret tt, w2)
    /\ files w2 !! str "out.txt" = Some (replicate 70 "A"%byte).
Proof.
  pose (w := stored_host). container_facts w. found_at (str "b.txt") 1%nat.
  eassert (files w !! str "b.txt" = Some _) as Hfile
    by (vm_compute; reflexivity).
  destruct (removed_file_still_read (files w) 0 [] [] 1700000000 img
              (str "b.txt") (str "out.txt") _ _ _ _ _ _ _ Hfs Hfile Hname Hh
              Hes Hfind
              ltac:(vm_compute; intros [=]) ltac:(vm_compute; reflexivity)
              ltac:(vm_compute; intros [=]) ltac:(vm_compute; intros [=]))
    as (w1 & w2 & Hrm & Hget & Hout & _).
  exists w1, w2. split; [exact Hrm|]. split; [exact Hget|].
  etrans; [exact Hout|]. vm_compute. reflexivity.
Defined.

Lemma header_counts_the_table_witness :
  exists c h es,
    files removed_host !! img = Some c
    /\ header_of c = Some h /\ entries_of c = Some es
    /\ file_count h + deleted_files h
       = count (fun e => negb (is_empty e)) es
    /\ (gifs img removed_host).1 = Ret tt.
Proof.
  destruct (header_counts_the_table img removed_host removed_host_reachable)
    as (c & h & es & Hc & Hh & Hes & _ & Hsum & Hret & _).
  by exists c, h, es.
Defined.

Lemma payloads_are_aligned_witness :
  exists c h es,
    files removed_host !! img = Some c
    /\ header_of c = Some h /\ entries_of c = Some es
    /\ next_free_offset h mod 64 = 0
    /\ forall e, e ∈ es -> is_empty e = false -> start e mod 64 = 0.
Proof.
  destruct (payloads_are_aligned img removed_host removed_host_reachable)
    as (c & h & es & Hc & Hh & Hes & _ & Hnfo & Hall).
  exists c, h, es. do 4 (split; [assumption|]).
  intros e He Hne. exact (proj2 (Hall e He Hne)).
Defined.

Lemma stored_payloads_are_disjoint_witness :
  exists c h es,
    files removed_host !! img = Some c
    /\ header_of c = Some h /\ entries_of c = Some es
    /\ next_free_offset h <= Z.of_nat (length c).
Proof.
  destruct (stored_payloads_are_disjoint img removed_host
              removed_host_reachable)
    as (c & h & es & Hc & Hh & Hes & Hlim & _).
  by exists c, h, es.
Defined.
Lemma dfrgfs_compacts_table_witness :
  exists c1 h1 moved,
    dfrgfs img (mkWorld (files removed_host) 0 [] [] 1700000000)
    = (Ret tt,
       mkWorld (<[img := c1]> (files removed_host)) 64 []
         ([] ++ [dfrgfs_message img
                   (default [] (entries_of (image removed_host)))])
         1700000000)
    /\ header_of c1 = Some h1
    /\ entries_of c1
       = Some (moved ++ replicate (32 - length moved) FileEntry_default)
    /\ length moved = 1%nat
    /\ file_count h1 = 1 /\ deleted_files h1 = 0
    /\ length c1 = length (image removed_host).
Proof.
  pose (w := removed_host). container_facts w.
  destruct (consistent_well_formed _ _ _ removed_image_consistent Hh Hes)
    as [Hwf _].
  destruct (dfrgfs_compacts_table (files w) 0 [] [] 1700000000 img _ _ _
              Hfs Hh Hes Hwf)
    as (c1 & h1 & moved & Hrun & Hh1 & Hes1 & Hmoved & Hcount & Hdel & _
        & Hlen).
  exists c1, h1, moved. split; [exact Hrun|]. split; [exact Hh1|].
  split; [exact Hes1|]. split; [|split; [|split; [exact Hdel|exact Hlen]]].
  - apply Forall2_length in Hmoved. rewrite Hmoved. vm_compute. reflexivity.
  - rewrite Hcount. vm_compute. reflexivity.
Defined.

Lemma unknown_name_is_refused_witness :
  getfs img (str "a.txt") (mkWorld (files fresh_host) 0 [] [] 1700000000)
  = (Raise (AssertionError not_in_filesystem),
     mkWorld (files fresh_host) 2112 [] [] 1700000000).
Proof.
  pose (w := fresh_host). container_facts w. not_found (str "a.txt").
  exact (proj1 (unknown_name_is_refused (files w) 0 [] [] 1700000000 img
                  (str "a.txt") _ _ _ Hfs Hname Hes Hnone)).
Defined.

Lemma removed_then_defragmented_is_gone_witness :
  exists w1 w2,
    rmfs img (str "a.txt") (mkWorld (files stored_host) 0 [] [] 1700000000)
    = (Ret tt, w1)
    /\ dfrgfs img w1 = (Ret tt, w2)
    /\ (getfs img (str "a.txt") w2).1
       = Raise (AssertionError not_in_filesystem).
Proof.
  pose (w := stored_host). container_facts w. found_at (str "a.txt") 0%nat.
  eassert (files w !! str "a.txt" = Some _) as Hfile
    by (vm_compute; reflexivity).
  destruct (removed_then_defragmented_is_gone (files w) 0 [] [] 1700000000
              img (str "a.txt") _ _ _ _ _ _ _ Hfs Hfile Hname Hh Hes Hfind
              ltac:(vm_compute; reflexivity) stored_image_consistent
              ltac:(vm_compute; intros [=]) ltac:(vm_compute; reflexivity))
    as (w1 & w2 & c2 & es2 & Hrm & Hdf & _ & _ & _ & Hget & _).
  exists w1, w2. split; [exact Hrm|]. split; [exact Hdf|exact Hget].
Defined.

Lemma addfs_preserves_stored_files_witness :
  exists c1 es1 e,
    addfs img (str "raw.bin")
      (mkWorld (files removed_host) 0 [] [] 1700000000)
    = (Ret tt,
       mkWorld (<[img := c1]> (files removed_host)) 64 []
         ([] ++ [addfs_message img (str "raw.bin")]) 1700000000)
    /\ entries_of c1 = Some es1
    /\ es1 !! 1%nat = Some e
    /\ extract c1 (name e) = Some (replicate 70 "A"%byte).
Proof.
  pose (w := removed_host). container_facts w.
  eassert (files w !! str "raw.bin" = Some _) as Hfile
    by (vm_compute; reflexivity).
  eassert (str_encode (str "raw.bin") = Some _) as Hb
    by (vm_compute; reflexivity).
  lazymatch type of Hes with
  | _ = Some ?es =>
      eassert (list_find (fun entry => is_empty entry) es = Some (2%nat, _))
        as Hfree by (vm_compute; reflexivity);
      eassert (es !! 1%nat = Some _) as He by (vm_compute; reflexivity)
  end.
  destruct (addfs_preserves_stored_files (files w) 0 [] [] 1700000000 img
              (str "raw.bin") _ _ _ _ _ _ _ Hfs Hfile Hh Hes
              removed_image_consistent Hb
              ltac:(vm_compute; lia) ltac:(vm_compute; reflexivity) Hfree
              ltac:(vm_compute;
                    repeat split; first [reflexivity | intros [=]]))
    as (c1 & es1 & Hrun & Hes1 & Hall).
  destruct (Hall _ _ He ltac:(vm_compute; reflexivity))
    as (He1 & _ & Hx).
  eexists c1, es1, _. split; [exact Hrun|]. split; [exact Hes1|].
  split; [exact He1|]. etrans; [exact Hx|]. vm_compute. reflexivity.
Defined.

Lemma filename_round_trip_witness :
  FileEntry_filename
    (mkFileEntry (padded_name (blit "a.txt")) 2112 5 0 0 0 1700000000
       (zeros 12))
  = Some (str "a.txt").
Proof.
  apply (filename_round_trip (str "a.txt") (str "a.txt") []
           (padded_name (blit "a.txt"))).
  - vm_compute. reflexivity.
  - reflexivity.
  - vm_compute. reflexivity.
  - apply (bool_decide_unpack _). vm_compute. reflexivity.
  - by left.
Defined.

Lemma lsfs_lists_unflagged_entries_witness :
  exists line,
    lsfs seconds img (mkWorld (files removed_host) 0 [] [] 1700000000)
    = (Ret tt,
       mkWorld (files removed_host) 2112 [] ([] ++ [line]) 1700000000)
    /\ line
       = lsfs_block (str "b.txt") 70 (str "1700000000") ++ [10%N].
Proof.
  pose (w := removed_host). container_facts w.
  eexists. split.
  - refine (lsfs_lists_unflagged_entries seconds (files w) 0 [] []
              1700000000 img _ _ [_] Hfs Hes _).
    lazymatch type of Hes with
    | _ = Some ?es =>
        eassert (listed es = [_]) as -> by (vm_compute; reflexivity)
    end.
    constructor; [vm_compute; reflexivity|constructor].
  - vm_compute. reflexivity.
Defined.

Lemma main_refuses_bad_command_lines_witness :
  main seconds [str "zvfs.py"; str "mkfs"; img; str "a.txt"] host
  = (arity_TypeError, host)
  /\ main seconds [str "zvfs.py"; str "format"; img] host = (KeyError, host)
  /\ main seconds [str "zvfs.py"; str "mkfs"] host
     = (usage_AssertionError, host).
Proof.
  split; [|split].
  - refine (proj1 (proj2 (proj2
              (main_refuses_bad_command_lines seconds (str "zvfs.py")
                 (str "mkfs") img (str "a.txt") [] host))) _).
    by left.
  - refine (proj1 (proj1 (proj2
              (main_refuses_bad_command_lines seconds (str "zvfs.py")
                 (str "format") img (str "a.txt") [] host)) _)).
    apply (bool_decide_unpack _). vm_compute. reflexivity.
  - refine (proj1 (main_refuses_bad_command_lines seconds (str "zvfs.py")
                     (str "mkfs") img (str "a.txt")
                     [str "zvfs.py"; str "mkfs"] host) _).
    cbn [length]. lia.
Defined.
Lemma short_container_is_refused_witness :
  refused_with struct_error
    (mkWorld {[ img := blit "ZVFSDSK1" ]} 0 [] [] 1700000000)
    (dfrgfs img (mkWorld {[ img := blit "ZVFSDSK1" ]} 0 [] [] 1700000000))
  /\ refused_with struct_error
       (mkWorld {[ img := blit "ZVFSDSK1" ]} 0 [] [] 1700000000)
       (getfs img (str "a.txt")
          (mkWorld {[ img := blit "ZVFSDSK1" ]} 0 [] [] 1700000000)).
Proof.
  assert (({[ img := blit "ZVFSDSK1" ]} : gmap pystr bytes) !! img
          = Some (blit "ZVFSDSK1")) as Hfs by apply lookup_singleton_eq.
  destruct (short_container_is_refused seconds _ 0 [] [] 1700000000 img
              (str "a.txt") _ Hfs ltac:(vm_compute; lia))
    as (_ & Hd & _ & Hnamed).
  split; [exact Hd|].
  exact (proj1 (Hnamed _ eq_refl)).
Defined.

Lemma overlong_name_is_never_found_witness :
  (length name17 <= 31)%nat
  /\ getfs img name17 (mkWorld (files fresh_host) 0 [] [] 1700000000)
     = (Raise (AssertionError not_in_filesystem),
        mkWorld (files fresh_host) 2112 [] [] 1700000000).
Proof.
  pose (w := fresh_host). container_facts w.
  eassert (str_encode name17 = Some _) as Hb by (vm_compute; reflexivity).
  split; [vm_compute; lia|].
  exact (proj1 (proj2 (overlong_name_is_never_found (files w) 0 [] []
                         1700000000 img name17 _ _ _ Hfs Hes Hb
                         ltac:(vm_compute; lia) ltac:(vm_compute; lia)))).
Defined.

Lemma getfs_asks_before_overwriting_witness :
  exists C',
    getfs img (str "b.txt")
      (mkWorld (files removed_host) 0 [str "out.txt"] [] 1700000000)
    = (Ret tt,
       mkWorld (<[str "out.txt" := replicate 70 "A"%byte]>
                  (files removed_host)) C' []
         (([] ++ [getfs_prompt (str "b.txt")])
          ++ [getfs_message img (str "out.txt")]) 1700000000)
    /\ <[str "out.txt" := replicate 70 "A"%byte]> (files removed_host)
         !! str "b.txt"
       = files removed_host !! str "b.txt".
Proof.
  pose (w := removed_host). container_facts w. found_at (str "b.txt") 1%nat.
  destruct (getfs_asks_before_overwriting (files w) 0 [] [] 1700000000 img
              (str "b.txt") (str "out.txt") _ _ _ _ _ Hfs Hname Hes Hfind
              ltac:(vm_compute; intros [=]) ltac:(vm_compute; intros [=]))
    as (_ & _ & Hother).
  destruct (Hother ltac:(vm_compute; eexists; reflexivity)
              ltac:(vm_compute; intros [=]))
    as (C' & Hrun & Hkeeps).
  exists C'. split.
  - etrans; [exact Hrun|]. reflexivity.
  - apply lookup_insert_ne. vm_compute. intros [=].
Defined.

Lemma dfrgfs_twice_changes_nothing_witness :
  exists c1 O1,
    dfrgfs img (mkWorld (files removed_host) 0 [] [] 1700000000)
    = (Ret tt,
       mkWorld (<[img := c1]> (files removed_host)) 64 [] O1 1700000000)
    /\ dfrgfs img
         (mkWorld (<[img := c1]> (files removed_host)) 64 [] O1 1700000000)
       = (Ret tt,
          mkWorld (<[img := c1]> (files removed_host)) 64 []
            (O1 ++ [dfrgfs_message img []]) 1700000000).
Proof.
  pose (w := removed_host). container_facts w.
  destruct (consistent_well_formed _ _ _ removed_image_consistent Hh Hes)
    as [Hwf _].
  destruct (dfrgfs_twice_changes_nothing (files w) 0 [] [] 1700000000 img
              _ _ _ Hfs Hh Hes Hwf) as (c1 & Hone & Htwo).
  eexists c1, _. split; [exact Hone|exact Htwo].
Defined.

Lemma addfs_stores_at_free_offset_witness :
  exists c1 h1 e1 es,
    entries_of (image removed_host) = Some es
    /\ addfs img (str "raw.bin")
         (mkWorld (files removed_host) 0 [] [] 1700000000)
       = (Ret tt,
          mkWorld (<[img := c1]> (files removed_host)) 64 []
            ([] ++ [addfs_message img (str "raw.bin")]) 1700000000)
    /\ header_of c1 = Some h1
    /\ entries_of c1 = Some (<[2%nat := e1]> es)
    /\ start e1 = 2304 /\ length_ e1 = 2
    /\ payload c1 e1 = [xff; xfe]
    /\ next_free_offset h1 = 2368
    /\ Z.of_nat (length c1) = 2368.
Proof.
  pose (w := removed_host). container_facts w.
  eassert (files w !! str "raw.bin" = Some _) as Hfile
    by (vm_compute; reflexivity).
  eassert (str_encode (str "raw.bin") = Some _) as Hb
    by (vm_compute; reflexivity).
  lazymatch type of Hes with
  | _ = Some ?es =>
      eassert (list_find (fun entry => is_empty entry) es = Some (2%nat, _))
        as Hfree by (vm_compute; reflexivity)
  end.
  destruct (addfs_stores_at_free_offset (files w) 0 [] [] 1700000000 img
              (str "raw.bin") _ _ _ _ _ _ _ Hfs Hfile Hh Hes
              removed_image_consistent Hb
              ltac:(vm_compute; lia) ltac:(vm_compute; reflexivity) Hfree
              ltac:(vm_compute;
                    repeat split; first [reflexivity | intros [=]]))
    as (c1 & h1 & e1 & Hrun & Hh1 & Hes1 & _ & _ & Hstart & Hlen & _ & _
        & Hpay & _ & _ & Hnfo & Hsize).
  eexists c1, h1, e1, _. split; [exact Hes|]. split; [exact Hrun|].
  split; [exact Hh1|]. split; [exact Hes1|].
  split; [rewrite Hstart; vm_compute; reflexivity|].
  split; [rewrite Hlen; vm_compute; reflexivity|].
  split; [exact Hpay|].
  assert (next_free_offset h1 = 2368) as Hnfo'
    by (rewrite Hnfo; vm_compute; reflexivity).
  split; [exact Hnfo'|].
  rewrite Hsize, Hnfo'. vm_compute. reflexivity.
Defined.

Lemma added_text_is_printed_witness :
  exists w1 w2,
    addfs img (str "a.txt") (mkWorld (files fresh_host) 0 [] [] 1700000000)
    = (Ret tt, w1)
    /\ catfs img (str "a.txt") w1 = (Ret tt, w2)
    /\ stdout w2
       = [] ++ [addfs_message img (str "a.txt");
                catfs_message (str "a.txt") (str "hello")].
Proof.
  pose (w := fresh_host). container_facts w.
  eassert (files w !! str "a.txt" = Some _) as Hfile
    by (vm_compute; reflexivity).
  eassert (str_encode (str "a.txt") = Some _) as Hb
    by (vm_compute; reflexivity).
  lazymatch type of Hes with
  | _ = Some ?es =>
      eassert (list_find (fun entry => is_empty entry) es = Some (0%nat, _))
        as Hfree by (vm_compute; reflexivity)
  end.
  destruct (added_text_is_printed (files w) 0 [] [] 1700000000 img
              (str "a.txt") (str "hello") _ _ _ _ _ _ _ Hfs Hfile Hh Hes
              ltac:(vm_compute; intros [=]) Hb
              ltac:(vm_compute; lia) ltac:(vm_compute; reflexivity) Hfree
              ltac:(vm_compute;
                    repeat split; first [reflexivity | intros [=]])
              ltac:(vm_compute; reflexivity))
    as (w1 & w2 & Hadd & Hcat & Hout & _).
  exists w1, w2. split; [exact Hadd|]. split; [exact Hcat|exact Hout].
Defined.


Lemma rmfs_counts_flagged_entry_again_witness :
  exists h es c1 h1,
    header_of (image removed_host) = Some h
    /\ entries_of (image removed_host) = Some es
    /\ (flag <$> es !! 0%nat) = Some 1
    /\ rmfs img (str "a.txt")
         (mkWorld (files removed_host) 0 [] [] 1700000000)
       = (Ret tt,
          mkWorld (<[img := c1]> (files removed_host)) 64 []
            ([] ++ [rmfs_message img (str "a.txt")]) 1700000000)
    /\ header_of c1 = Some h1
    /\ entries_of c1 = Some es
    /\ count flagged es = 1 /\ count live es = 1
    /\ deleted_files h = 1 /\ deleted_files h1 = 2
    /\ file_count h = 1 /\ file_count h1 = 0.
Proof.
  pose (w := removed_host). container_facts w. found_at (str "a.txt") 0%nat.
  eassert (files w !! str "a.txt" = Some _) as Hfile
    by (vm_compute; reflexivity).
  destruct (rmfs_counts_flagged_entry_again (files w) 0 [] [] 1700000000 img
              (str "a.txt") _ _ _ _ _ _ _ Hfs Hfile Hname Hh Hes Hfind
              ltac:(reflexivity)
              ltac:(vm_compute; intros [=]) ltac:(vm_compute; reflexivity))
    as (c1 & h1 & Hrun & Hh1 & Hes1 & _ & _ & Hdel & Hcnt).
  eexists _, _, c1, h1. split; [exact Hh|]. split; [exact Hes|].
  split; [reflexivity|]. split; [exact Hrun|].
  split; [exact Hh1|]. split; [exact Hes1|].
  split; [vm_compute; reflexivity|]. split; [vm_compute; reflexivity|].
  split; [reflexivity|]. split; [rewrite Hdel; reflexivity|].
  split; [reflexivity|]. rewrite Hcnt. reflexivity.
Defined.
